(** * zhongyuan-registertion: record ingestion, listing, deletion and CSV export

    A shallow embedding of the Express route handlers of the registration
    service (routes.js in its two layouts, config.js and the two database.js
    files) together with the part of the document store they call into.

    - Documents are finite maps from field names to values ([gmap string jsval]),
      so that the object spread [{...item, k: v}] is a sequence of map inserts.
    - A handler is a function from the request and the state of the store to a
      response and the new state of the store.  An exception thrown inside the
      [try] block of a handler is an [exn] value that the [catch] block turns
      into a 500 response.
    - The JavaScript number type and the library functions whose results the
      handlers only pass along (number parsing and printing, regular
      expressions, date parsing, the ObjectId generator) are the fields of the
      classes [JSNumber] and [Runtime]; the instances [IntNumber] and
      [IntRuntime] of the module [IntModel] give an executable model on
      integral numbers.
    - A string is the sequence of the bytes of its UTF-8 encoding.
    - The collections follow the documented behaviour of the MongoDB driver
      for the calls the handlers make, with the options they pass (none):
      insertMany is an ordered bulk write, a unique index refuses a second
      document under one key, deleteOne removes the first match.
    - The database is connected, every clock reading of one request is the
      instant [now], and a write to the logs collection succeeds.  The fields
      [message] and [timestamp] of a response are left out. *)

From Stdlib Require Import ZArith String Ascii List Bool Lia DecimalString.
From stdpp Require Import base decidable option list strings gmap sorting.

Open Scope string_scope.

(** ** Numbers *)

(** The IEEE double of the JavaScript runtime and of the store, kept
    abstract: nothing is assumed of its arithmetic, so what is proved of a
    sum holds whatever addition rounds to. *)
Class JSNumber := {
  num : Type;
  num_eq_dec :: EqDecision num;
  num_lit : Z → num;                 (* a numeric literal of the source *)
  num_nan : num;                     (* NaN *)
  num_add : num → num → num;
  num_sub : num → num → num;
  num_mul : num → num → num;
  num_ceil_div : num → num → num;    (* Math.ceil(a / b) *)
  num_falsy : num → bool;            (* ToBoolean(x) = false: NaN, +0, -0 *)
  num_to_string : num → string;      (* Number.prototype.toString *)
  num_toFixed2 : num → string;       (* x.toFixed(2) *)
  num_falsy_nan : num_falsy num_nan = true;
}.

(** ** Values *)

Section Values.
Context `{JSNumber}.

(** A JSON or BSON value held in a field of a document, in a request body or
    in a query string.  [undefined] is the absence of a value ([None] of
    [option jsval]).  An array or an embedded document is [VComposite], known
    by its JSON text only; the store's element-wise matching of array-valued
    fields is not modelled. *)
Inductive jsval :=
  | VNull
  | VBool (b : bool)
  | VNum (x : num)
  | VStr (s : string)
  | VDate (t : Z)              (* a Date, as milliseconds since the epoch *)
  | VOid (hex : string)        (* an ObjectId, as its hexadecimal text *)
  | VComposite (json : string).

#[export] Instance jsval_eq_dec : EqDecision jsval.
Proof. solve_decision. Defined.

(** ToBoolean, as used by [||], [!], [? :] and [if]. *)
Definition truthy (v : option jsval) : bool :=
  match v with
  | None | Some VNull => false
  | Some (VBool b) => b
  | Some (VNum x) => negb (num_falsy x)
  | Some (VStr s) => negb (bool_decide (s = ""))
  | Some (VDate _) | Some (VOid _) | Some (VComposite _) => true
  end.

(** [a || b] where [b] is a value. *)
Definition or_else (a : option jsval) (b : jsval) : jsval :=
  match a with
  | Some v => if truthy a then v else b
  | None => b
  end.

(** [a === b] for a value against a string: no conversion takes place. *)
Definition strict_eq_string (a : option jsval) (s : string) : bool :=
  match a with Some (VStr s') => bool_decide (s' = s) | _ => false end.

End Values.

Arguments jsval {_}.

(** A document of the store, an item of a request body, a parsed query string. *)
Abbreviation doc := (gmap string jsval).

(** ** The runtime and the driver *)

(** The conversions are total: a composite value whose conversion to a
    primitive throws is not modelled. *)
Class Runtime `{JSNumber} := {
  (* Number(s) and parseFloat(s) on a string *)
  StringToNumber : string → num;
  parseFloat : string → num;
  (* Number(v) on an ObjectId or a composite value *)
  ObjectToNumber : jsval → num;
  (* parseInt(v) *)
  parseInt : jsval → num;
  (* String(v) on a Date, an ObjectId or a composite value *)
  ObjectToString : jsval → string;
  (* new Date(v).toISOString(): None when the date is invalid (RangeError) *)
  toISOString : jsval → option string;
  (* the instant the store receives for new Date(v) *)
  Date_of : jsval → Z;
  (* new ObjectId(s): the id a string denotes, None when the constructor throws *)
  ObjectId_of_string : string → option string;
  (* new ObjectId().toString(): the k-th id generated by this process *)
  ObjectId_fresh : nat → string;
  (* a case-insensitive regular expression, None when the store rejects it *)
  regex_i : jsval → option (string → bool);
  (* how the cursor reads skip(a).limit(b): entries to drop, entries to keep
     (None: no bound), or None when the store rejects the pair *)
  cursor_window : num → num → option (nat * option nat);
  (* the order in which the store sorts the values of a field *)
  bson_le : option jsval → option jsval → bool;
}.

Section Conversions.
Context `{Runtime}.

(** Number(v) *)
Definition ToNumber (v : option jsval) : num :=
  match v with
  | None => num_nan
  | Some VNull => num_lit 0
  | Some (VBool b) => num_lit (if b then 1 else 0)
  | Some (VNum x) => x
  | Some (VStr s) => StringToNumber s
  | Some (VDate t) => num_lit t
  | Some (VOid _ as o) | Some (VComposite _ as o) => ObjectToNumber o
  end.

(** String(v), as a template literal and Array.prototype.join apply it. *)
Definition to_string (v : jsval) : string :=
  match v with
  | VNull => "null"
  | VBool b => if b then "true" else "false"
  | VNum x => num_to_string x
  | VStr s => s
  | VDate _ | VOid _ | VComposite _ => ObjectToString v
  end.

End Conversions.

(** ** The store *)

(** What a [try] block of a handler can throw. *)
Inductive exn :=
  | E11000 (index : string) (position : nat)  (* duplicate key at an item of a bulk write *)
  | EmptyBatch                                (* insertMany of an empty array *)
  | BSONError                                 (* new ObjectId(s) on a malformed s *)
  | TypeError (method : string)               (* v.method is not a function *)
  | RangeError                                (* toISOString of an invalid date *)
  | StoreRejected.                            (* the store refuses the command *)

#[export] Instance exn_eq_dec : EqDecision exn.
Proof. solve_decision. Defined.

(** The options of an index as createIndex receives them. *)
Record index_options := { unique : bool; sparse : bool }.

(** The two database.js files of the repository: src/database.js and
    src/server/database.js. *)
Inductive layout := RootLayout | ServerLayout.

(** createIndexes: the index on localId. *)
Definition createIndexes (l : layout) : index_options :=
  match l with
  | RootLayout => {| unique := true; sparse := false |}
  | ServerLayout => {| unique := true; sparse := true |}
  end.

(** The index every collection has on _id. *)
Definition id_index : index_options := {| unique := true; sparse := false |}.

Section Store.
Context `{Runtime}.

(** An entry of the logs collection; the constructor is its [type] field. *)
Inductive log_entry :=
  | record_submit (batchId : option jsval) (count : nat)
      (insertedCount : option nat) (deviceId : option jsval)
      (timestamp : Z) (ip : string)
  | record_submit_error (error : exn) (timestamp : Z) (ip : string) (bodySize : nat)
  | record_delete (targetId : string) (deletedCount : nat) (timestamp : Z) (ip : string).

(** The state a handler runs in: the two collections, the index on localId
    that createIndexes made, and how many ObjectIds the process has generated. *)
Record state := {
  records : list doc;
  logs : list log_entry;
  localId_index : index_options;
  oids : nat;
}.

Definition set_records (ds : list doc) (s : state) : state :=
  {| records := ds; logs := logs s; localId_index := localId_index s; oids := oids s |}.

Definition set_oids (k : nat) (s : state) : state :=
  {| records := records s; logs := logs s; localId_index := localId_index s; oids := k |}.

(** logs().insertOne(entry) *)
Definition insertOne_log (e : log_entry) (s : state) : state :=
  {| records := records s; logs := logs s ++ [e];
     localId_index := localId_index s; oids := oids s |}.

(** The key under which an index holds a document: a document without the
    field is held under null, unless the index is sparse, which leaves it out. *)
Definition index_key (o : index_options) (field : string) (d : doc) : option jsval :=
  match d !! field with
  | Some v => Some v
  | None => if sparse o then None else Some VNull
  end.

(** Writing [d] would put a second document under one key of a unique index. *)
Definition conflicts (o : index_options) (field : string) (d : doc) (stored : list doc) : bool :=
  unique o &&
  match index_key o field d with
  | Some k => existsb (λ d', bool_decide (index_key o field d' = Some k)) stored
  | None => false
  end.

(** The driver gives an _id to every document that has none before it sends
    the batch. *)
Fixpoint assign_ids (k : nat) (ds : list doc) : list doc * nat :=
  match ds with
  | [] => ([], k)
  | d :: ds' =>
      match d !! "_id" with
      | Some _ => let '(r, k') := assign_ids k ds' in (d :: r, k')
      | None =>
          let '(r, k') := assign_ids (S k) ds' in
          (<["_id" := VOid (ObjectId_fresh k)]> d :: r, k')
      end
  end.

(** An ordered bulk write (the default of insertMany): the documents are
    written one by one, the first duplicate key ends the operation, and what
    was written before it stays.  [n] counts the documents written so far. *)
Fixpoint bulk_write (o : index_options) (pending stored : list doc) (n : nat)
  : list doc * (nat + exn) :=
  match pending with
  | [] => (stored, inl n)
  | d :: rest =>
      if conflicts id_index "_id" d stored then (stored, inr (E11000 "_id_" n))
      else if conflicts o "localId" d stored then (stored, inr (E11000 "localId_1" n))
      else bulk_write o rest (stored ++ [d]) (S n)
  end.

(** records().insertMany(ds): the new state and insertedCount, or the error. *)
Definition insertMany (ds : list doc) (s : state) : state * (nat + exn) :=
  match ds with
  | [] => (s, inr EmptyBatch)
  | _ =>
      let '(ds', k) := assign_ids (oids s) ds in
      let '(stored, r) := bulk_write (localId_index s) ds' (records s) 0 in
      (set_oids k (set_records stored s), r)
  end.

(** *** Query filters *)

Inductive cond :=
  | Eq (v : jsval)                  (* { field: v } *)
  | Regex (pattern : jsval)         (* { field: { $regex: pattern, $options: 'i' } } *)
  | Range (gte lte : option Z).     (* { field: { $gte: Date, $lte: Date } } *)

Inductive clause :=
  | Field (name : string) (c : cond)
  | Or (alternatives : list (string * cond)).   (* { $or: [ {f1: c1}, ... ] } *)

(** A query object: every clause must hold; [[]] is the empty query. *)
Definition filter := list clause.

Definition cond_ok (c : cond) : bool :=
  match c with
  | Regex p => bool_decide (is_Some (regex_i p))
  | _ => true
  end.

Definition clause_ok (c : clause) : bool :=
  match c with
  | Field _ c => cond_ok c
  | Or alts => forallb (λ fc, cond_ok fc.2) alts
  end.

Definition filter_ok (q : filter) : bool := forallb clause_ok q.

Definition match_cond (c : cond) (v : option jsval) : bool :=
  match c with
  | Eq q =>
      match v with
      | Some w => bool_decide (w = q)
      | None => bool_decide (q = VNull)
      end
  | Regex p =>
      match regex_i p, v with
      | Some r, Some (VStr s) => r s
      | _, _ => false
      end
  | Range gte lte =>
      match v with
      | Some (VDate t) =>
          from_option (λ lo, Z.leb lo t) true gte && from_option (λ hi, Z.leb t hi) true lte
      | _ => false
      end
  end.

Definition match_clause (d : doc) (c : clause) : bool :=
  match c with
  | Field f c => match_cond c (d !! f)
  | Or alts => existsb (λ fc, match_cond fc.2 (d !! fc.1)) alts
  end.

Definition matches (q : filter) (d : doc) : bool := forallb (match_clause d) q.

(** countDocuments(q) *)
Definition countDocuments (q : filter) (s : state) : nat + exn :=
  if filter_ok q then inl (length (List.filter (matches q) (records s)))
  else inr StoreRejected.

(** deleteMany(q): the new state and deletedCount. *)
Definition deleteMany (q : filter) (s : state) : state * (nat + exn) :=
  if filter_ok q then
    (set_records (List.filter (λ d, negb (matches q d)) (records s)) s,
     inl (length (List.filter (matches q) (records s))))
  else (s, inr StoreRejected).

(** The first document in natural order that matches is removed. *)
Fixpoint remove_first (q : filter) (ds : list doc) : list doc * nat :=
  match ds with
  | [] => ([], 0)
  | d :: ds' =>
      if matches q d then (ds', 1)
      else let '(r, n) := remove_first q ds' in (d :: r, n)
  end.

(** deleteOne(q) *)
Definition deleteOne (q : filter) (s : state) : state * (nat + exn) :=
  if filter_ok q then
    let '(r, n) := remove_first q (records s) in (set_records r s, inl n)
  else (s, inr StoreRejected).

End Store.

(** *** Reads: sort, cursor window, aggregation *)

Section Reads.
Context `{Runtime}.

(** A sort specification [{ [field]: direction }], direction 1 or -1. *)
Inductive direction := Ascending | Descending.

Definition field_le (field : string) (dir : direction) (a b : doc) : bool :=
  match dir with
  | Ascending => bson_le (a !! field) (b !! field)
  | Descending => bson_le (b !! field) (a !! field)
  end.

Fixpoint insert_by (le : doc → doc → bool) (d : doc) (sorted : list doc) : list doc :=
  match sorted with
  | [] => [d]
  | x :: rest => if le d x then d :: sorted else x :: insert_by le d rest
  end.

(** cursor.sort(spec) *)
Definition sort_docs (field : string) (dir : direction) (ds : list doc) : list doc :=
  fold_right (insert_by (field_le field dir)) [] ds.

(** find(q).sort({[field]: dir}).skip(a).limit(b).toArray() *)
Definition find_sorted (q : filter) (field : string) (dir : direction)
    (window : option (num * num)) (s : state) : list doc + exn :=
  if filter_ok q then
    let found := sort_docs field dir (List.filter (matches q) (records s)) in
    match window with
    | None => inl found
    | Some (a, b) =>
        match cursor_window a b with
        | Some (dropped, kept) =>
            inl (from_option (λ n, take n (drop dropped found)) (drop dropped found) kept)
        | None => inr StoreRejected
        end
    end
  else inr StoreRejected.

(** The document a [$group] stage with [_id: null] emits for the listing. *)
Record group_stats := {
  totalAmountTWD : num;
  totalAmountRMB : num;
  count : nat;
}.

(** One value into the accumulator of [$sum: '$field']: a number is added to
    it; anything else (a text, null, a missing field) is passed over. *)
Definition sum_step (acc : num) (v : option jsval) : num :=
  match v with
  | Some (VNum x) => num_add acc x
  | _ => acc
  end.

(** One document through the accumulators of the group. *)
Definition group_step (g : group_stats) (d : doc) : group_stats :=
  {| totalAmountTWD := sum_step (totalAmountTWD g) (d !! "amountTWD");
     totalAmountRMB := sum_step (totalAmountRMB g) (d !! "amountRMB");
     count := S (count g) |}.

Definition zero_stats : group_stats :=
  {| totalAmountTWD := num_lit 0; totalAmountRMB := num_lit 0; count := 0 |}.

(** aggregate([{ $match: q }, { $group: { _id: null, ... } }]).toArray():
    one group when a document matches, no group at all otherwise. *)
Definition aggregate (q : filter) (s : state) : list group_stats + exn :=
  if filter_ok q then
    match List.filter (matches q) (records s) with
    | [] => inl []
    | d :: ds => inl [fold_left group_step (d :: ds) zero_stats]
    end
  else inr StoreRejected.

End Reads.

(** ** Responses *)

Section Handlers.
Context `{Runtime}.

Inductive error_body :=
  | Message (text : string)      (* a fixed message of the handler *)
  | Thrown (e : exn).            (* error.message of a caught exception *)

Record pagination := {
  pg_page : num;
  pg_limit : num;
  totalCount : nat;
  totalPages : num;
}.

Inductive response :=
  | Failure (status : nat) (error : error_body)
      (* res.status(status).json({ success: false, error }) *)
  | Submitted (submittedCount : nat) (batchId : option jsval)
      (* res.json({ success: true, submittedCount, batchId, ... }) *)
  | Listing (data : list doc) (pages : pagination) (stats : group_stats)
  | Deleted (deletedCount : nat)
  | CsvFile (rows : nat) (content : string).
      (* res.send(csvContent) with the row count of the file name *)

(** ** POST /api/records *)

(** The three handlers bound to the route: the one of src/unnamed/part_000
    (line 44) and the two of src/unnamed/part_002 (lines 44 and 421; the
    router runs the first of the two). *)
Inductive submit_handler := Plain | Coercing | Logging.

(** req.body and req.ip.  [body_data] is [Some] of the items when [data] is an
    array (of JSON objects), [None] when it is missing or no array;
    [body_size] is JSON.stringify(req.body).length. *)
Record submit_request := {
  body_data : option (list doc);
  body_batchId : option jsval;
  body_deviceId : option jsval;
  submit_ip : string;
  body_size : nat;
}.

(** [Number(v) || 0] *)
Definition Number_or_0 (v : option jsval) : jsval :=
  let x := ToNumber v in VNum (if num_falsy x then num_lit 0 else x).

(** [parseFloat(s) || 0] *)
Definition parseFloat_or_0 (s : string) : jsval :=
  let x := parseFloat s in VNum (if num_falsy x then num_lit 0 else x).

(** The metadata every handler writes over the fields of the item. [k] is the
    number of ObjectIds generated before this item. *)
Definition metadata (now : Z) (r : submit_request) (k : nat) (item : doc) : doc :=
  <["serverId" := VStr (ObjectId_fresh k)]>
  (<["syncStatus" := VStr "synced"]>
  (<["updatedAt" := VDate now]>
  (<["createdAt" := VDate now]>
  (<["submittedAt" := VDate now]>
  (<["deviceId" := or_else (body_deviceId r) (VStr "unknown")]>
  (<["batchId" := or_else (body_batchId r)
                    (VStr ("batch_" +:+ num_to_string (num_lit now)))]> item)))))).

(** [if (typeof record[field] === 'string') record[field] = parseFloat(record[field]) || 0]:
    the amount fields of the Logging handler, where only a string is converted. *)
Definition string_amount (field : string) (record : doc) : doc :=
  match record !! field with
  | Some (VStr s) => <[field := parseFloat_or_0 s]> record
  | _ => record
  end.

(** The body of [data.map(item => ...)] of each handler. *)
Definition with_metadata (h : submit_handler) (now : Z) (r : submit_request)
    (k : nat) (item : doc) : doc :=
  match h with
  | Plain => metadata now r k item
  | Coercing =>
      metadata now r k
        (<["amountRMB" := Number_or_0 (item !! "amountRMB")]>
        (<["amountTWD" := Number_or_0 (item !! "amountTWD")]> item))
  | Logging =>
      string_amount "amountRMB" (string_amount "amountTWD" (metadata now r k item))
  end.

Definition recordsWithMetadata (h : submit_handler) (now : Z) (r : submit_request)
    (k : nat) (data : list doc) : list doc :=
  imap (λ i item, with_metadata h now r (k + i) item) data.

Definition post_records (h : submit_handler) (now : Z) (r : submit_request)
    (s : state) : response * state :=
  match body_data r with
  | None => (Failure 400 (Message "无效的数据格式"), s)
  | Some data =>
      let recs := recordsWithMetadata h now r (oids s) data in
      match insertMany recs (set_oids (oids s + length data) s) with
      | (s', inl insertedCount) =>
          (Submitted insertedCount (body_batchId r),
           insertOne_log
             (record_submit (body_batchId r) (length recs)
                (match h with Logging => Some insertedCount | _ => None end)
                (body_deviceId r) now (submit_ip r)) s')
      | (s', inr e) =>
          (Failure 500 (Thrown e),
           match h with
           | Logging => insertOne_log (record_submit_error e now (submit_ip r) (body_size r)) s'
           | _ => s'
           end)
      end
  end.

(** ** GET /api/records *)

(** req.query of the listing: each parameter as the query-string parser left
    it, [None] when absent (the destructuring default then applies). *)
Record list_query := {
  q_page : option jsval;
  q_limit : option jsval;
  q_sortBy : option jsval;
  q_sortOrder : option jsval;
  q_search : option jsval;
  q_project : option jsval;
  q_payment : option jsval;
  q_startDate : option jsval;
  q_endDate : option jsval;
}.

(** [sortOrder === 'desc' ? -1 : 1], with the default 'desc' of the
    destructuring. *)
Definition sort_direction (sortOrder : option jsval) : direction :=
  if strict_eq_string (Some (default (VStr "desc") sortOrder)) "desc"
  then Descending else Ascending.

(** The object [query] of the handler. *)
Definition query (p : list_query) : filter :=
  let search := default (VStr "") (q_search p) in
  let project := default (VStr "") (q_project p) in
  let payment := default (VStr "") (q_payment p) in
  let startDate := default (VStr "") (q_startDate p) in
  let endDate := default (VStr "") (q_endDate p) in
  ((if truthy (Some search)
    then [Or [("name", Regex search); ("contact", Regex search); ("content", Regex search)]]
    else []) ++
   (if truthy (Some project) then [Field "project" (Eq project)] else []) ++
   (if truthy (Some payment) then [Field "payment" (Eq payment)] else []) ++
   (if truthy (Some startDate) || truthy (Some endDate)
    then [Field "submittedAt"
            (Range (if truthy (Some startDate) then Some (Date_of startDate) else None)
                   (if truthy (Some endDate) then Some (Date_of endDate) else None))]
    else []))%list.

Definition get_records (p : list_query) (s : state) : response :=
  let page := default (VNum (num_lit 1)) (q_page p) in
  let limit := default (VNum (num_lit 50)) (q_limit p) in
  let sortBy := default (VStr "submittedAt") (q_sortBy p) in
  let skip := num_mul (num_sub (parseInt page) (num_lit 1)) (parseInt limit) in
  match find_sorted (query p) (to_string sortBy) (sort_direction (q_sortOrder p))
          (Some (skip, parseInt limit)) s with
  | inr e => Failure 500 (Thrown e)
  | inl found =>
      match countDocuments (query p) s with
      | inr e => Failure 500 (Thrown e)
      | inl total =>
          match aggregate (query p) s with
          | inr e => Failure 500 (Thrown e)
          | inl stats =>
              Listing found
                {| pg_page := parseInt page;
                   pg_limit := parseInt limit;
                   totalCount := total;
                   totalPages :=
                     num_ceil_div (num_lit (Z.of_nat total)) (parseInt limit) |}
                (match stats with g :: _ => g | [] => zero_stats end)
          end
      end
  end.

(** ** DELETE /api/records/:id *)

(** config.security.adminPassword: [process.env.ADMIN_PASSWORD || 'admin123']. *)
Definition adminPassword (ADMIN_PASSWORD : option string) : string :=
  match ADMIN_PASSWORD with
  | Some s => if bool_decide (s = "") then "admin123" else s
  | None => "admin123"
  end.

(** req.params.id, the two query parameters the handler reads, and req.ip. *)
Record delete_request := {
  param_id : string;
  del_batchId : option jsval;
  del_adminPassword : option jsval;
  del_ip : string;
}.

Definition delete_records (ADMIN_PASSWORD : option string) (now : Z)
    (r : delete_request) (s : state) : response * state :=
  if negb (strict_eq_string (del_adminPassword r) (adminPassword ADMIN_PASSWORD))
  then (Failure 401 (Message "未授权的操作"), s)
  else
    let id := param_id r in
    let result :=
      if bool_decide (id = "batch") && truthy (del_batchId r) then
        deleteMany [Field "batchId" (Eq (default VNull (del_batchId r)))] s
      else if bool_decide (id = "all") && truthy (del_adminPassword r) then
        deleteMany [] s
      else
        match ObjectId_of_string id with
        | None => (s, inr BSONError)
        | Some oid =>
            deleteOne [Or [("_id", Eq (VOid oid));
                           ("localId", Eq (VStr id));
                           ("serverId", Eq (VStr id))]] s
        end in
    match result with
    | (s', inl n) => (Deleted n, insertOne_log (record_delete id n now (del_ip r)) s')
    | (s', inr e) => (Failure 500 (Thrown e), s')
    end.

(** ** GET /api/export/csv *)

Definition dquote : ascii := "034"%char.
Definition newline : ascii := "010"%char.

(** The byte order mark, as the three bytes the response carries for U+FEFF. *)
Definition BOM : string :=
  String "239"%char (String "187"%char (String "191"%char "")).

Definition headers : list string :=
  ["序号"; "姓名"; "护持项目"; "超荐方式";
   "护持金额(新台币)"; "护持金额(人民币)";
   "超荐内容"; "是否缴费"; "联系人";
   "提交时间"; "设备ID"; "批次ID"; "本地ID"].

(** [s.replace(/c/g, repl)] for a pattern of one character. *)
Fixpoint replace_char (c : ascii) (repl : string) (s : string) : string :=
  match s with
  | EmptyString => EmptyString
  | String a rest =>
      if bool_decide (a = c) then repl +:+ replace_char c repl rest
      else String a (replace_char c repl rest)
  end.

(** A template literal that puts its text between two double quotes. *)
Definition quoted (s : string) : string :=
  String dquote (s +:+ String dquote "").

(** [`"${v || ''}"`] *)
Definition quoted_field (v : option jsval) : string :=
  quoted (to_string (or_else v (VStr ""))).

(** [(v || '')] as the receiver of [replace]: only a string has the method. *)
Definition replace_receiver (v : option jsval) : string + exn :=
  match or_else v (VStr "") with
  | VStr s => inl s
  | _ => inr (TypeError "replace")
  end.

(** [item.amountRMB ? item.amountRMB.toFixed(2) : 0], then joined. *)
Definition amountRMB_field (v : option jsval) : string + exn :=
  if truthy v then
    match v with
    | Some (VNum x) => inl (num_toFixed2 x)
    | _ => inr (TypeError "toFixed")
    end
  else inl (num_to_string (num_lit 0)).

(** [item.submittedAt ? new Date(item.submittedAt).toISOString() : ''] *)
Definition submittedAt_field (v : option jsval) : string + exn :=
  match v with
  | Some w =>
      if truthy v then
        match toISOString w with
        | Some iso => inl iso
        | None => inr RangeError
        end
      else inl ""
  | None => inl ""
  end.

(** The array [row] of the forEach callback; its elements are evaluated in
    order, so the first one that throws decides the exception. *)
Definition row (index : nat) (item : doc) : list string + exn :=
  match replace_receiver (item !! "method") with
  | inr e => inr e
  | inl method =>
      match amountRMB_field (item !! "amountRMB") with
      | inr e => inr e
      | inl amountRMB =>
          match replace_receiver (item !! "content") with
          | inr e => inr e
          | inl content =>
              match submittedAt_field (item !! "submittedAt") with
              | inr e => inr e
              | inl submittedAt =>
                  inl [ num_to_string (num_lit (Z.of_nat (index + 1)));
                        quoted_field (item !! "name");
                        quoted_field (item !! "project");
                        quoted (replace_char newline "; "
                                  (replace_char dquote (String dquote (String dquote "")) method));
                        to_string (or_else (item !! "amountTWD") (VNum (num_lit 0)));
                        amountRMB;
                        quoted (replace_char dquote (String dquote (String dquote "")) content);
                        quoted_field (item !! "payment");
                        quoted_field (item !! "contact");
                        submittedAt;
                        quoted_field (item !! "deviceId");
                        quoted_field (item !! "batchId");
                        quoted_field (item !! "localId") ]
              end
          end
      end
  end.

(** [records.forEach((item, index) => { csvContent += row.join(',') + '\n' })] *)
Fixpoint forEach_row (index : nat) (items : list doc) (csvContent : string)
  : string + exn :=
  match items with
  | [] => inl csvContent
  | item :: rest =>
      match row index item with
      | inr e => inr e
      | inl fields =>
          forEach_row (S index) rest
            (csvContent +:+ String.concat "," fields +:+ String newline "")
      end
  end.

Definition csvContent (items : list doc) : string + exn :=
  forEach_row 0 items (BOM +:+ String.concat "," headers +:+ String newline "").

Definition export_csv (s : state) : response :=
  match find_sorted [] "submittedAt" Descending None s with
  | inr e => Failure 500 (Thrown e)
  | inl found =>
      match csvContent found with
      | inr e => Failure 500 (Thrown e)
      | inl text => CsvFile (length found) text
      end
  end.

End Handlers.

(** ** An executable model of the runtime on integral numbers

    A number is an integer or NaN; the text of a number is its decimal
    numeral.  The instances interpret the fields of [JSNumber] and [Runtime]
    on that fragment, which is enough to run every handler on requests and
    documents whose numbers are integers.  Besides, the model reads a regular
    expression as a text to find, a date as YYYY-MM-DD, an ObjectId as 24
    hexadecimal digits, and prints a Date in ISO form. *)

Module IntModel.

Definition lift2 (f : Z → Z → Z) (a b : option Z) : option Z :=
  match a, b with
  | Some x, Some y => Some (f x y)
  | _, _ => None
  end.

Definition decimal (z : Z) : string := NilZero.string_of_int (Z.to_int z).

Definition int_to_string (a : option Z) : string :=
  match a with
  | Some z => decimal z
  | None => "NaN"
  end.

Definition int_toFixed2 (a : option Z) : string :=
  match a with
  | Some z => decimal z +:+ ".00"
  | None => "NaN"
  end.

Definition int_ceil_div (a b : option Z) : option Z :=
  match a, b with
  | Some x, Some y => if (y =? 0)%Z then None else Some (- ((- x) / y))%Z
  | _, _ => None
  end.

(** Numbers as the store orders them: NaN below every number. *)
Definition int_le (a b : option Z) : bool :=
  match a, b with
  | Some x, Some y => (x <=? y)%Z
  | None, _ => true
  | Some _, None => false
  end.

Definition int_falsy (a : option Z) : bool :=
  match a with
  | Some z => (z =? 0)%Z
  | None => true
  end.

Definition is_digit (c : ascii) : bool :=
  let n := nat_of_ascii c in (48 <=? n)%nat && (n <=? 57)%nat.

Definition is_hex (c : ascii) : bool :=
  let n := nat_of_ascii c in
  is_digit c || ((65 <=? n)%nat && (n <=? 70)%nat) || ((97 <=? n)%nat && (n <=? 102)%nat).

Definition lower (c : ascii) : ascii :=
  let n := nat_of_ascii c in
  if (65 <=? n)%nat && (n <=? 90)%nat then ascii_of_nat (n + 32) else c.

Fixpoint string_forall (p : ascii → bool) (s : string) : bool :=
  match s with
  | EmptyString => true
  | String c rest => p c && string_forall p rest
  end.

Fixpoint string_map (f : ascii → ascii) (s : string) : string :=
  match s with
  | EmptyString => EmptyString
  | String c rest => String (f c) (string_map f rest)
  end.

Fixpoint digits_prefix (s : string) : string :=
  match s with
  | String c rest => if is_digit c then String c (digits_prefix rest) else EmptyString
  | EmptyString => EmptyString
  end.

(** Number(s): the empty string is 0, a decimal numeral is its value,
    anything else is NaN. *)
Definition int_of_text (s : string) : option Z :=
  if bool_decide (s = "") then Some 0%Z
  else Z.of_int <$> NilZero.int_of_string s.

(** parseFloat(s): the value of the longest prefix that is a numeral. *)
Definition int_of_prefix (s : string) : option Z :=
  match s with
  | String "-" rest =>
      Z.of_int <$> NilZero.int_of_string (String "-" (digits_prefix rest))
  | _ => Z.of_int <$> NilZero.int_of_string (digits_prefix s)
  end.

Fixpoint contains_at (p s : string) : bool :=
  match p, s with
  | EmptyString, _ => true
  | String a p', String b s' => bool_decide (a = b) && contains_at p' s'
  | String _ _, EmptyString => false
  end.

Fixpoint contains (p s : string) : bool :=
  contains_at p s ||
  match s with
  | EmptyString => false
  | String _ s' => contains p s'
  end.

Definition pad (width : nat) (z : Z) : string :=
  let t := decimal z in
  String.concat "" (replicate (width - String.length t) "0") +:+ t.

(** The civil date of a day number counted from 1970-01-01. *)
Definition civil_from_days (z : Z) : Z * Z * Z :=
  (let z := z + 719468 in
   let era := z / 146097 in
   let doe := z - era * 146097 in
   let yoe := (doe - doe / 1460 + doe / 36524 - doe / 146096) / 365 in
   let doy := doe - (365 * yoe + yoe / 4 - yoe / 100) in
   let mp := (5 * doy + 2) / 153 in
   let d := doy - (153 * mp + 2) / 5 + 1 in
   let m := if mp <? 10 then mp + 3 else mp - 9 in
   (if m <=? 2 then yoe + era * 400 + 1 else yoe + era * 400, m, d))%Z.

Definition days_from_civil (y m d : Z) : Z :=
  (let y := if m <=? 2 then y - 1 else y in
   let era := y / 400 in
   let yoe := y - era * 400 in
   let doy := (153 * (if 2 <? m then m - 3 else m + 9) + 2) / 5 + d - 1 in
   let doe := yoe * 365 + yoe / 4 - yoe / 100 + doy in
   era * 146097 + doe - 719468)%Z.

(** Date.prototype.toISOString for an instant in the years 0 to 9999. *)
Definition iso (t : Z) : option string :=
  (let day := t / 86400000 in
   let ms := t - day * 86400000 in
   let '(y, m, d) := civil_from_days day in
   if (0 <=? y) && (y <=? 9999) then
     Some (pad 4 y +:+ "-" +:+ pad 2 m +:+ "-" +:+ pad 2 d +:+ "T" +:+
           pad 2 (ms / 3600000) +:+ ":" +:+ pad 2 (ms / 60000 mod 60) +:+ ":" +:+
           pad 2 (ms / 1000 mod 60) +:+ "." +:+ pad 3 (ms mod 1000) +:+ "Z")
   else None)%Z.

(** The instant of a date-only text YYYY-MM-DD; no instant for any other
    text. *)
Definition parse_date (s : string) : option Z :=
  match NilZero.int_of_string (substring 0 4 s),
        NilZero.int_of_string (substring 5 2 s),
        NilZero.int_of_string (substring 8 2 s) with
  | Some y, Some m, Some d =>
      if bool_decide (String.length s = 10%nat)
         && bool_decide (substring 4 1 s = "-") && bool_decide (substring 7 1 s = "-")
      then Some (days_from_civil (Z.of_int y) (Z.of_int m) (Z.of_int d) * 86400000)%Z
      else None
  | _, _, _ => None
  end.

Definition hex_digit (n : nat) : ascii :=
  ascii_of_nat (if (n <? 10)%nat then 48 + n else 87 + n).

Fixpoint hex_digits (width k : nat) : string :=
  match width with
  | O => EmptyString
  | S w => hex_digits w (k / 16) +:+ String (hex_digit (k mod 16)) EmptyString
  end.

#[export] Instance IntNumber : JSNumber := {|
  num := option Z;
  num_lit := Some;
  num_nan := None;
  num_add := lift2 Z.add;
  num_sub := lift2 Z.sub;
  num_mul := lift2 Z.mul;
  num_ceil_div := int_ceil_div;
  num_falsy := int_falsy;
  num_to_string := int_to_string;
  num_toFixed2 := int_toFixed2;
  num_falsy_nan := eq_refl;
|}.

(** The sort order of the store on values: by kind first (null and missing,
    numbers, strings, composites, ObjectIds, booleans, dates), then by value. *)
Definition kind (v : option jsval) : nat :=
  match v with
  | None | Some VNull => 1
  | Some (VNum _) => 2
  | Some (VStr _) => 3
  | Some (VComposite _) => 4
  | Some (VOid _) => 5
  | Some (VBool _) => 6
  | Some (VDate _) => 7
  end.

Definition int_bson_le (a b : option jsval) : bool :=
  match a, b with
  | Some (VNum x), Some (VNum y) => int_le x y
  | Some (VStr x), Some (VStr y) => String.leb x y
  | Some (VComposite x), Some (VComposite y) => String.leb x y
  | Some (VOid x), Some (VOid y) => String.leb x y
  | Some (VBool x), Some (VBool y) => implb x y
  | Some (VDate x), Some (VDate y) => (x <=? y)%Z
  | _, _ => (kind a <=? kind b)%nat
  end.

(** The order is total, as sorting needs. *)
Lemma int_bson_le_total a b : int_bson_le a b = false → int_bson_le b a = true.
Proof.
  destruct a as [[| |[x|]| | | |]|], b as [[| |[y|]| | | |]|]; simpl; try done.
  - destruct b, b0; done.
  - intros Hxy. apply Z.leb_le. apply Z.leb_gt in Hxy. lia.
  - intros Hxy. by destruct (String.leb_total s s0) as [Hle|Hle]; [congruence|].
  - intros Hxy. apply Z.leb_le. apply Z.leb_gt in Hxy. lia.
  - intros Hxy. by destruct (String.leb_total hex hex0) as [Hle|Hle]; [congruence|].
  - intros Hxy. by destruct (String.leb_total json json0) as [Hle|Hle]; [congruence|].
Qed.

#[export] Instance IntRuntime : Runtime := {|
  StringToNumber := int_of_text;
  parseFloat := int_of_prefix;
  ObjectToNumber := λ _, None;
  parseInt := λ v,
    match v with
    | VNum x => x
    | VStr s => int_of_prefix s
    | _ => None
    end;
  ObjectToString := λ v,
    match v with
    | VOid hex => hex
    | VDate t => default "Invalid Date" (iso t)
    | _ => "[object Object]"
    end;
  toISOString := λ v,
    match v with
    | VDate t => iso t
    | VNum (Some t) => iso t
    | VStr s => parse_date s ≫= iso
    | _ => None
    end;
  Date_of := λ v,
    match v with
    | VDate t => t
    | VNum (Some t) => t
    | VStr s => default 0%Z (parse_date s)
    | _ => 0%Z
    end;
  ObjectId_of_string := λ s,
    if bool_decide (String.length s = 24%nat) && string_forall is_hex s
    then Some (string_map lower s) else None;
  ObjectId_fresh := hex_digits 24;
  regex_i := λ p,
    match p with
    | VStr t => Some (λ s, contains (string_map lower t) (string_map lower s))
    | _ => None
    end;
  cursor_window := λ a b,
    match a, b with
    | Some x, Some y =>
        if (0 <=? x)%Z
        then Some (Z.to_nat x, if (y =? 0)%Z then None else Some (Z.to_nat (Z.abs y)))
        else None
    | _, _ => None
    end;
  bson_le := int_bson_le;
|}.

End IntModel.

Export IntModel.

(** ** Sample requests and states *)

(** An object literal. *)
Definition object (fields : list (string * jsval)) : doc := list_to_map fields.

(** The state after connect() on an empty database. *)
Definition new_state (l : layout) : state :=
  {| records := []; logs := []; localId_index := createIndexes l; oids := 0 |}.

(** A submit request from 10.0.0.1. *)
Definition submit (data : list doc) (batchId deviceId : option jsval) : submit_request :=
  {| body_data := Some data; body_batchId := batchId; body_deviceId := deviceId;
     submit_ip := "10.0.0.1"; body_size := 64 |}.

(** One item with localId a, then a batch whose second item repeats it. *)
Definition first_batch : submit_request :=
  submit [object [("name", VStr "A"); ("localId", VStr "a")]]
    (Some (VStr "B1")) (Some (VStr "D1")).

Definition second_batch : submit_request :=
  submit [object [("name", VStr "B"); ("localId", VStr "b")];
          object [("name", VStr "A2"); ("localId", VStr "a")]]
    (Some (VStr "B2")) (Some (VStr "D1")).

Definition after_first_batch : state :=
  (post_records Logging 1000 first_batch (new_state ServerLayout)).2.

(** A request that names no batch and no device. *)
Definition anonymous_batch : submit_request :=
  submit [object [("name", VStr "A"); ("amountTWD", VStr "100")]] None None.

(** Two items that carry no localId. *)
Definition no_localId_batch : submit_request :=
  submit [object [("name", VStr "A")]; object [("name", VStr "B")]]
    (Some (VStr "B1")) (Some (VStr "D1")).

(** An item without amounts, and a delete request with the default secret. *)
Definition bare_batch : submit_request :=
  submit [object [("name", VStr "A")]] (Some (VStr "B1")) (Some (VStr "D1")).

Definition delete_by (id : string) (password : option jsval) : delete_request :=
  {| param_id := id; del_batchId := None; del_adminPassword := password;
     del_ip := "10.0.0.1" |}.

(** Three records, two of them of project X, and a listing of project X
    that asks for pages of one record. *)
Definition three_items : submit_request :=
  submit [object [("name", VStr "A"); ("project", VStr "X");
                  ("amountTWD", VNum (num_lit 100)); ("amountRMB", VNum (num_lit 25))];
          object [("name", VStr "B"); ("project", VStr "Y");
                  ("amountTWD", VNum (num_lit 7)); ("amountRMB", VNum (num_lit 2))];
          object [("name", VStr "C"); ("project", VStr "X");
                  ("amountTWD", VStr "50"); ("amountRMB", VStr "12")]]
    (Some (VStr "B1")) (Some (VStr "D1")).

Definition three_records : state :=
  (post_records Coercing 1000 three_items (new_state ServerLayout)).2.

Definition list_by (project limit sortOrder : option jsval) : list_query :=
  {| q_page := None; q_limit := limit; q_sortBy := Some (VStr "name");
     q_sortOrder := sortOrder; q_search := None; q_project := project;
     q_payment := None; q_startDate := None; q_endDate := None |}.

(** A record with every exported field, and the state that holds it. *)
Definition full_item : doc :=
  object [("name", VStr "A"); ("project", VStr "P"); ("method", VStr "M");
          ("content", VStr "C"); ("payment", VStr "paid"); ("contact", VStr "K");
          ("amountTWD", VNum (num_lit 100)); ("amountRMB", VNum (num_lit 25));
          ("localId", VStr "l1")].

Definition one_full_record : state :=
  (post_records Coercing 0 (submit [full_item] (Some (VStr "B1")) (Some (VStr "D1")))
     (new_state ServerLayout)).2.

(** A name that holds a double quote, a comma and a double quote. *)
Definition quote_comma_quote : string :=
  "a" +:+ String "034"%char ("," +:+ String "034"%char "b").

Definition one_quoted_name : state :=
  (post_records Coercing 0
     (submit [object [("name", VStr quote_comma_quote)]] (Some (VStr "B1")) (Some (VStr "D1")))
     (new_state ServerLayout)).2.

(** The stored record of [one_full_record]. *)
Definition full_record : doc := default ∅ (records one_full_record !! 0).

(** A name that holds one double quote. *)
Definition one_quote_name : state :=
  (post_records Coercing 0
     (submit [object [("name", VStr ("A" +:+ String "034"%char "B"))]]
        (Some (VStr "B1")) (Some (VStr "D1")))
     (new_state ServerLayout)).2.

(** ** A reader of comma separated values

    Modelled on RFC 4180, not on the source: fields are separated by commas
    and records by newlines; a field that starts with a double quote runs to
    the next double quote that is not doubled, and may hold commas, newlines
    and doubled double quotes; a double quote anywhere else, or a text that
    ends inside a quoted field, is malformed. *)

Inductive reader_mode := FieldStart | Bare | InQuotes | AfterQuote.

Fixpoint read_csv (text : string) (mode : reader_mode) (field : string)
    (fields : list string) (rows : list (list string)) : option (list (list string)) :=
  match text with
  | EmptyString =>
      match mode, fields with
      | InQuotes, _ => None
      | FieldStart, [] => Some rows
      | _, _ => Some (rows ++ [fields ++ [field]])%list
      end
  | String c rest =>
      match mode with
      | FieldStart =>
          if bool_decide (c = "034"%char) then read_csv rest InQuotes "" fields rows
          else if bool_decide (c = ","%char)
          then read_csv rest FieldStart "" (fields ++ [""])%list rows
          else if bool_decide (c = "010"%char)
          then read_csv rest FieldStart "" [] (rows ++ [fields ++ [""]])%list
          else read_csv rest Bare (String c "") fields rows
      | Bare =>
          if bool_decide (c = "034"%char) then None
          else if bool_decide (c = ","%char)
          then read_csv rest FieldStart "" (fields ++ [field])%list rows
          else if bool_decide (c = "010"%char)
          then read_csv rest FieldStart "" [] (rows ++ [fields ++ [field]])%list
          else read_csv rest Bare (field +:+ String c "") fields rows
      | InQuotes =>
          if bool_decide (c = "034"%char) then read_csv rest AfterQuote field fields rows
          else read_csv rest InQuotes (field +:+ String c "") fields rows
      | AfterQuote =>
          if bool_decide (c = "034"%char)
          then read_csv rest InQuotes (field +:+ String "034"%char "") fields rows
          else if bool_decide (c = ","%char)
          then read_csv rest FieldStart "" (fields ++ [field])%list rows
          else if bool_decide (c = "010"%char)
          then read_csv rest FieldStart "" [] (rows ++ [fields ++ [field]])%list
          else None
      end
  end.

(** The records of a file, read after its byte order mark. *)
Definition parse_csv (text : string) : option (list (list string)) :=
  match text with
  | String "239" (String "187" (String "191" rest)) => read_csv rest FieldStart "" [] []
  | _ => read_csv text FieldStart "" [] []
  end.

(** The number of columns of each record of the file of a response. *)
Definition column_counts (r : response) : option (list nat) :=
  match r with
  | CsvFile _ text => map length <$> parse_csv text
  | _ => None
  end.

(** What a response holds, for the statements about the samples. *)
Definition stats_of (r : response) : option group_stats :=
  match r with Listing _ _ st => Some st | _ => None end.

Definition pages_of (r : response) : option pagination :=
  match r with Listing _ pg _ => Some pg | _ => None end.

Definition names_of (r : response) : list (option jsval) :=
  match r with Listing data _ _ => map (.!! "name") data | _ => [] end.

Definition rows_of (r : response) : option nat :=
  match r with CsvFile n _ => Some n | _ => None end.

Definition parsed (r : response) : option (list (list string)) :=
  match r with CsvFile _ text => parse_csv text | _ => None end.

(** * Properties *)

Open Scope list_scope.

(** Closes a conjunction of equations between closed terms by evaluating
    their left-hand sides. *)
Ltac by_evaluation :=
  repeat split;
  lazymatch goal with
  | |- _ = ?b => vm_cast_no_check (@eq_refl _ b)
  end.

(** ** The bulk write *)

Section BulkWrite.
Context `{Runtime}.

(** [d] can be written next to [stored]: it collides on neither index. *)
Definition writable (o : index_options) (d : doc) (stored : list doc) : bool :=
  negb (conflicts id_index "_id" d stored) && negb (conflicts o "localId" d stored).

(** Every document of [pending] can be written, each one after those before it. *)
Fixpoint all_writable (o : index_options) (stored pending : list doc) : bool :=
  match pending with
  | [] => true
  | d :: rest => writable o d stored && all_writable o (stored ++ [d]) rest
  end.

Lemma bulk_write_all o pending : ∀ stored n,
  all_writable o stored pending = true →
  bulk_write o pending stored n = (stored ++ pending, inl (n + length pending)).
Proof.
  induction pending as [|d rest IH]; intros stored n Hw; simpl in *.
  - by rewrite app_nil_r, Nat.add_0_r.
  - apply andb_prop in Hw as [Hd Hrest]. apply andb_prop in Hd as [Hid Hloc].
    apply negb_true_iff in Hid, Hloc. rewrite Hid, Hloc.
    rewrite (IH _ _ Hrest), <- app_assoc. simpl. do 3 f_equal. lia.
Qed.

Lemma bulk_write_stops o before d after : ∀ stored n,
  all_writable o stored before = true →
  conflicts id_index "_id" d (stored ++ before) = false →
  conflicts o "localId" d (stored ++ before) = true →
  bulk_write o (before ++ d :: after) stored n
  = (stored ++ before, inr (E11000 "localId_1" (n + length before))).
Proof.
  induction before as [|b rest IH]; intros stored n Hw Hid Hloc; simpl in *.
  - rewrite app_nil_r in *. by rewrite Hid, Hloc, Nat.add_0_r.
  - apply andb_prop in Hw as [Hb Hrest]. apply andb_prop in Hb as [Hbid Hbloc].
    apply negb_true_iff in Hbid, Hbloc. rewrite Hbid, Hbloc.
    rewrite (IH (stored ++ [b]) (S n) Hrest); rewrite <- ?app_assoc; simpl; try done.
    do 3 f_equal. lia.
Qed.

(** What a bulk write that reports no error has done. *)
Lemma bulk_write_inl o pending : ∀ stored n stored' m,
  bulk_write o pending stored n = (stored', inl m) →
  stored' = stored ++ pending ∧ m = n + length pending ∧
  all_writable o stored pending = true.
Proof.
  induction pending as [|d rest IH]; intros stored n stored' m Hbw; simpl in *.
  - inversion Hbw; subst. by rewrite app_nil_r, Nat.add_0_r.
  - destruct (conflicts id_index "_id" d stored) eqn:Hid; [done|].
    destruct (conflicts o "localId" d stored) eqn:Hloc; [done|].
    apply IH in Hbw as (-> & -> & Hw). unfold writable.
    rewrite Hid, Hloc, Hw, <- app_assoc. simpl. repeat split; lia.
Qed.

Lemma assign_ids_length ds : ∀ k, length (assign_ids k ds).1 = length ds.
Proof.
  induction ds as [|d ds IH]; intros k; simpl; [done|].
  destruct (d !! "_id").
  - specialize (IH k). destruct (assign_ids k ds). simpl in *. by rewrite IH.
  - specialize (IH (S k)). destruct (assign_ids (S k) ds). simpl in *. by rewrite IH.
Qed.

Lemma recordsWithMetadata_length h now r k data :
  length (recordsWithMetadata h now r k data) = length data.
Proof. unfold recordsWithMetadata. by rewrite length_imap. Qed.

End BulkWrite.

(** ** Ingestion *)

Section Ingestion.
Context `{Runtime}.

(** The documents the driver sends for a request: the mapped items, each with
    an _id. *)
Definition sent (h : submit_handler) (now : Z) (r : submit_request) (s : state)
    (data : list doc) : list doc :=
  (assign_ids (oids s + length data) (recordsWithMetadata h now r (oids s) data)).1.

Lemma sent_length h now r s data : length (sent h now r s data) = length data.
Proof. unfold sent. by rewrite assign_ids_length, recordsWithMetadata_length. Qed.

(** The outcome of the handler in terms of the bulk write it starts. *)
Lemma post_records_unfold h now r s data :
  body_data r = Some data → data ≠ [] →
  post_records h now r s =
    let recs := recordsWithMetadata h now r (oids s) data in
    let ids := assign_ids (oids s + length data) recs in
    let bw := bulk_write (localId_index s) ids.1 (records s) 0 in
    let s' := set_oids ids.2 (set_records bw.1 (set_oids (oids s + length data) s)) in
    match bw.2 with
    | inl insertedCount =>
        (Submitted insertedCount (body_batchId r),
         insertOne_log
           (record_submit (body_batchId r) (length recs)
              (match h with Logging => Some insertedCount | _ => None end)
              (body_deviceId r) now (submit_ip r)) s')
    | inr e =>
        (Failure 500 (Thrown e),
         match h with
         | Logging => insertOne_log (record_submit_error e now (submit_ip r) (body_size r)) s'
         | _ => s'
         end)
    end.
Proof.
  intros Hdata Hne. unfold post_records, insertMany. rewrite Hdata.
  pose proof (recordsWithMetadata_length h now r (oids s) data) as Hlen.
  destruct (recordsWithMetadata h now r (oids s) data) as [|r0 rs] eqn:Hrecs.
  { destruct data; simpl in *; [done | lia]. }
  simpl oids. simpl localId_index. simpl records.
  destruct (assign_ids (oids s + length data) (r0 :: rs)) as [ids k] eqn:Hids.
  destruct (bulk_write (localId_index s) ids (records s) 0) as [stored [m|e]] eqn:Hbw;
    simpl; by rewrite ?Hbw.
Qed.

(** The handler on a batch that splits at its first colliding item. *)
Lemma post_records_stops_at_conflict h now r s data before after d :
  body_data r = Some data →
  sent h now r s data = before ++ d :: after →
  all_writable (localId_index s) (records s) before = true →
  conflicts id_index "_id" d (records s ++ before) = false →
  conflicts (localId_index s) "localId" d (records s ++ before) = true →
  ∃ s',
    post_records h now r s
    = (Failure 500 (Thrown (E11000 "localId_1" (length before))), s') ∧
    records s' = records s ++ before ∧
    logs s' = logs s ++
      match h with
      | Logging =>
          [record_submit_error (E11000 "localId_1" (length before)) now
             (submit_ip r) (body_size r)]
      | _ => []
      end.
Proof.
  intros Hdata Hsent Hw Hid Hloc.
  assert (data ≠ []) as Hne.
  { intros ->. pose proof (sent_length h now r s []) as Hl.
    rewrite Hsent, length_app in Hl. simpl in Hl. lia. }
  rewrite (post_records_unfold _ _ _ _ _ Hdata Hne). cbv zeta.
  unfold sent in Hsent. rewrite Hsent.
  rewrite (bulk_write_stops _ _ _ _ _ 0 Hw Hid Hloc). simpl.
  destruct h; eexists; (split; [reflexivity|]); simpl; by rewrite ?app_nil_r.
Qed.

(** C1, as amended: when item [k] of a batch is the first that cannot be
    written and it collides on the localId index, the handler answers 500
    with the duplicate key error at position [k]; the [k] items before it
    stay in the collection, item [k] and the items after it are not written,
    and no record_submit entry is logged (the Logging handler logs the
    error). *)
Theorem C1_bulk_insert_stops_at_conflict
    (h : submit_handler) (now : Z) (r : submit_request) (s : state)
    (data : list doc) (k : nat) :
  body_data r = Some data →
  k < length data →
  all_writable (localId_index s) (records s) (take k (sent h now r s data)) = true →
  conflicts id_index "_id" (default ∅ (sent h now r s data !! k))
    (records s ++ take k (sent h now r s data)) = false →
  conflicts (localId_index s) "localId" (default ∅ (sent h now r s data !! k))
    (records s ++ take k (sent h now r s data)) = true →
  ∃ s',
    post_records h now r s = (Failure 500 (Thrown (E11000 "localId_1" k)), s') ∧
    records s' = records s ++ take k (sent h now r s data) ∧
    logs s' = logs s ++
      match h with
      | Logging =>
          [record_submit_error (E11000 "localId_1" k) now (submit_ip r) (body_size r)]
      | _ => []
      end.
Proof.
  intros Hdata Hk Hw Hid Hloc.
  rewrite <- (sent_length h now r s data) in Hk.
  destruct (lookup_lt_is_Some_2 _ _ Hk) as [d Hd]. rewrite Hd in Hid, Hloc. simpl in *.
  destruct (post_records_stops_at_conflict h now r s data
              (take k (sent h now r s data)) (drop (S k) (sent h now r s data)) d)
    as (s' & Hpost & Hrec & Hlog); try done.
  { symmetry. by apply take_drop_middle. }
  rewrite length_take, Nat.min_l in Hpost, Hlog by lia. eauto.
Qed.

(** C9, as amended: a successful ingestion answers with the number of items
    and with the batchId of the request as it was supplied (none when the
    request had none), writes every item, and logs one record_submit entry
    with the count, the batchId and deviceId of the request as supplied, and
    the address of the caller. *)
Theorem C9_submit_response_and_log
    (h : submit_handler) (now : Z) (r : submit_request) (s : state)
    (n : nat) (b : option jsval) :
  (post_records h now r s).1 = Submitted n b →
  ∃ data,
    body_data r = Some data ∧
    n = length data ∧
    b = body_batchId r ∧
    records (post_records h now r s).2 = records s ++ sent h now r s data ∧
    logs (post_records h now r s).2 = logs s ++
      [record_submit (body_batchId r) (length data)
         (match h with Logging => Some (length data) | _ => None end)
         (body_deviceId r) now (submit_ip r)].
Proof.
  intros Hpost. destruct (body_data r) as [data|] eqn:Hdata.
  2: { unfold post_records in Hpost. by rewrite Hdata in Hpost. }
  exists data. split; [done|].
  destruct (decide (data = [])) as [->|Hne].
  { unfold post_records in Hpost. by rewrite Hdata in Hpost. }
  rewrite (post_records_unfold _ _ _ _ _ Hdata Hne) in Hpost |- *.
  cbv zeta in Hpost |- *. fold (sent h now r s data) in Hpost |- *.
  destruct (bulk_write (localId_index s) (sent h now r s data) (records s) 0)
    as [stored [m|e]] eqn:Hbw; simpl in Hpost; [|done].
  apply bulk_write_inl in Hbw as (-> & -> & _).
  rewrite sent_length, recordsWithMetadata_length in *.
  inversion Hpost; subst. simpl. by destruct h.
Qed.

(** A batch whose items can all be written is accepted. *)
Lemma post_records_accepts h now r s data :
  body_data r = Some data → data ≠ [] →
  all_writable (localId_index s) (records s) (sent h now r s data) = true →
  ∃ s', post_records h now r s = (Submitted (length data) (body_batchId r), s').
Proof.
  intros Hdata Hne Hw.
  rewrite (post_records_unfold _ _ _ _ _ Hdata Hne). cbv zeta.
  fold (sent h now r s data).
  rewrite (bulk_write_all _ _ _ 0 Hw). simpl. rewrite sent_length. eauto.
Qed.

End Ingestion.

(** ** Ingestion on the sample requests *)

(** C1 as stated fails: the second batch collides at its second item, the
    handler answers 500, and the first item of that batch has been written. *)
Lemma C1_partial_commit_counterexample :
  (post_records Logging 2000 second_batch after_first_batch).1
    = Failure 500 (Thrown (E11000 "localId_1" 1)) ∧
  length (records after_first_batch) = 1 ∧
  length (records (post_records Logging 2000 second_batch after_first_batch).2) = 2 ∧
  records (post_records Logging 2000 second_batch after_first_batch).2 !! 1 ≫= (.!! "localId")
    = Some (VStr "b").
Proof. by_evaluation. Qed.

(** The amended C1 on the second batch: its second item collides. *)
Lemma C1_witness :
  ∃ s',
    post_records Logging 2000 second_batch after_first_batch
    = (Failure 500 (Thrown (E11000 "localId_1" 1)), s') ∧
    records s' = records after_first_batch
                 ++ take 1 (sent Logging 2000 second_batch after_first_batch
                              (default [] (body_data second_batch))) ∧
    logs s' = logs after_first_batch ++
      [record_submit_error (E11000 "localId_1" 1) 2000
         (submit_ip second_batch) (body_size second_batch)].
Proof.
  apply (C1_bulk_insert_stops_at_conflict Logging 2000 second_batch after_first_batch
           (default [] (body_data second_batch)) 1).
  - reflexivity.
  - simpl. lia.
  - vm_compute. reflexivity.
  - vm_compute. reflexivity.
  - vm_compute. reflexivity.
Defined.

(** C9 as stated fails: a request without batchId is answered without one,
    while the stored record carries the default made from the clock. *)
Lemma C9_unresolved_batchId_counterexample :
  (post_records Logging 1000 anonymous_batch (new_state ServerLayout)).1
    = Submitted 1 None ∧
  records (post_records Logging 1000 anonymous_batch (new_state ServerLayout)).2 !! 0
    ≫= (.!! "batchId") = Some (VStr "batch_1000") ∧
  logs (post_records Logging 1000 anonymous_batch (new_state ServerLayout)).2
    = [record_submit None 1 (Some 1) None 1000 "10.0.0.1"].
Proof. by_evaluation. Qed.

(** The amended C9 on the first batch. *)
Lemma C9_witness :
  ∃ data,
    body_data first_batch = Some data ∧
    1 = length data ∧
    Some (VStr "B1") = body_batchId first_batch ∧
    records (post_records Logging 1000 first_batch (new_state ServerLayout)).2
      = records (new_state ServerLayout)
        ++ sent Logging 1000 first_batch (new_state ServerLayout) data ∧
    logs (post_records Logging 1000 first_batch (new_state ServerLayout)).2
      = logs (new_state ServerLayout) ++
        [record_submit (body_batchId first_batch) (length data) (Some (length data))
           (body_deviceId first_batch) 1000 (submit_ip first_batch)].
Proof.
  apply (C9_submit_response_and_log Logging 1000 first_batch
           (new_state ServerLayout) 1 (Some (VStr "B1"))).
  vm_compute. reflexivity.
Defined.

(** ** The index on localId *)

Section LocalIdIndex.
Context `{Runtime}.

(** No two documents of the collection carry the same localId. *)
Definition localId_unique (ds : list doc) : Prop :=
  ∀ i j d1 d2 v,
    ds !! i = Some d1 → ds !! j = Some d2 →
    d1 !! "localId" = Some v → d2 !! "localId" = Some v → i = j.

Lemma index_key_present o d v :
  d !! "localId" = Some v → index_key o "localId" d = Some v.
Proof. unfold index_key. by intros ->. Qed.

Lemma no_conflict_fresh o d stored v :
  unique o = true →
  conflicts o "localId" d stored = false →
  d !! "localId" = Some v →
  ∀ d', d' ∈ stored → d' !! "localId" ≠ Some v.
Proof.
  unfold conflicts. intros -> Hc Hv d' Hin Hv'. simpl in Hc.
  rewrite (index_key_present _ _ _ Hv) in Hc.
  apply not_true_iff_false in Hc. apply Hc, existsb_exists.
  exists d'. split; [by apply list_elem_of_In|].
  apply bool_decide_eq_true. by apply index_key_present.
Qed.

Lemma localId_unique_snoc o d stored :
  unique o = true →
  conflicts o "localId" d stored = false →
  localId_unique stored → localId_unique (stored ++ [d]).
Proof.
  intros Hu Hc Huniq i j d1 d2 v Hi Hj H1 H2.
  apply lookup_snoc_Some in Hi as [[Hi1 Hi2]|[Hi1 Hi2]];
  apply lookup_snoc_Some in Hj as [[Hj1 Hj2]|[Hj1 Hj2]]; subst.
  - eauto.
  - exfalso. apply (no_conflict_fresh o d2 stored v Hu Hc H2 d1); [|done].
    by eapply list_elem_of_lookup_2.
  - exfalso. apply (no_conflict_fresh o d1 stored v Hu Hc H1 d2); [|done].
    by eapply list_elem_of_lookup_2.
  - lia.
Qed.

(** A bulk write under a unique index keeps the localIds distinct, whether
    it ends in an error or not. *)
Lemma bulk_write_keeps_unique o pending : ∀ stored n,
  unique o = true → localId_unique stored →
  localId_unique (bulk_write o pending stored n).1.
Proof.
  induction pending as [|d rest IH]; intros stored n Hu Huniq; simpl; [done|].
  destruct (conflicts id_index "_id" d stored); [done|].
  destruct (conflicts o "localId" d stored) eqn:Hc; [done|].
  apply IH; [done|]. by eapply localId_unique_snoc.
Qed.

Lemma post_records_keeps_unique h now r s :
  unique (localId_index s) = true →
  localId_unique (records s) →
  localId_unique (records (post_records h now r s).2).
Proof.
  intros Hu Huniq. destruct (body_data r) as [data|] eqn:Hdata.
  2: { unfold post_records. by rewrite Hdata. }
  destruct (decide (data = [])) as [->|Hne].
  { unfold post_records. rewrite Hdata. simpl. by destruct h. }
  rewrite (post_records_unfold _ _ _ _ _ Hdata Hne). cbv zeta.
  pose proof (bulk_write_keeps_unique (localId_index s)
    (assign_ids (oids s + length data) (recordsWithMetadata h now r (oids s) data)).1
    (records s) 0 Hu Huniq) as Hbw.
  destruct (bulk_write _ _ _ _) as [stored [m|e]]; simpl in *; by destruct h.
Qed.

(** Under a sparse index a document without localId collides with nothing. *)
Lemma sparse_absent_never_conflicts o d stored :
  sparse o = true → d !! "localId" = None →
  conflicts o "localId" d stored = false.
Proof.
  intros Hs Hd. unfold conflicts, index_key. rewrite Hd, Hs. apply andb_false_r.
Qed.

(** Under an index that is unique and not sparse, a second document without
    localId collides with the first. *)
Lemma dense_absent_conflicts o d d' stored :
  unique o = true → sparse o = false →
  d !! "localId" = None → d' ∈ stored → d' !! "localId" = None →
  conflicts o "localId" d stored = true.
Proof.
  intros Hu Hs Hd Hin Hd'. unfold conflicts. rewrite Hu. simpl.
  unfold index_key at 1. rewrite Hd, Hs. apply existsb_exists.
  exists d'. split; [by apply list_elem_of_In|].
  apply bool_decide_eq_true. unfold index_key. by rewrite Hd', Hs.
Qed.

(** The handlers leave the localId of an item as it came. *)
Lemma with_metadata_localId h now r k item :
  with_metadata h now r k item !! "localId" = item !! "localId".
Proof.
  assert (∀ d, metadata now r k d !! "localId" = d !! "localId") as Hm.
  { intros d. unfold metadata. by rewrite !lookup_insert_ne. }
  assert (∀ f d, f ≠ "localId" → string_amount f d !! "localId" = d !! "localId") as Hs.
  { intros f d Hf. unfold string_amount.
    destruct (d !! f) as [[]|]; try done. by rewrite lookup_insert_ne. }
  destruct h; simpl.
  - apply Hm.
  - rewrite Hm. by rewrite !lookup_insert_ne.
  - rewrite !Hs by done. apply Hm.
Qed.

Lemma assign_ids_localId ds : ∀ k,
  Forall (λ d, d !! "localId" = None) ds →
  Forall (λ d, d !! "localId" = None) (assign_ids k ds).1.
Proof.
  induction ds as [|d ds IH]; intros k Hall; simpl; [done|].
  inversion Hall as [|? ? Hd Hds]; subst.
  destruct (d !! "_id").
  - specialize (IH k Hds). destruct (assign_ids k ds). simpl in *. by constructor.
  - specialize (IH (S k) Hds). destruct (assign_ids (S k) ds). simpl in *.
    constructor; [|done]. by rewrite lookup_insert_ne.
Qed.

Lemma bulk_write_sparse_error o pending : ∀ stored n stored' e,
  sparse o = true →
  Forall (λ d, d !! "localId" = None) pending →
  bulk_write o pending stored n = (stored', inr e) →
  ∃ k, e = E11000 "_id_" k.
Proof.
  induction pending as [|d rest IH]; intros stored n stored' e Hs Hall Hbw;
    simpl in *; [done|].
  inversion Hall as [|? ? Hd Hrest]; subst.
  destruct (conflicts id_index "_id" d stored).
  - inversion Hbw. eauto.
  - rewrite (sparse_absent_never_conflicts _ _ _ Hs Hd) in Hbw. eauto.
Qed.

(** The response reports a duplicate key of the index on localId. *)
Definition localId_conflict (r : response) : bool :=
  match r with
  | Failure _ (Thrown (E11000 index _)) => bool_decide (index = "localId_1")
  | _ => false
  end.

(** With the sparse index of src/server/database.js, a batch of items
    without localId never fails on the localId index, whatever the collection
    holds. *)
Lemma sparse_index_accepts_absent_localId h now r s data :
  sparse (localId_index s) = true →
  body_data r = Some data →
  Forall (λ d, d !! "localId" = None) data →
  localId_conflict (post_records h now r s).1 = false.
Proof.
  intros Hs Hdata Hall.
  destruct (decide (data = [])) as [->|Hne].
  { unfold post_records. rewrite Hdata. simpl. by destruct h. }
  rewrite (post_records_unfold _ _ _ _ _ Hdata Hne). cbv zeta.
  destruct (bulk_write _ _ _ _) as [stored [m|e]] eqn:Hbw; simpl; [done|].
  apply bulk_write_sparse_error in Hbw as [k' ->]; [done|done|].
  apply assign_ids_localId. unfold recordsWithMetadata.
  apply Forall_lookup. intros i d Hi.
  apply list_lookup_imap_Some in Hi as (item & Hitem & ->).
  rewrite with_metadata_localId.
  by apply (Forall_lookup_1 _ _ _ _ Hall Hitem).
Qed.

End LocalIdIndex.

(** C2: the index that createIndexes of src/database.js builds is unique but
    not sparse, so the second of two items without localId collides with the
    first; the index of src/server/database.js is sparse and takes both. *)
Lemma C2_root_index_collides_on_absent_localId :
  createIndexes RootLayout = {| unique := true; sparse := false |} ∧
  (post_records Plain 1000 no_localId_batch (new_state RootLayout)).1
    = Failure 500 (Thrown (E11000 "localId_1" 1)) ∧
  length (records (post_records Plain 1000 no_localId_batch (new_state RootLayout)).2) = 1 ∧
  (post_records Coercing 1000 no_localId_batch (new_state ServerLayout)).1
    = Submitted 2 (Some (VStr "B1")).
Proof. by_evaluation. Qed.

(** ** Amounts *)

Section Amounts.
Context `{Runtime}.

Lemma metadata_amount now r k item f :
  f = "amountTWD" ∨ f = "amountRMB" →
  metadata now r k item !! f = item !! f.
Proof. intros [-> | ->]; unfold metadata; by rewrite !lookup_insert_ne. Qed.

(** The handler of part_000 stores an amount as it came. *)
Lemma Plain_amount now r k item f :
  f = "amountTWD" ∨ f = "amountRMB" →
  with_metadata Plain now r k item !! f = item !! f.
Proof. apply metadata_amount. Qed.

(** The first handler of part_002 stores a number. *)
Lemma Coercing_amount now r k item f :
  f = "amountTWD" ∨ f = "amountRMB" →
  with_metadata Coercing now r k item !! f = Some (Number_or_0 (item !! f)).
Proof.
  intros Hf. simpl. rewrite metadata_amount by done.
  destruct Hf as [-> | ->].
  - by rewrite lookup_insert_ne, lookup_insert_eq.
  - by rewrite lookup_insert_eq.
Qed.

Lemma Number_or_0_missing : Number_or_0 None = VNum (num_lit 0).
Proof. unfold Number_or_0. simpl. by rewrite num_falsy_nan. Qed.

Lemma Number_or_0_string s :
  Number_or_0 (Some (VStr s))
  = VNum (if num_falsy (StringToNumber s) then num_lit 0 else StringToNumber s).
Proof. reflexivity. Qed.

(** The first handler of part_002 stores both amounts as numbers: the
    number a string denotes, and 0 for a missing field and for a string that
    denotes no number or zero. *)
Lemma Coercing_stores_numbers now r k item :
  with_metadata Coercing now r k item !! "amountTWD"
    = Some (Number_or_0 (item !! "amountTWD")) ∧
  with_metadata Coercing now r k item !! "amountRMB"
    = Some (Number_or_0 (item !! "amountRMB")) ∧
  Number_or_0 None = VNum (num_lit 0) ∧
  (∀ v, ∃ x, Number_or_0 v = VNum x) ∧
  (∀ s, Number_or_0 (Some (VStr s))
        = VNum (if num_falsy (StringToNumber s) then num_lit 0 else StringToNumber s)).
Proof.
  repeat split.
  - apply Coercing_amount. by left.
  - apply Coercing_amount. by right.
  - apply Number_or_0_missing.
  - intros v. unfold Number_or_0. eauto.
Qed.

(** The second handler of part_002 converts a string and nothing else: a
    missing amount stays missing. *)
Lemma Logging_amount now r k item f :
  f = "amountTWD" ∨ f = "amountRMB" →
  with_metadata Logging now r k item !! f =
    match item !! f with
    | Some (VStr s) => Some (parseFloat_or_0 s)
    | v => v
    end.
Proof.
  intros Hf. simpl.
  assert (∀ g d, string_amount g d !! g =
                 match d !! g with Some (VStr s) => Some (parseFloat_or_0 s) | v => v end)
    as Hsame.
  { intros g d. unfold string_amount.
    destruct (d !! g) as [[]|] eqn:Hg; try done. by rewrite lookup_insert_eq. }
  assert (∀ g g' d, g ≠ g' → string_amount g d !! g' = d !! g') as Hother.
  { intros g g' d Hne. unfold string_amount.
    destruct (d !! g) as [[]|]; try done. by rewrite lookup_insert_ne. }
  destruct Hf as [-> | ->].
  - rewrite Hother by done. rewrite Hsame. by rewrite metadata_amount by auto.
  - rewrite Hsame, Hother by done. by rewrite metadata_amount by auto.
Qed.

End Amounts.

(** C3: on an item without amountTWD the Logging handler stores a record
    without that field, and on a text amount the Plain handler stores the
    text; the Coercing handler stores the numbers 0 and 100 for the two. *)
Lemma C3_amounts_not_always_numbers :
  records (post_records Logging 1000 bare_batch (new_state ServerLayout)).2 !! 0
    ≫= (.!! "amountTWD") = None ∧
  records (post_records Plain 1000 anonymous_batch (new_state RootLayout)).2 !! 0
    ≫= (.!! "amountTWD") = Some (VStr "100") ∧
  records (post_records Coercing 1000 bare_batch (new_state ServerLayout)).2 !! 0
    ≫= (.!! "amountTWD") = Some (VNum (num_lit 0)) ∧
  records (post_records Coercing 1000 anonymous_batch (new_state ServerLayout)).2 !! 0
    ≫= (.!! "amountTWD") = Some (VNum (num_lit 100)).
Proof. by_evaluation. Qed.

(** ** Deletion *)

Section Deletion.
Context `{Runtime}.

(** C5: a request whose adminPassword is not the configured secret is
    answered 401 and leaves both collections as they were, whatever its
    target and its batchId. *)
Theorem C5_wrong_password_changes_nothing
    (ADMIN_PASSWORD : option string) (now : Z) (r : delete_request) (s : state) :
  del_adminPassword r ≠ Some (VStr (adminPassword ADMIN_PASSWORD)) →
  delete_records ADMIN_PASSWORD now r s = (Failure 401 (Message "未授权的操作"), s).
Proof.
  intros Hpw. unfold delete_records.
  destruct (strict_eq_string (del_adminPassword r) (adminPassword ADMIN_PASSWORD)) eqn:Heq;
    [|done].
  unfold strict_eq_string in Heq.
  destruct (del_adminPassword r) as [[]|]; try done.
  apply bool_decide_eq_true in Heq. by subst.
Qed.

(** The configured secret is never the empty string. *)
Lemma adminPassword_nonempty ADMIN_PASSWORD : adminPassword ADMIN_PASSWORD ≠ "".
Proof.
  unfold adminPassword. destruct ADMIN_PASSWORD as [s|]; [|done].
  by case_bool_decide.
Qed.

Lemma remove_first_none q ds :
  Forall (λ d, matches q d = false) ds → remove_first q ds = (ds, 0).
Proof.
  induction 1 as [|d ds Hd _ IH]; simpl; [done|]. by rewrite Hd, IH.
Qed.

(** The query of the single-record branch. *)
Definition by_any_id (oid id : string) : filter :=
  [Or [("_id", Eq (VOid oid)); ("localId", Eq (VStr id)); ("serverId", Eq (VStr id))]].

(** The single-record branch is the one taken. *)
Definition single_target (r : delete_request) : Prop :=
  param_id r ≠ "all" ∧ (param_id r ≠ "batch" ∨ truthy (del_batchId r) = false).

(** With a target that denotes an ObjectId and matches no record, the
    request succeeds with a count of zero and one log entry. *)
Lemma delete_absent_target ADMIN_PASSWORD now r s oid :
  del_adminPassword r = Some (VStr (adminPassword ADMIN_PASSWORD)) →
  single_target r →
  ObjectId_of_string (param_id r) = Some oid →
  forallb (λ d, negb (matches (by_any_id oid (param_id r)) d)) (records s) = true →
  delete_records ADMIN_PASSWORD now r s
  = (Deleted 0, insertOne_log (record_delete (param_id r) 0 now (del_ip r)) s).
Proof.
  intros Hpw [Hall Hbatch] Hoid Hnone.
  assert (Forall (λ d, matches (by_any_id oid (param_id r)) d = false) (records s))
    as Hnone'.
  { apply Forall_forall. intros d Hd%list_elem_of_In.
    rewrite forallb_forall in Hnone. by apply negb_true_iff, Hnone. }
  clear Hnone. rename Hnone' into Hnone. unfold delete_records.
  rewrite Hpw. simpl. rewrite bool_decide_eq_true_2 by done. simpl.
  assert (bool_decide (param_id r = "batch") && truthy (del_batchId r) = false) as ->.
  { destruct Hbatch as [Hb | ->]; [|apply andb_false_r].
    by rewrite bool_decide_eq_false_2. }
  rewrite (bool_decide_eq_false_2 _ Hall). simpl. rewrite Hoid.
  unfold deleteOne. simpl. fold (by_any_id oid (param_id r)).
  rewrite (remove_first_none _ _ Hnone). by destruct s.
Qed.

(** With a target that denotes no ObjectId, the constructor throws before
    the store is asked: the answer is 500, whatever the collection holds. *)
Lemma delete_malformed_target ADMIN_PASSWORD now r s :
  del_adminPassword r = Some (VStr (adminPassword ADMIN_PASSWORD)) →
  single_target r →
  ObjectId_of_string (param_id r) = None →
  delete_records ADMIN_PASSWORD now r s = (Failure 500 (Thrown BSONError), s).
Proof.
  intros Hpw [Hall Hbatch] Hoid. unfold delete_records.
  rewrite Hpw. simpl. rewrite bool_decide_eq_true_2 by done. simpl.
  assert (bool_decide (param_id r = "batch") && truthy (del_batchId r) = false) as ->.
  { destruct Hbatch as [Hb | ->]; [|apply andb_false_r].
    by rewrite bool_decide_eq_false_2. }
  rewrite (bool_decide_eq_false_2 _ Hall). simpl. by rewrite Hoid.
Qed.

End Deletion.

(** C5 on a request to delete everything with a wrong password. *)
Lemma C5_witness :
  delete_records None 3000 (delete_by "all" (Some (VStr "wrong"))) after_first_batch
  = (Failure 401 (Message "未授权的操作"), after_first_batch).
Proof.
  apply (C5_wrong_password_changes_nothing None 3000
           (delete_by "all" (Some (VStr "wrong"))) after_first_batch).
  vm_compute. intros Heq. discriminate Heq.
Defined.

(** C4: the target abc matches no record, the request carries the secret,
    and the answer is 500 with nothing logged; so is the answer for the
    localId of a stored record.  A target of 24 hexadecimal digits that
    matches nothing is answered with a count of zero. *)
Lemma C4_absent_target_answers_500 :
  delete_records None 3000 (delete_by "abc" (Some (VStr "admin123"))) after_first_batch
    = (Failure 500 (Thrown BSONError), after_first_batch) ∧
  delete_records None 3000 (delete_by "a" (Some (VStr "admin123"))) after_first_batch
    = (Failure 500 (Thrown BSONError), after_first_batch) ∧
  (delete_records None 3000
     (delete_by "ffffffffffffffffffffffff" (Some (VStr "admin123"))) after_first_batch).1
    = Deleted 0.
Proof.
  split; [|split].
  - apply delete_malformed_target; [reflexivity | | vm_compute; reflexivity].
    split; [discriminate | left; discriminate].
  - apply delete_malformed_target; [reflexivity | | vm_compute; reflexivity].
    split; [discriminate | left; discriminate].
  - vm_compute. reflexivity.
Qed.

(** ** The order of a sorted read *)

Section Sorting.
Context `{Runtime}.
Variable le : doc → doc → bool.

Lemma insert_by_permutation d sorted : insert_by le d sorted ≡ₚ d :: sorted.
Proof.
  induction sorted as [|x rest IH]; simpl; [done|].
  destruct (le d x); [done|]. rewrite IH. apply Permutation_swap.
Qed.

Lemma sort_permutation ds : fold_right (insert_by le) [] ds ≡ₚ ds.
Proof.
  induction ds as [|d ds IH]; simpl; [done|].
  by rewrite insert_by_permutation, IH.
Qed.

Hypothesis le_total : ∀ a b, le a b = false → le b a = true.

Lemma insert_by_HdRel d x sorted :
  le x d = true → HdRel (λ a b, le a b = true) x sorted →
  HdRel (λ a b, le a b = true) x (insert_by le d sorted).
Proof.
  intros Hxd Hhd. destruct sorted as [|y rest]; simpl.
  - by constructor.
  - destruct (le d y); constructor; [done|]. by inversion Hhd.
Qed.

Lemma insert_by_sorted d sorted :
  Sorted (λ a b, le a b = true) sorted →
  Sorted (λ a b, le a b = true) (insert_by le d sorted).
Proof.
  induction 1 as [|x rest Hrest IH Hhd]; simpl.
  - by repeat constructor.
  - destruct (le d x) eqn:Hdx.
    + constructor; [by constructor|]. by constructor.
    + constructor; [done|]. apply insert_by_HdRel; auto.
Qed.

Lemma sort_sorted ds : Sorted (λ a b, le a b = true) (fold_right (insert_by le) [] ds).
Proof.
  induction ds as [|d ds IH]; simpl; [constructor|]. by apply insert_by_sorted.
Qed.

End Sorting.

Section SortedReads.
Context `{Runtime}.

(** A sorted read returns the documents it was given. *)
Lemma sort_docs_permutation field dir ds : sort_docs field dir ds ≡ₚ ds.
Proof. apply sort_permutation. Qed.

(** When the order of the store on values is total, an ascending sort
    delivers each document before the documents of greater value, and a
    descending sort each document before those of smaller value. *)
Lemma sort_docs_ascending field ds :
  (∀ a b, bson_le a b = false → bson_le b a = true) →
  Sorted (λ a b, bson_le (a !! field) (b !! field) = true)
    (sort_docs field Ascending ds).
Proof. intros Htotal. apply (sort_sorted (field_le field Ascending)). simpl. auto. Qed.

Lemma sort_docs_descending field ds :
  (∀ a b, bson_le a b = false → bson_le b a = true) →
  Sorted (λ a b, bson_le (b !! field) (a !! field) = true)
    (sort_docs field Descending ds).
Proof. intros Htotal. apply (sort_sorted (field_le field Descending)). simpl. auto. Qed.

Lemma Sorted_drop {A} (R : A → A → Prop) (l : list A) : ∀ n,
  Sorted R l → Sorted R (drop n l).
Proof.
  induction l as [|x l IH]; intros [|n] Hl; simpl; try done.
  apply IH. by inversion Hl.
Qed.

Lemma Sorted_take {A} (R : A → A → Prop) (l : list A) : ∀ n,
  Sorted R l → Sorted R (take n l).
Proof.
  induction l as [|x l IH]; intros [|n] Hl; simpl; try constructor.
  - apply IH. by inversion Hl.
  - inversion Hl as [|? ? _ Hhd]; subst.
    destruct l as [|y l], n as [|n]; simpl; constructor. by inversion Hhd.
Qed.

(** The page of a sorted read is in the order of the sort. *)
Lemma find_sorted_ascending q field window s found :
  (∀ a b, bson_le a b = false → bson_le b a = true) →
  find_sorted q field Ascending window s = inl found →
  Sorted (λ a b, bson_le (a !! field) (b !! field) = true) found.
Proof.
  intros Htotal. unfold find_sorted. destruct (filter_ok q); [|done].
  pose proof (sort_docs_ascending field (List.filter (matches q) (records s)) Htotal)
    as Hsorted.
  destruct window as [[a b]|]; [|by intros [= <-]].
  destruct (cursor_window a b) as [[dropped [kept|]]|]; intros [= <-]; simpl.
  - by apply Sorted_take, Sorted_drop.
  - by apply Sorted_drop.
Qed.

End SortedReads.

(** ** Listing *)

Section ListingProperties.
Context `{Runtime}.

(** The filtered set of a query. *)
Definition matching (q : filter) (s : state) : list doc :=
  List.filter (matches q) (records s).

(** The number a document holds in a field, if it holds one there. *)
Definition number_in (field : string) (d : doc) : option num :=
  match d !! field with
  | Some (VNum x) => Some x
  | _ => None
  end.

(** The numbers the documents hold in a field, in the order of the
    documents.  A document that holds a text there, or null, or nothing,
    gives no number. *)
Definition numbers_of (field : string) (ds : list doc) : list num :=
  omap (number_in field) ds.

(** The arithmetic sum of a list of numbers: from 0, one added after the
    other. *)
Definition sum (xs : list num) : num := fold_left num_add xs (num_lit 0).

(** The sum of a field over a list of documents: the sum of the numbers
    they hold there. *)
Definition sum_of (field : string) (ds : list doc) : num :=
  sum (numbers_of field ds).

(** Every document holds a number in the field, as the data model has it
    for the two amounts. *)
Definition all_numbers (field : string) (ds : list doc) : bool :=
  forallb (λ d, match d !! field with Some (VNum _) => true | _ => false end) ds.

Lemma numbers_of_cons field d ds acc :
  fold_left num_add (numbers_of field (d :: ds)) acc
  = fold_left num_add (numbers_of field ds) (sum_step acc (d !! field)).
Proof.
  unfold numbers_of, number_in, sum_step. simpl.
  by destruct (d !! field) as [[]|].
Qed.

Lemma fold_sum_step field ds : ∀ acc,
  fold_left (λ acc d, sum_step acc (d !! field)) ds acc
  = fold_left num_add (numbers_of field ds) acc.
Proof.
  induction ds as [|d ds IH]; intros acc; [done|].
  rewrite numbers_of_cons. simpl. by rewrite IH.
Qed.

Lemma fold_group_step ds : ∀ g,
  fold_left group_step ds g
  = {| totalAmountTWD := fold_left num_add (numbers_of "amountTWD" ds) (totalAmountTWD g);
       totalAmountRMB := fold_left num_add (numbers_of "amountRMB" ds) (totalAmountRMB g);
       count := count g + length ds |}.
Proof.
  induction ds as [|d ds IH]; intros g.
  - simpl. rewrite Nat.add_0_r. by destruct g.
  - rewrite !numbers_of_cons. simpl. rewrite IH. simpl. f_equal. lia.
Qed.

(** When every document holds a number in the field, the numbers summed
    are the values of the field of all the documents, one for one. *)
Lemma numbers_of_all field ds :
  all_numbers field ds = true →
  Forall2 (λ x d, d !! field = Some (VNum x)) (numbers_of field ds) ds.
Proof.
  unfold all_numbers, numbers_of, number_in.
  induction ds as [|d ds IH]; simpl; [constructor|].
  intros [Hd Hds]%andb_prop.
  destruct (d !! field) as [[]|] eqn:Hfield; try done.
  simpl. constructor; [done | by apply IH].
Qed.

(** The group of the aggregation, whether or not a document matches. *)
Lemma aggregate_stats q s gs :
  aggregate q s = inl gs →
  match gs with g :: _ => g | [] => zero_stats end
  = {| totalAmountTWD := sum_of "amountTWD" (matching q s);
       totalAmountRMB := sum_of "amountRMB" (matching q s);
       count := length (matching q s) |}.
Proof.
  unfold aggregate, matching. destruct (filter_ok q); [|done].
  destruct (List.filter (matches q) (records s)) as [|d ds]; intros [= <-]; [done|].
  change (fold_left group_step ds (group_step zero_stats d))
    with (fold_left group_step (d :: ds) zero_stats).
  by rewrite fold_group_step.
Qed.

(** C6: in every listing the count of the stats is the totalCount of the
    pagination, both are the size of the filtered set, and the two amounts
    are the arithmetic sums of amountTWD and amountRMB over the whole
    filtered set, whatever page was asked for: the numbers the matching
    records hold in the field, added one after the other from 0.  When every
    matching record holds a number there, as the data model has it, these are
    the values of the field of all matching records, one for one; a record
    that holds a text there, or nothing, adds nothing.  With an empty
    filtered set the stats are zero, zero, zero. *)
Theorem C6_stats_over_filtered_set
    (p : list_query) (s : state) (data : list doc) (pg : pagination)
    (st : group_stats) :
  get_records p s = Listing data pg st →
  count st = totalCount pg ∧
  totalCount pg = length (matching (query p) s) ∧
  totalAmountTWD st = sum (numbers_of "amountTWD" (matching (query p) s)) ∧
  totalAmountRMB st = sum (numbers_of "amountRMB" (matching (query p) s)) ∧
  (all_numbers "amountTWD" (matching (query p) s) = true →
   Forall2 (λ x d, d !! "amountTWD" = Some (VNum x))
     (numbers_of "amountTWD" (matching (query p) s)) (matching (query p) s)) ∧
  (all_numbers "amountRMB" (matching (query p) s) = true →
   Forall2 (λ x d, d !! "amountRMB" = Some (VNum x))
     (numbers_of "amountRMB" (matching (query p) s)) (matching (query p) s)) ∧
  (matching (query p) s = [] → st = zero_stats).
Proof.
  unfold get_records. intros Hget.
  destruct (find_sorted _ _ _ _ _) as [found|e]; [|done].
  destruct (countDocuments (query p) s) as [total|e] eqn:Hcount; [|done].
  destruct (aggregate (query p) s) as [gs|e] eqn:Hagg; [|done].
  apply aggregate_stats in Hagg. injection Hget as <- <- <-. rewrite Hagg.
  unfold countDocuments in Hcount. destruct (filter_ok (query p)); [|done].
  injection Hcount as <-. fold (matching (query p) s).
  do 4 (split; [done|]).
  split; [apply numbers_of_all|]. split; [apply numbers_of_all|]. by intros ->.
Qed.

(** The listing answers whenever the store takes the query and the window. *)
Lemma get_records_answers p s :
  filter_ok (query p) = true →
  is_Some (cursor_window
             (num_mul (num_sub (parseInt (default (VNum (num_lit 1)) (q_page p)))
                               (num_lit 1))
                      (parseInt (default (VNum (num_lit 50)) (q_limit p))))
             (parseInt (default (VNum (num_lit 50)) (q_limit p)))) →
  ∃ data pg st, get_records p s = Listing data pg st.
Proof.
  intros Hok [[a b] Hw]. unfold get_records, find_sorted, countDocuments, aggregate.
  rewrite Hok, Hw. destruct (List.filter _ _); eauto.
Qed.

Definition with_sortOrder (v : option jsval) (p : list_query) : list_query :=
  {| q_page := q_page p; q_limit := q_limit p; q_sortBy := q_sortBy p;
     q_sortOrder := v; q_search := q_search p; q_project := q_project p;
     q_payment := q_payment p; q_startDate := q_startDate p;
     q_endDate := q_endDate p |}.

(** *** The order of a page *)

(** What C10 calls a request for descending order: no sortOrder at all, or
    the string desc. *)
Definition asks_descending (sortOrder : option jsval) : bool :=
  match sortOrder with
  | None => true
  | Some v => bool_decide (v = VStr "desc")
  end.

(** The order of two neighbours in a sorted read: descending, a record comes
    before the records of smaller or equal value; ascending, before those of
    greater or equal value. *)
Definition in_order (descending : bool) (field : string) (a b : doc) : Prop :=
  if descending then bson_le (b !! field) (a !! field) = true
  else bson_le (a !! field) (b !! field) = true.

(** The part of a list that skip and limit leave. *)
Definition window_of (dropped : nat) (kept : option nat) (l : list doc) : list doc :=
  match kept with
  | Some n => take n (drop dropped l)
  | None => drop dropped l
  end.

Lemma sort_direction_asks v :
  sort_direction v = if asks_descending v then Descending else Ascending.
Proof.
  unfold sort_direction, asks_descending, strict_eq_string.
  destruct v as [[| | |t| | |]|]; simpl; try done.
  destruct (bool_decide (t = "desc")) eqn:Ht.
  - apply bool_decide_eq_true in Ht. subst. by rewrite bool_decide_eq_true_2.
  - apply bool_decide_eq_false in Ht. rewrite bool_decide_eq_false_2; [done|].
    by intros [= ->].
Qed.

(** A sorted read with skip and limit is a window of the sorted filtered
    set. *)
Lemma find_sorted_is_window q field dir a b s found :
  find_sorted q field dir (Some (a, b)) s = inl found →
  ∃ dropped kept,
    cursor_window a b = Some (dropped, kept) ∧
    found = window_of dropped kept (sort_docs field dir (matching q s)).
Proof.
  unfold find_sorted, matching. destruct (filter_ok q); [|done].
  destruct (cursor_window a b) as [[dropped kept]|]; [|done].
  intros [= <-]. exists dropped, kept. split; [done|]. by destruct kept.
Qed.

Lemma sort_docs_in_order descending field ds :
  (∀ a b, bson_le a b = false → bson_le b a = true) →
  Sorted (in_order descending field)
    (sort_docs field (if descending then Descending else Ascending) ds).
Proof.
  intros Htotal. destruct descending; unfold in_order.
  - by apply sort_docs_descending.
  - by apply sort_docs_ascending.
Qed.

(** C10: the page of a listing is cut, by skip and limit, out of the whole
    filtered set put in order of the sortBy field, and that order is
    descending exactly when sortOrder is absent or is the string desc.  With
    any other value (DESC, Desc, any text, a value that is no text) the order
    is ascending and the answer is the one given to asc, not an error.  The
    filtered set in order is a rearrangement of the filtered set in which
    each record stands before its neighbour as the direction asks (the order
    of the store on values being total). *)
Theorem C10_descending_only_for_desc
    (p : list_query) (s : state) (data : list doc) (pg : pagination)
    (st : group_stats) :
  (∀ a b, bson_le a b = false → bson_le b a = true) →
  get_records p s = Listing data pg st →
  (∃ sorted dropped kept,
     sorted ≡ₚ matching (query p) s ∧
     Sorted (in_order (asks_descending (q_sortOrder p))
               (to_string (default (VStr "submittedAt") (q_sortBy p)))) sorted ∧
     cursor_window
       (num_mul (num_sub (parseInt (default (VNum (num_lit 1)) (q_page p))) (num_lit 1))
                (parseInt (default (VNum (num_lit 50)) (q_limit p))))
       (parseInt (default (VNum (num_lit 50)) (q_limit p)))
     = Some (dropped, kept) ∧
     data = window_of dropped kept sorted) ∧
  (asks_descending (q_sortOrder p) = false →
   get_records p s = get_records (with_sortOrder (Some (VStr "asc")) p) s).
Proof.
  intros Htotal Hget. split.
  - unfold get_records in Hget. rewrite sort_direction_asks in Hget.
    destruct (find_sorted _ _ _ _ _) as [found|e] eqn:Hfind; [|done].
    destruct (countDocuments _ _); [|done]. destruct (aggregate _ _); [|done].
    injection Hget as <- _ _.
    apply find_sorted_is_window in Hfind as (dropped & kept & Hwindow & ->).
    eexists _, dropped, kept. split; [apply sort_docs_permutation|].
    split; [by apply sort_docs_in_order|]. done.
  - intros Hasc. unfold get_records. rewrite !sort_direction_asks, Hasc. done.
Qed.

End ListingProperties.

(** ** Listing on the sample records *)

(** C6 on the listing of project X in pages of one record. *)
Lemma C6_witness :
  ∃ data pg st,
    get_records (list_by (Some (VStr "X")) (Some (VStr "1")) None) three_records
    = Listing data pg st ∧
    count st = totalCount pg ∧
    totalCount pg
    = length (matching (query (list_by (Some (VStr "X")) (Some (VStr "1")) None))
                three_records) ∧
    totalAmountTWD st
    = sum (numbers_of "amountTWD"
             (matching (query (list_by (Some (VStr "X")) (Some (VStr "1")) None))
                three_records)) ∧
    totalAmountRMB st
    = sum (numbers_of "amountRMB"
             (matching (query (list_by (Some (VStr "X")) (Some (VStr "1")) None))
                three_records)).
Proof.
  destruct (get_records_answers (list_by (Some (VStr "X")) (Some (VStr "1")) None)
              three_records) as (data & pg & st & Hget).
  - vm_compute. reflexivity.
  - vm_compute. eauto.
  - exists data, pg, st. split; [exact Hget|].
    destruct (C6_stats_over_filtered_set _ _ _ _ _ Hget)
      as (Hcount & Htotal & Htwd & Hrmb & _).
    repeat split; assumption.
Defined.

(** Two of the three records are of project X: a page of one record comes
    with the count and the sums of both. *)
Example listing_of_project_X :
  length (names_of (get_records (list_by (Some (VStr "X")) (Some (VStr "1")) None)
                      three_records)) = 1 ∧
  pages_of (get_records (list_by (Some (VStr "X")) (Some (VStr "1")) None) three_records)
    = Some {| pg_page := num_lit 1; pg_limit := num_lit 1; totalCount := 2;
              totalPages := num_lit 2 |} ∧
  stats_of (get_records (list_by (Some (VStr "X")) (Some (VStr "1")) None) three_records)
    = Some {| totalAmountTWD := num_lit 150; totalAmountRMB := num_lit 37; count := 2 |}.
Proof. by_evaluation. Qed.

(** No record is of project Z: the stats are the default. *)
Example listing_of_project_Z :
  names_of (get_records (list_by (Some (VStr "Z")) None None) three_records) = [] ∧
  stats_of (get_records (list_by (Some (VStr "Z")) None None) three_records)
    = Some zero_stats.
Proof. by_evaluation. Qed.

(** The same two records as the handler of part_000 stores them, one with
    its amounts as texts: the text amounts add nothing to the sums. *)
Example text_amounts_add_nothing :
  stats_of (get_records (list_by (Some (VStr "X")) None None)
              (post_records Plain 1000 three_items (new_state ServerLayout)).2)
    = Some {| totalAmountTWD := num_lit 100; totalAmountRMB := num_lit 25; count := 2 |}.
Proof. by_evaluation. Qed.

(** C10 on the three records with sortOrder DESC: the page is cut out of
    the records in ascending order of name. *)
Lemma C10_witness :
  ∃ data pg st,
    get_records (list_by None None (Some (VStr "DESC"))) three_records
    = Listing data pg st ∧
    (∃ sorted dropped kept,
       sorted ≡ₚ matching (query (list_by None None (Some (VStr "DESC")))) three_records ∧
       Sorted (in_order false "name") sorted ∧
       cursor_window (num_lit 0) (num_lit 50) = Some (dropped, kept) ∧
       data = window_of dropped kept sorted) ∧
    get_records (list_by None None (Some (VStr "DESC"))) three_records
    = get_records (with_sortOrder (Some (VStr "asc")) (list_by None None (Some (VStr "DESC"))))
        three_records.
Proof.
  destruct (get_records_answers (list_by None None (Some (VStr "DESC"))) three_records)
    as (data & pg & st & Hget).
  - reflexivity.
  - vm_compute. eauto.
  - exists data, pg, st. split; [exact Hget|].
    destruct (C10_descending_only_for_desc (list_by None None (Some (VStr "DESC")))
                three_records data pg st) as [Hpage Hasc].
    + exact int_bson_le_total.
    + exact Hget.
    + split; [exact Hpage | apply Hasc; reflexivity].
Defined.

Example sortOrder_values :
  sort_direction None = Descending ∧
  sort_direction (Some (VStr "desc")) = Descending ∧
  sort_direction (Some (VStr "DESC")) = Ascending ∧
  sort_direction (Some (VStr "Desc")) = Ascending ∧
  sort_direction (Some (VStr "")) = Ascending ∧
  sort_direction (Some (VComposite "[1]")) = Ascending ∧
  names_of (get_records (list_by None None None) three_records)
    = [Some (VStr "C"); Some (VStr "B"); Some (VStr "A")] ∧
  names_of (get_records (list_by None None (Some (VStr "DESC"))) three_records)
    = [Some (VStr "A"); Some (VStr "B"); Some (VStr "C")].
Proof. by_evaluation. Qed.

(** ** Export *)

Section ExportProperties.
Context `{Runtime}.

(** *** The lines of the file, column by column *)

(** A field that holds a text, or is absent. *)
Definition text_or_absent (v : option jsval) : bool :=
  match v with
  | None | Some (VStr _) => true
  | _ => false
  end.

Definition number_or_absent (v : option jsval) : bool :=
  match v with
  | None | Some (VNum _) => true
  | _ => false
  end.

(** A date that toISOString can print, or absent. *)
Definition date_or_absent (v : option jsval) : bool :=
  match v with
  | None => true
  | Some (VDate t) => bool_decide (is_Some (toISOString (VDate t)))
  | _ => false
  end.

(** A record as the data model describes it: texts, numbers and a date. *)
Definition exportable (item : doc) : bool :=
  forallb (λ f, text_or_absent (item !! f))
    ["name"; "project"; "method"; "content"; "payment"; "contact";
     "deviceId"; "batchId"; "localId"]
  && number_or_absent (item !! "amountTWD")
  && number_or_absent (item !! "amountRMB")
  && date_or_absent (item !! "submittedAt").

(** The text of a field, empty when the field is absent. *)
Definition text_of (item : doc) (f : string) : string :=
  match item !! f with
  | Some (VStr s) => s
  | _ => ""
  end.

(** Every double quote doubled. *)
Definition double_quotes (s : string) : string :=
  replace_char dquote (String dquote (String dquote "")) s.

(** amountTWD as it is, 0 when it is absent, zero or NaN. *)
Definition amountTWD_column (item : doc) : string :=
  match item !! "amountTWD" with
  | Some (VNum x) => if num_falsy x then num_to_string (num_lit 0) else num_to_string x
  | _ => num_to_string (num_lit 0)
  end.

(** amountRMB with two decimals, 0 when it is absent, zero or NaN. *)
Definition amountRMB_column (item : doc) : string :=
  match item !! "amountRMB" with
  | Some (VNum x) => if num_falsy x then num_to_string (num_lit 0) else num_toFixed2 x
  | _ => num_to_string (num_lit 0)
  end.

Definition submittedAt_column (item : doc) : string :=
  match item !! "submittedAt" with
  | Some (VDate t) => default "" (toISOString (VDate t))
  | _ => ""
  end.

(** The thirteen columns of a line, in the order of the header. *)
Definition columns (seq : nat) (item : doc) : list string :=
  [ num_to_string (num_lit (Z.of_nat seq));
    quoted (text_of item "name");
    quoted (text_of item "project");
    quoted (replace_char newline "; " (double_quotes (text_of item "method")));
    amountTWD_column item;
    amountRMB_column item;
    quoted (double_quotes (text_of item "content"));
    quoted (text_of item "payment");
    quoted (text_of item "contact");
    submittedAt_column item;
    quoted (text_of item "deviceId");
    quoted (text_of item "batchId");
    quoted (text_of item "localId") ].

(** The order in which C7 lists the columns: content, payment status and
    contact before the two amounts. *)
Definition columns_as_stated (seq : nat) (item : doc) : list string :=
  [ num_to_string (num_lit (Z.of_nat seq));
    quoted (text_of item "name");
    quoted (text_of item "project");
    quoted (replace_char newline "; " (double_quotes (text_of item "method")));
    quoted (double_quotes (text_of item "content"));
    quoted (text_of item "payment");
    quoted (text_of item "contact");
    amountTWD_column item;
    amountRMB_column item;
    submittedAt_column item;
    quoted (text_of item "deviceId");
    quoted (text_of item "batchId");
    quoted (text_of item "localId") ].

Definition line (seq : nat) (item : doc) : string :=
  String.concat "," (columns seq item) +:+ String newline "".

(** The lines of the records, numbered from [seq]. *)
Fixpoint lines (seq : nat) (items : list doc) : string :=
  match items with
  | [] => ""
  | item :: rest => line seq item +:+ lines (S seq) rest
  end.

Definition document (items : list doc) : string :=
  BOM +:+ String.concat "," headers +:+ String newline "" +:+ lines 1 items.

(** *** The handler writes these lines *)

Lemma append_assoc (a b c : string) : (a +:+ b) +:+ c = a +:+ b +:+ c.
Proof.
  induction a as [|x a IH]; [done|].
  change (String x ((a +:+ b) +:+ c) = String x (a +:+ b +:+ c)). by f_equal.
Qed.

Lemma append_nil_r (a : string) : a +:+ "" = a.
Proof.
  induction a as [|x a IH]; [done|].
  change (String x (a +:+ "") = String x a). by f_equal.
Qed.

Lemma quoted_field_text item f :
  text_or_absent (item !! f) = true →
  quoted_field (item !! f) = quoted (text_of item f).
Proof.
  unfold quoted_field, text_of, or_else. destruct (item !! f) as [[]|]; try done.
  intros _. simpl. by case_bool_decide; subst.
Qed.

Lemma replace_receiver_text item f :
  text_or_absent (item !! f) = true →
  replace_receiver (item !! f) = inl (text_of item f).
Proof.
  unfold replace_receiver, text_of, or_else. destruct (item !! f) as [[]|]; try done.
  intros _. simpl. by case_bool_decide; subst.
Qed.

Lemma amountTWD_number item :
  number_or_absent (item !! "amountTWD") = true →
  to_string (or_else (item !! "amountTWD") (VNum (num_lit 0))) = amountTWD_column item.
Proof.
  unfold amountTWD_column, or_else. destruct (item !! "amountTWD") as [[]|]; try done.
  intros _. simpl. by destruct (num_falsy x).
Qed.

Lemma amountRMB_number item :
  number_or_absent (item !! "amountRMB") = true →
  amountRMB_field (item !! "amountRMB") = inl (amountRMB_column item).
Proof.
  unfold amountRMB_column, amountRMB_field.
  destruct (item !! "amountRMB") as [[]|]; try done.
  intros _. simpl. by destruct (num_falsy x).
Qed.

Lemma submittedAt_date item :
  date_or_absent (item !! "submittedAt") = true →
  submittedAt_field (item !! "submittedAt") = inl (submittedAt_column item).
Proof.
  unfold submittedAt_column, submittedAt_field.
  destruct (item !! "submittedAt") as [[]|]; try done.
  simpl. intros [iso Hiso]%bool_decide_eq_true. by rewrite Hiso.
Qed.

Lemma row_exportable index item :
  exportable item = true → row index item = inl (columns (S index) item).
Proof.
  unfold exportable. simpl. rewrite !andb_true_iff.
  intros [[[(Hname & Hproject & Hmethod & Hcontent & Hpayment & Hcontact &
                Hdevice & Hbatch & Hlocal & _) Htwd] Hrmb] Hdate].
  unfold row.
  rewrite (replace_receiver_text _ _ Hmethod), (replace_receiver_text _ _ Hcontent),
    (amountRMB_number _ Hrmb), (submittedAt_date _ Hdate), (amountTWD_number _ Htwd),
    !quoted_field_text by done.
  by rewrite Nat.add_1_r.
Qed.

Lemma forEach_row_exportable items : ∀ index acc,
  forallb exportable items = true →
  forEach_row index items acc = inl (acc +:+ lines (S index) items).
Proof.
  induction items as [|item rest IH]; intros index acc Hall; simpl in *.
  - by rewrite append_nil_r.
  - apply andb_prop in Hall as [Hitem Hrest].
    rewrite (row_exportable _ _ Hitem), (IH _ _ Hrest).
    unfold line. by rewrite append_assoc.
Qed.

Lemma insert_by_forallb (p : doc → bool) le d sorted :
  p d = true → forallb p sorted = true → forallb p (insert_by le d sorted) = true.
Proof.
  intros Hd. induction sorted as [|x rest IH]; simpl; intros Hall.
  - by rewrite Hd.
  - apply andb_prop in Hall as [Hx Hrest].
    destruct (le d x); simpl; rewrite ?Hd, ?Hx, ?Hrest; simpl; auto.
Qed.

Lemma sort_docs_forallb (p : doc → bool) field dir ds :
  forallb p ds = true → forallb p (sort_docs field dir ds) = true.
Proof.
  unfold sort_docs. induction ds as [|d ds IH]; simpl; [done|].
  intros [Hd Hds]%andb_prop. apply insert_by_forallb; auto.
Qed.

Lemma insert_by_length le d sorted : length (insert_by le d sorted) = S (length sorted).
Proof.
  induction sorted as [|x rest IH]; simpl; [done|]. destruct (le d x); simpl; auto.
Qed.

Lemma sort_docs_length field dir ds : length (sort_docs field dir ds) = length ds.
Proof.
  unfold sort_docs. induction ds as [|d ds IH]; simpl; [done|].
  by rewrite insert_by_length, IH.
Qed.

Lemma filter_all_docs (ds : list doc) : List.filter (matches []) ds = ds.
Proof. induction ds as [|d ds IH]; simpl; [done|]. by rewrite IH. Qed.

(** C7, as amended: on records that hold texts, numbers and a date, the
    export answers with the byte order mark, the header line, and one line
    per record in descending order of submittedAt; a line holds, in this
    order, the sequence number counted from 1, name, project, method (double
    quotes doubled, newlines replaced), amountTWD, amountRMB (two decimals),
    content (double quotes doubled), payment status, contact, submittedAt,
    deviceId, batchId and localId, separated by commas. *)
Theorem C7_export_lines (s : state) :
  forallb exportable (records s) = true →
  export_csv s
  = CsvFile (length (records s))
      (document (sort_docs "submittedAt" Descending (records s))).
Proof.
  intros Hall. unfold export_csv, find_sorted. simpl. rewrite filter_all_docs.
  unfold csvContent.
  rewrite forEach_row_exportable by by apply sort_docs_forallb.
  rewrite sort_docs_length. unfold document. by rewrite !append_assoc.
Qed.

(** Every row of the handler has thirteen elements. *)
Lemma row_length index item fields : row index item = inl fields → length fields = 13.
Proof.
  unfold row. intros Hrow.
  destruct (replace_receiver (item !! "method")); [|done].
  destruct (amountRMB_field (item !! "amountRMB")); [|done].
  destruct (replace_receiver (item !! "content")); [|done].
  destruct (submittedAt_field (item !! "submittedAt")); [|done].
  by injection Hrow as <-.
Qed.

Lemma forEach_row_prefix items : ∀ index acc text,
  forEach_row index items acc = inl text → ∃ rest, text = acc +:+ rest.
Proof.
  induction items as [|item rest IH]; intros index acc text Hrows; simpl in *.
  - injection Hrows as <-. exists "". by rewrite append_nil_r.
  - destruct (row index item) as [fields|]; [|done].
    apply IH in Hrows as [tail ->]. rewrite append_assoc. eauto.
Qed.

(** Whatever the records hold, a file that is sent starts with the byte
    order mark and the header line. *)
Lemma csvContent_starts_with_header items text :
  csvContent items = inl text →
  ∃ rest, text = BOM +:+ String.concat "," headers +:+ String newline "" +:+ rest.
Proof.
  unfold csvContent. intros [rest ->]%forEach_row_prefix.
  exists rest. by rewrite !append_assoc.
Qed.

(** A file that is sent starts with the byte order mark and the header
    line, and its row count is the number of records. *)
Lemma export_starts_with_header s n text :
  export_csv s = CsvFile n text →
  n = length (records s) ∧
  ∃ rest, text = BOM +:+ String.concat "," headers +:+ String newline "" +:+ rest.
Proof.
  unfold export_csv, find_sorted. simpl. rewrite filter_all_docs.
  destruct (csvContent _) as [t|e] eqn:Hcsv; [|done].
  intros [= <- <-]. rewrite sort_docs_length. split; [done|].
  by eapply csvContent_starts_with_header.
Qed.

End ExportProperties.

(** ** Export on the sample records *)

(** C7 as stated fails: the fifth and sixth elements of a row are the two
    amounts, and content, payment status and contact come after them. *)
Lemma C7_column_order_counterexample :
  row 0 full_record
    = inl ["1"; quoted "A"; quoted "P"; quoted "M"; "100"; "25.00"; quoted "C";
           quoted "paid"; quoted "K"; "1970-01-01T00:00:00.000Z";
           quoted "D1"; quoted "B1"; quoted "l1"] ∧
  columns_as_stated 1 full_record
    = ["1"; quoted "A"; quoted "P"; quoted "M"; quoted "C"; quoted "paid";
       quoted "K"; "100"; "25.00"; "1970-01-01T00:00:00.000Z";
       quoted "D1"; quoted "B1"; quoted "l1"] ∧
  bool_decide (row 0 full_record = inl (columns_as_stated 1 full_record)) = false.
Proof. by_evaluation. Qed.

(** The amended C7 on the state that holds the full record. *)
Lemma C7_witness :
  export_csv one_full_record
  = CsvFile (length (records one_full_record))
      (document (sort_docs "submittedAt" Descending (records one_full_record))).
Proof.
  apply (C7_export_lines one_full_record). vm_compute. reflexivity.
Defined.

(** The file of the full record reads back as a header and a record of
    thirteen columns each, with the texts of the record. *)
Example export_reads_back :
  rows_of (export_csv one_full_record) = Some 1 ∧
  parsed (export_csv one_full_record)
    = Some [headers;
            ["1"; "A"; "P"; "M"; "100"; "25.00"; "C"; "paid"; "K";
             "1970-01-01T00:00:00.000Z"; "D1"; "B1"; "l1"]].
Proof. by_evaluation. Qed.

(** C8: the name is written between double quotes as it is.  With the name
    a, double quote, comma, double quote, b the record reads back with
    fourteen columns; with the name A, double quote, B the file is
    malformed.  The header has thirteen columns in both. *)
Lemma C8_quote_in_name_breaks_the_columns :
  column_counts (export_csv one_quoted_name) = Some [13; 14] ∧
  column_counts (export_csv one_quote_name) = None ∧
  column_counts (export_csv (new_state ServerLayout)) = Some [13].
Proof. by_evaluation. Qed.

(** ** Further statements on the sample records *)

(** A target of 24 hexadecimal digits that no record carries. *)
Lemma delete_absent_target_witness :
  delete_records None 3000
    (delete_by "ffffffffffffffffffffffff" (Some (VStr "admin123"))) after_first_batch
  = (Deleted 0,
     insertOne_log (record_delete "ffffffffffffffffffffffff" 0 3000 "10.0.0.1")
       after_first_batch).
Proof.
  apply (delete_absent_target None 3000
           (delete_by "ffffffffffffffffffffffff" (Some (VStr "admin123")))
           after_first_batch "ffffffffffffffffffffffff").
  - reflexivity.
  - split; [discriminate | left; discriminate].
  - by_evaluation.
  - by_evaluation.
Defined.

(** The file of the full record starts with the mark and the header. *)
Lemma export_starts_with_header_witness :
  1 = length (records one_full_record) ∧
  ∃ rest,
    document (sort_docs "submittedAt" Descending (records one_full_record))
    = BOM +:+ String.concat "," headers +:+ String newline "" +:+ rest.
Proof.
  apply (export_starts_with_header one_full_record 1
           (document (sort_docs "submittedAt" Descending (records one_full_record)))).
  by_evaluation.
Defined.

(** Two items without localId under the sparse index. *)
Lemma sparse_index_accepts_absent_localId_witness :
  localId_conflict
    (post_records Coercing 1000 no_localId_batch (new_state ServerLayout)).1 = false.
Proof.
  apply (sparse_index_accepts_absent_localId Coercing 1000 no_localId_batch
           (new_state ServerLayout)
           [object [("name", VStr "A")]; object [("name", VStr "B")]]).
  - reflexivity.
  - reflexivity.
  - repeat constructor.
Defined.

(** * Further properties of the handlers *)

(** ** The three modes of DELETE /api/records/:id *)

Section DeletionModes.
Context `{Runtime}.



Lemma filter_ext_docs (f g : doc → bool) l :
  (∀ d, f d = g d) → List.filter f l = List.filter g l.
Proof. intros Hfg. induction l as [|d l IH]; simpl; [done|]. by rewrite Hfg, IH. Qed.


(** The outcome of all mode. *)
Lemma delete_all_result ADMIN_PASSWORD now r s :
  del_adminPassword r = Some (VStr (adminPassword ADMIN_PASSWORD)) →
  param_id r = "all" →
  delete_records ADMIN_PASSWORD now r s
  = (Deleted (length (records s)),
     insertOne_log (record_delete "all" (length (records s)) now (del_ip r))
       (set_records [] s)).
Proof.
  intros Hpw Hid.
  assert (truthy (Some (VStr (adminPassword ADMIN_PASSWORD))) = true) as Htruthy.
  { simpl. apply negb_true_iff, bool_decide_eq_false_2, adminPassword_nonempty. }
  unfold delete_records.
  rewrite Hpw, Hid, Htruthy. simpl strict_eq_string.
  rewrite bool_decide_eq_true_2 by done.
  simpl negb. cbv iota. change (bool_decide ("all" = "batch")) with false.
  change (bool_decide ("all" = "all")) with true.
  simpl andb. cbv iota. unfold deleteMany. simpl filter_ok. cbv iota.
  rewrite filter_all_docs.
  assert (List.filter (λ d, negb (matches [] d)) (records s) = []) as ->; [|done].
  induction (records s) as [|d l IH]; simpl; auto.
Qed.

Lemma remove_first_found q before d after :
  Forall (λ x, matches q x = false) before → matches q d = true →
  remove_first q (before ++ d :: after) = (before ++ after, 1).
Proof.
  intros Hbefore Hd. induction Hbefore as [|x l Hx _ IH]; simpl.
  - by rewrite Hd.
  - by rewrite Hx, IH.
Qed.

(** Single mode: the first record in natural order that carries the target
    as _id, localId or serverId is deleted, and only that one, even when
    later records match too. *)
Lemma delete_single_first_match ADMIN_PASSWORD now r s oid before d after :
  del_adminPassword r = Some (VStr (adminPassword ADMIN_PASSWORD)) →
  single_target r →
  ObjectId_of_string (param_id r) = Some oid →
  records s = before ++ d :: after →
  forallb (λ x, negb (matches (by_any_id oid (param_id r)) x)) before = true →
  matches (by_any_id oid (param_id r)) d = true →
  delete_records ADMIN_PASSWORD now r s
  = (Deleted 1,
     insertOne_log (record_delete (param_id r) 1 now (del_ip r))
       (set_records (before ++ after) s)).
Proof.
  intros Hpw [Hall Hbatch] Hoid Hrec Hbefore Hd.
  assert (Forall (λ x, matches (by_any_id oid (param_id r)) x = false) before) as Hb.
  { apply Forall_forall. intros x Hx%list_elem_of_In.
    rewrite forallb_forall in Hbefore. by apply negb_true_iff, Hbefore. }
  unfold delete_records.
  rewrite Hpw. simpl strict_eq_string. rewrite bool_decide_eq_true_2 by done.
  simpl negb. cbv iota.
  assert (bool_decide (param_id r = "batch") && truthy (del_batchId r) = false) as ->.
  { destruct Hbatch as [Hne | ->]; [|apply andb_false_r].
    by rewrite bool_decide_eq_false_2. }
  rewrite (bool_decide_eq_false_2 _ Hall). simpl andb. cbv iota. rewrite Hoid.
  unfold deleteOne. simpl filter_ok. cbv iota. fold (by_any_id oid (param_id r)).
  by rewrite Hrec, (remove_first_found _ _ _ _ Hb Hd).
Qed.

(** *** What a deletion never does *)

Lemma filterb_sublist (f : doc → bool) l : List.filter f l `sublist_of` l.
Proof.
  induction l as [|d l IH]; simpl; [constructor|].
  destruct (f d); by constructor.
Qed.

Lemma remove_first_sublist q l : (remove_first q l).1 `sublist_of` l.
Proof.
  induction l as [|d l IH]; simpl; [constructor|].
  destruct (matches q d); simpl.
  - by constructor.
  - destruct (remove_first q l). simpl in *. by constructor.
Qed.

Lemma remove_first_count q l : ((remove_first q l).2 ≤ 1)%nat.
Proof.
  induction l as [|d l IH]; simpl; [lia|].
  destruct (matches q d); simpl; [lia|]. by destruct (remove_first q l).
Qed.

(** Whatever the request, a deletion adds no record, reorders none, leaves
    the index and the ObjectId counter alone, and logs at most one entry,
    which is a record_delete. *)
Lemma delete_records_only_removes ADMIN_PASSWORD now r s :
  records (delete_records ADMIN_PASSWORD now r s).2 `sublist_of` records s ∧
  localId_index (delete_records ADMIN_PASSWORD now r s).2 = localId_index s ∧
  oids (delete_records ADMIN_PASSWORD now r s).2 = oids s ∧
  (logs (delete_records ADMIN_PASSWORD now r s).2 = logs s ∨
   ∃ n, logs (delete_records ADMIN_PASSWORD now r s).2
        = logs s ++ [record_delete (param_id r) n now (del_ip r)]).
Proof.
  unfold delete_records.
  destruct (negb _); [simpl; eauto|].
  destruct (_ && _).
  { unfold deleteMany. simpl. split; [apply filterb_sublist|]. eauto. }
  destruct (_ && _).
  { unfold deleteMany. simpl. split; [apply filterb_sublist|]. eauto. }
  destruct (ObjectId_of_string _) as [oid|]; [|simpl; eauto].
  unfold deleteOne.
  pose proof (remove_first_sublist
    [Or [("_id", Eq (VOid oid)); ("localId", Eq (VStr (param_id r)));
         ("serverId", Eq (VStr (param_id r)))]] (records s)) as Hsub.
  destruct (filter_ok _); [|simpl; eauto].
  destruct (remove_first _ _) as [l n]. simpl in *.
  do 3 (split; [done|]). right. eauto.
Qed.

(** *** What a deletion reports *)



(** The handler with the outcome of logs().insertOne given.  The call is
    awaited inside the try block and after the deletion: when the store
    rejects it, the catch answers 500 and the deletion stays.
    [delete_records] is the handler when the entry is written. *)
Definition delete_records_logging (logged : bool) (ADMIN_PASSWORD : option string)
    (now : Z) (r : delete_request) (s : state) : response * state :=
  if negb (strict_eq_string (del_adminPassword r) (adminPassword ADMIN_PASSWORD))
  then (Failure 401 (Message "未授权的操作"), s)
  else
    let id := param_id r in
    let result :=
      if bool_decide (id = "batch") && truthy (del_batchId r) then
        deleteMany [Field "batchId" (Eq (default VNull (del_batchId r)))] s
      else if bool_decide (id = "all") && truthy (del_adminPassword r) then
        deleteMany [] s
      else
        match ObjectId_of_string id with
        | None => (s, inr BSONError)
        | Some oid =>
            deleteOne [Or [("_id", Eq (VOid oid));
                           ("localId", Eq (VStr id));
                           ("serverId", Eq (VStr id))]] s
        end in
    match result with
    | (s', inl n) =>
        if logged
        then (Deleted n, insertOne_log (record_delete id n now (del_ip r)) s')
        else (Failure 500 (Thrown StoreRejected), s')
    | (s', inr e) => (Failure 500 (Thrown e), s')
    end.

Lemma delete_records_logged ADMIN_PASSWORD now r s :
  delete_records_logging true ADMIN_PASSWORD now r s
  = delete_records ADMIN_PASSWORD now r s.
Proof.
  unfold delete_records_logging, delete_records.
  destruct (negb _); [done|]. cbv zeta.
  match goal with
  | |- match ?result with _ => _ end = _ => by destruct result as [s' [n|e]]
  end.
Qed.



End DeletionModes.

(** ** What ingestion writes, and what it leaves alone *)

Section IngestionEffects.
Context `{Runtime}.

(** The records after a request, in terms of the bulk write it starts. *)
Lemma post_records_records h now r s :
  records (post_records h now r s).2 =
    match body_data r with
    | Some data =>
        match data with
        | [] => records s
        | _ => (bulk_write (localId_index s) (sent h now r s data) (records s) 0).1
        end
    | None => records s
    end.
Proof.
  destruct (body_data r) as [data|] eqn:Hdata.
  2: { unfold post_records. by rewrite Hdata. }
  destruct data as [|d0 data'] eqn:Hd.
  { unfold post_records. rewrite Hdata. simpl. by destruct h. }
  rewrite <- Hd in *. assert (data ≠ []) as Hne by (by subst).
  rewrite (post_records_unfold _ _ _ _ _ Hdata Hne). cbv zeta.
  fold (sent h now r s data).
  destruct (bulk_write _ _ _ _) as [stored [m|e]]; simpl; by destruct h.
Qed.

Lemma post_records_index h now r s :
  localId_index (post_records h now r s).2 = localId_index s.
Proof.
  unfold post_records. destruct (body_data r) as [data|]; [|done].
  unfold insertMany. destruct (recordsWithMetadata _ _ _ _ _) as [|r0 rs].
  { simpl. by destruct h. }
  destruct (assign_ids _ _) as [ids k].
  destruct (bulk_write _ _ _ _) as [stored [m|e]]; simpl; by destruct h.
Qed.

(** A bulk write keeps what was stored and appends a prefix of the batch. *)
Lemma bulk_write_appends o pending : ∀ stored n,
  ∃ k, (bulk_write o pending stored n).1 = stored ++ take k pending.
Proof.
  induction pending as [|d rest IH]; intros stored n; simpl.
  - exists 0. by rewrite app_nil_r.
  - destruct (conflicts id_index "_id" d stored).
    { exists 0. by rewrite app_nil_r. }
    destruct (conflicts o "localId" d stored).
    { exists 0. by rewrite app_nil_r. }
    destruct (IH (stored ++ [d]) (S n)) as [k Hk]. exists (S k).
    rewrite Hk, <- app_assoc. done.
Qed.

Lemma post_records_appends h now r s :
  ∃ k, records (post_records h now r s).2
       = records s ++ take k (sent h now r s (default [] (body_data r))).
Proof.
  rewrite post_records_records. destruct (body_data r) as [[|d0 data]|]; simpl.
  - exists 0. by rewrite app_nil_r.
  - apply bulk_write_appends.
  - exists 0. by rewrite take_0, app_nil_r.
Qed.

(** *** The fields of a written record *)

(** The fields the handlers write themselves. *)
Definition stamped : list string :=
  ["batchId"; "deviceId"; "submittedAt"; "createdAt"; "updatedAt"; "syncStatus";
   "serverId"].

Lemma metadata_other now r k item f :
  f ∉ stamped → metadata now r k item !! f = item !! f.
Proof.
  intros Hf. unfold metadata.
  rewrite !lookup_insert_ne; [done|..]; intros <-; apply Hf; unfold stamped;
    set_solver.
Qed.

Lemma string_amount_other g f d :
  g ≠ f → string_amount g d !! f = d !! f.
Proof.
  intros Hne. unfold string_amount.
  destruct (d !! g) as [[]|]; try done. by rewrite lookup_insert_ne.
Qed.

Lemma with_metadata_other h now r k item f :
  f ∉ stamped → f ≠ "amountTWD" → f ≠ "amountRMB" →
  with_metadata h now r k item !! f = item !! f.
Proof.
  intros Hf Htwd Hrmb. destruct h; simpl.
  - by apply metadata_other.
  - rewrite metadata_other by done. by rewrite !lookup_insert_ne.
  - rewrite !string_amount_other by done. by apply metadata_other.
Qed.

Lemma with_metadata_stamped h now r k item :
  with_metadata h now r k item !! "batchId"
    = Some (or_else (body_batchId r) (VStr ("batch_" +:+ num_to_string (num_lit now)))) ∧
  with_metadata h now r k item !! "deviceId"
    = Some (or_else (body_deviceId r) (VStr "unknown")) ∧
  with_metadata h now r k item !! "submittedAt" = Some (VDate now) ∧
  with_metadata h now r k item !! "createdAt" = Some (VDate now) ∧
  with_metadata h now r k item !! "updatedAt" = Some (VDate now) ∧
  with_metadata h now r k item !! "syncStatus" = Some (VStr "synced") ∧
  with_metadata h now r k item !! "serverId" = Some (VStr (ObjectId_fresh k)).
Proof.
  assert (∀ d,
    metadata now r k d !! "batchId"
      = Some (or_else (body_batchId r) (VStr ("batch_" +:+ num_to_string (num_lit now)))) ∧
    metadata now r k d !! "deviceId"
      = Some (or_else (body_deviceId r) (VStr "unknown")) ∧
    metadata now r k d !! "submittedAt" = Some (VDate now) ∧
    metadata now r k d !! "createdAt" = Some (VDate now) ∧
    metadata now r k d !! "updatedAt" = Some (VDate now) ∧
    metadata now r k d !! "syncStatus" = Some (VStr "synced") ∧
    metadata now r k d !! "serverId" = Some (VStr (ObjectId_fresh k))) as Hm.
  { intros d. unfold metadata.
    repeat split; repeat (rewrite lookup_insert_ne by done); by rewrite lookup_insert_eq. }
  destruct h; simpl; [apply Hm | apply Hm |].
  rewrite !string_amount_other by done. apply Hm.
Qed.

(** The driver adds an _id and changes no other field. *)
Lemma assign_ids_fields ds : ∀ k i d',
  (assign_ids k ds).1 !! i = Some d' →
  ∃ d, ds !! i = Some d ∧ is_Some (d' !! "_id") ∧
       ∀ f, f ≠ "_id" → d' !! f = d !! f.
Proof.
  induction ds as [|d ds IH]; intros k i d' Hi; simpl in *; [done|].
  destruct (d !! "_id") as [v|] eqn:Hid.
  - specialize (IH k). destruct (assign_ids k ds) as [rs k']. simpl in *.
    destruct i as [|i]; simpl in *.
    + injection Hi as <-. exists d. rewrite Hid. eauto.
    + eauto.
  - specialize (IH (S k)). destruct (assign_ids (S k) ds) as [rs k']. simpl in *.
    destruct i as [|i]; simpl in *.
    + injection Hi as <-. exists d. rewrite lookup_insert_eq.
      repeat split; eauto. intros f Hf. by rewrite lookup_insert_ne.
    + eauto.
Qed.

Lemma sent_lookup h now r s data i d' :
  sent h now r s data !! i = Some d' →
  ∃ item, data !! i = Some item ∧ is_Some (d' !! "_id") ∧
          ∀ f, f ≠ "_id" → d' !! f = with_metadata h now r (oids s + i) item !! f.
Proof.
  unfold sent. intros (d & Hd & Hid & Hf)%assign_ids_fields.
  unfold recordsWithMetadata in Hd.
  apply list_lookup_imap_Some in Hd as (item & Hitem & ->). eauto.
Qed.

(** Every record an ingestion writes carries the metadata of the request
    and the server, whatever the item said about those fields, and every
    other field of the item but the two amounts as the item had it. *)
Theorem written_records_carry_metadata
    (h : submit_handler) (now : Z) (r : submit_request) (s : state)
    (data : list doc) (i : nat) (d : doc) :
  sent h now r s data !! i = Some d →
  ∃ item,
    data !! i = Some item ∧
    d !! "batchId"
      = Some (or_else (body_batchId r) (VStr ("batch_" +:+ num_to_string (num_lit now)))) ∧
    d !! "deviceId" = Some (or_else (body_deviceId r) (VStr "unknown")) ∧
    d !! "submittedAt" = Some (VDate now) ∧
    d !! "createdAt" = Some (VDate now) ∧
    d !! "updatedAt" = Some (VDate now) ∧
    d !! "syncStatus" = Some (VStr "synced") ∧
    d !! "serverId" = Some (VStr (ObjectId_fresh (oids s + i))) ∧
    is_Some (d !! "_id") ∧
    ∀ f, f ∉ stamped → f ≠ "amountTWD" → f ≠ "amountRMB" → f ≠ "_id" →
         d !! f = item !! f.
Proof.
  intros (item & Hitem & Hid & Hf)%sent_lookup. exists item.
  destruct (with_metadata_stamped h now r (oids s + i) item)
    as (Hb & Hdev & Hsub & Hcre & Hupd & Hsync & Hsrv).
  rewrite !Hf by done. repeat split; try done.
  intros f Hst Htwd Hrmb Hne. rewrite Hf by done. by apply with_metadata_other.
Qed.

(** Whatever the request and its outcome, ingestion leaves the stored
    records as they are and in place: the collection afterwards is the old
    one followed by a prefix of the batch, and the index is unchanged. *)
Theorem ingestion_only_appends
    (h : submit_handler) (now : Z) (r : submit_request) (s : state) :
  (∃ k, records (post_records h now r s).2
        = records s ++ take k (sent h now r s (default [] (body_data r)))) ∧
  localId_index (post_records h now r s).2 = localId_index s.
Proof. split; [apply post_records_appends | apply post_records_index]. Qed.

End IngestionEffects.

(** ** Sequences of requests *)

Section Sequences.
Context `{Runtime}.

(** A request to one of the four routes that read or write the records. *)
Inductive request :=
  | Submit (h : submit_handler) (now : Z) (r : submit_request)
  | Remove (ADMIN_PASSWORD : option string) (now : Z) (r : delete_request)
  | Browse (p : list_query)
  | Export.

Definition serve (q : request) (s : state) : response * state :=
  match q with
  | Submit h now r => post_records h now r s
  | Remove env now r => delete_records env now r s
  | Browse p => (get_records p s, s)
  | Export => (export_csv s, s)
  end.

(** The state after a sequence of requests, served one after the other. *)
Definition serve_all (qs : list request) (s : state) : state :=
  fold_left (λ s q, (serve q s).2) qs s.

Lemma localId_unique_cons x l :
  localId_unique (x :: l) ↔
  (∀ v d, x !! "localId" = Some v → d ∈ l → d !! "localId" ≠ Some v) ∧
  localId_unique l.
Proof.
  split.
  - intros Hu. split.
    + intros v d Hx [j Hj]%list_elem_of_lookup Hd.
      by specialize (Hu 0 (S j) x d v eq_refl Hj Hx Hd).
    + intros i j d1 d2 v Hi Hj H1 H2.
      by specialize (Hu (S i) (S j) d1 d2 v Hi Hj H1 H2) as [= ->].
  - intros [Hx Hl] [|i] [|j] d1 d2 v Hi Hj H1 H2; simpl in *.
    + done.
    + injection Hi as <-. exfalso.
      apply (Hx v d2 H1); [by eapply list_elem_of_lookup_2 | done].
    + injection Hj as <-. exfalso.
      apply (Hx v d1 H2); [by eapply list_elem_of_lookup_2 | done].
    + f_equal. eauto.
Qed.

Lemma localId_unique_sublist l1 l2 :
  l1 `sublist_of` l2 → localId_unique l2 → localId_unique l1.
Proof.
  induction 1 as [|x l1 l2 Hsub IH|x l1 l2 Hsub IH]; intros Hu.
  - done.
  - apply localId_unique_cons in Hu as [Hx Hl]. apply localId_unique_cons.
    split; [|auto]. intros v d Hv Hd. apply Hx; [done|].
    by apply (sublist_subseteq _ _ Hsub).
  - apply localId_unique_cons in Hu as [_ Hl]. auto.
Qed.

(** The localIds of the records, in their order. *)
Definition localIds (ds : list doc) : list jsval := omap (λ d, d !! "localId") ds.

Lemma localIds_NoDup ds : NoDup (localIds ds) → localId_unique ds.
Proof.
  unfold localIds. induction ds as [|x l IH]; intros Hnodup.
  - intros i j d1 d2 v Hi. by rewrite lookup_nil in Hi.
  - apply localId_unique_cons. simpl in Hnodup.
    destruct (x !! "localId") as [w|] eqn:Hx.
    + apply NoDup_cons in Hnodup as [Hfresh Hrest]. split; [|by apply IH].
      intros v d [= <-] Hd Hv. apply Hfresh.
      apply list_elem_of_omap. eauto.
    + split; [done | by apply IH].
Qed.

Lemma serve_keeps_index q s : localId_index (serve q s).2 = localId_index s.
Proof.
  destruct q; simpl; try done.
  - apply post_records_index.
  - apply delete_records_only_removes.
Qed.

Lemma serve_keeps_unique q s :
  unique (localId_index s) = true →
  localId_unique (records s) → localId_unique (records (serve q s).2).
Proof.
  intros Hu Huniq. destruct q; simpl; try done.
  - rewrite post_records_records.
    destruct (body_data r) as [[|d0 data]|]; try done.
    by apply bulk_write_keeps_unique.
  - eapply localId_unique_sublist; [|done]. apply delete_records_only_removes.
Qed.

(** However many requests are served and whatever they are, a collection
    that starts with distinct localIds under a unique index keeps them
    distinct: no two stored records ever carry the same localId. *)
Theorem localIds_stay_distinct (qs : list request) (s : state) :
  unique (localId_index s) = true →
  localId_unique (records s) →
  localId_unique (records (serve_all qs s)).
Proof.
  unfold serve_all. revert s.
  induction qs as [|q qs IH]; intros s Hu Huniq; simpl; [done|].
  apply IH; [by rewrite serve_keeps_index | by apply serve_keeps_unique].
Qed.

(** *** Ingestion undone by a batch deletion *)





(** *** Batches that are accepted *)

(** A batch that is not empty and none of whose items collides, with the
    collection or with an earlier item of the batch, is accepted: the answer
    counts the items, and the collection grows by exactly that many records. *)
Theorem clean_batch_is_accepted
    (h : submit_handler) (now : Z) (r : submit_request) (s : state) (data : list doc) :
  body_data r = Some data → data ≠ [] →
  all_writable (localId_index s) (records s) (sent h now r s data) = true →
  (post_records h now r s).1 = Submitted (length data) (body_batchId r) ∧
  length (records (post_records h now r s).2) = length (records s) + length data.
Proof.
  intros Hdata Hne Hw.
  rewrite post_records_records, Hdata.
  rewrite (post_records_unfold _ _ _ _ _ Hdata Hne). cbv zeta.
  fold (sent h now r s data).
  rewrite (bulk_write_all _ _ _ 0 Hw). simpl. rewrite sent_length.
  destruct data; [done|]. simpl. split; [done|].
  rewrite length_app, sent_length. done.
Qed.

End Sequences.

(** ** Amounts under the handler that coerces them *)

Section CoercedAmounts.
Context `{Runtime}.

(** The value is a number, and if it is falsy (NaN or a zero) it is the
    literal 0 of the handler. *)
Definition proper_number (v : option jsval) : bool :=
  match v with
  | Some (VNum x) => negb (num_falsy x) || bool_decide (x = num_lit 0)
  | _ => false
  end.

(** Both amounts of the record are such numbers. *)
Definition numeric_amounts (d : doc) : bool :=
  proper_number (d !! "amountTWD") && proper_number (d !! "amountRMB").

(** The request is not a submission to one of the handlers that keep an
    amount as it came. *)
Definition coerces (q : request) : bool :=
  match q with
  | Submit Coercing _ _ => true
  | Submit _ _ _ => false
  | _ => true
  end.

Lemma Number_or_0_proper v : proper_number (Some (Number_or_0 v)) = true.
Proof.
  unfold Number_or_0, proper_number.
  destruct (num_falsy (ToNumber v)) eqn:Hfalsy.
  - rewrite bool_decide_eq_true_2 by done. apply orb_true_r.
  - by rewrite Hfalsy.
Qed.

Lemma sent_numeric_amounts now r s data :
  Forall (λ d, numeric_amounts d = true) (sent Coercing now r s data).
Proof.
  apply Forall_lookup. intros i d (item & _ & _ & Hf)%sent_lookup.
  unfold numeric_amounts. rewrite !Hf by done.
  rewrite !Coercing_amount by auto. by rewrite !Number_or_0_proper.
Qed.

Lemma forallb_sublist (f : doc → bool) l1 l2 :
  l1 `sublist_of` l2 → forallb f l2 = true → forallb f l1 = true.
Proof.
  intros Hsub. rewrite !forallb_forall. intros Hall d Hd%list_elem_of_In.
  apply Hall, list_elem_of_In. by apply (sublist_subseteq _ _ Hsub).
Qed.

Lemma serve_keeps_numeric q s :
  coerces q = true →
  forallb numeric_amounts (records s) = true →
  forallb numeric_amounts (records (serve q s).2) = true.
Proof.
  intros Hq Hs. destruct q as [h now r|env now r|p|]; simpl; try done.
  - destruct h; try done.
    destruct (post_records_appends Coercing now r s) as [k ->].
    rewrite forallb_app, Hs. simpl. apply forallb_forall.
    intros d Hd%list_elem_of_In.
    pose proof (sent_numeric_amounts now r s (default [] (body_data r))) as Hsent.
    rewrite Forall_forall in Hsent. apply Hsent. by apply (subseteq_take k).
  - eapply forallb_sublist; [|done]. apply delete_records_only_removes.
Qed.

(** When every submission is handled by the first handler of part_002, the
    one the router runs, a collection whose records carry both amounts as
    numbers keeps that property through any sequence of requests, whatever
    the items say (a text, nothing, an object): every record ever stored
    carries both amounts as numbers, never NaN nor a zero other than the
    literal 0.  On this path the records are as the data model has them, and
    nothing is left out of the sums of the listing and of the statistics. *)
Theorem Coercing_keeps_amounts_numeric (qs : list request) (s : state) :
  forallb coerces qs = true →
  forallb numeric_amounts (records s) = true →
  forallb numeric_amounts (records (serve_all qs s)) = true ∧
  all_numbers "amountTWD" (records (serve_all qs s)) = true ∧
  all_numbers "amountRMB" (records (serve_all qs s)) = true.
Proof.
  intros Hqs Hstart.
  assert (forallb numeric_amounts (records (serve_all qs s)) = true) as Hall.
  { unfold serve_all. revert s Hstart.
    induction qs as [|q qs IH]; intros s Hs; simpl in *; [done|].
    apply andb_prop in Hqs as [Hq Hqs]. apply IH; [done|]. by apply serve_keeps_numeric. }
  split; [done|]. unfold all_numbers.
  split; apply forallb_forall; intros d Hd; rewrite forallb_forall in Hall;
    specialize (Hall d Hd); unfold numeric_amounts, proper_number in Hall;
    apply andb_prop in Hall as [Htwd Hrmb].
  - by destruct (d !! "amountTWD") as [[]|].
  - by destruct (d !! "amountRMB") as [[]|].
Qed.

End CoercedAmounts.

(** ** The filters of the listing *)

Section ListingFilters.
Context `{Runtime}.

(** A filter parameter that is absent or falsy, as the empty string is. *)
Definition blank (v : option jsval) : bool :=
  negb (truthy (Some (default (VStr "") v))).

(** The request filters on nothing. *)
Definition unfiltered (p : list_query) : bool :=
  blank (q_search p) && blank (q_project p) && blank (q_payment p)
  && blank (q_startDate p) && blank (q_endDate p).

Lemma query_unfiltered p : unfiltered p = true → query p = [].
Proof.
  unfold unfiltered, blank. rewrite !andb_true_iff, !negb_true_iff.
  intros [[[[Hs Hp] Hy] Hsd] Hed]. unfold query. by rewrite Hs, Hp, Hy, Hsd, Hed.
Qed.

(** A listing whose filter parameters are all absent or empty counts every
    record: an empty parameter filters on nothing, it does not ask for an
    empty value. *)
Theorem blank_filters_match_everything
    (p : list_query) (s : state) (data : list doc) (pg : pagination)
    (st : group_stats) :
  unfiltered p = true →
  get_records p s = Listing data pg st →
  totalCount pg = length (records s) ∧
  count st = length (records s) ∧
  totalAmountTWD st = sum_of "amountTWD" (records s) ∧
  totalAmountRMB st = sum_of "amountRMB" (records s).
Proof.
  intros Hq%query_unfiltered. unfold get_records. rewrite Hq.
  destruct (find_sorted _ _ _ _ _) as [found|e]; [|done].
  destruct (countDocuments [] s) as [total|e] eqn:Hcount; [|done].
  destruct (aggregate [] s) as [gs|e] eqn:Hagg; [|done].
  apply aggregate_stats in Hagg. intros [= <- <- <-]. rewrite Hagg.
  unfold countDocuments in Hcount. simpl in Hcount. injection Hcount as <-.
  unfold matching. by rewrite filter_all_docs.
Qed.

Lemma filterb_elem (f : doc → bool) l d : d ∈ List.filter f l ↔ d ∈ l ∧ f d = true.
Proof. rewrite !list_elem_of_In. apply filter_In. Qed.

Lemma filterb_length (f : doc → bool) l : (length (List.filter f l) ≤ length l)%nat.
Proof. apply sublist_length, filterb_sublist. Qed.

(** What find().sort().skip().limit() delivers is taken from the sorted
    filtered set. *)
Lemma find_sorted_window q field dir window s found :
  find_sorted q field dir window s = inl found →
  found `sublist_of` sort_docs field dir (matching q s).
Proof.
  unfold find_sorted, matching. destruct (filter_ok q); [|done].
  destruct window as [[a b]|]; [|by intros [= <-]].
  destruct (cursor_window a b) as [[dropped [kept|]]|]; intros [= <-]; simpl.
  - etrans; [apply sublist_take | apply sublist_drop].
  - apply sublist_drop.
Qed.

(** Every record of a page is a stored record that passes the filters of
    the request, no record comes twice more often than it is stored, and the
    page is never longer than totalCount. *)
Theorem page_is_part_of_filtered_set
    (p : list_query) (s : state) (data : list doc) (pg : pagination)
    (st : group_stats) :
  get_records p s = Listing data pg st →
  (∀ d, d ∈ data → d ∈ records s ∧ matches (query p) d = true) ∧
  data ⊆+ matching (query p) s ∧
  (length data ≤ totalCount pg)%nat.
Proof.
  unfold get_records.
  destruct (find_sorted _ _ _ _ _) as [found|e] eqn:Hfind; [|done].
  destruct (countDocuments (query p) s) as [total|e] eqn:Hcount; [|done].
  destruct (aggregate (query p) s) as [gs|e]; [|done].
  intros [= <- <- _]. apply find_sorted_window in Hfind.
  assert (found ⊆+ matching (query p) s) as Hsub.
  { etrans; [by apply sublist_submseteq|].
    apply Permutation_submseteq, sort_docs_permutation. }
  split; [|split; [done|]].
  - intros d Hd. apply filterb_elem. by apply (elem_of_submseteq _ _ _ Hd Hsub).
  - unfold countDocuments in Hcount. destruct (filter_ok _); [|done].
    injection Hcount as <-. simpl. by apply submseteq_length in Hsub.
Qed.




End ListingFilters.

(** ** When the export fails *)

Section ExportFailures.
Context `{Runtime}.

(** A value the method [replace] can be called on after [|| '']: a text, or
    anything falsy. *)
Definition falsy_or_text (v : option jsval) : bool :=
  negb (truthy v) || match v with Some (VStr _) => true | _ => false end.

(** A value [toFixed] is called on only if it is a number. *)
Definition falsy_or_number (v : option jsval) : bool :=
  negb (truthy v) || match v with Some (VNum _) => true | _ => false end.

(** A value that is not printed, or that [new Date(v).toISOString()] prints. *)
Definition falsy_or_date (v : option jsval) : bool :=
  match v with
  | Some w => negb (truthy v) || bool_decide (is_Some (toISOString w))
  | None => true
  end.

(** The records for which the forEach callback does not throw. *)
Definition printable (item : doc) : bool :=
  falsy_or_text (item !! "method") && falsy_or_number (item !! "amountRMB")
  && falsy_or_text (item !! "content") && falsy_or_date (item !! "submittedAt").

(** The computation ends without an exception. *)
Definition returns {A} (r : A + exn) : bool :=
  match r with inl _ => true | inr _ => false end.

Lemma replace_receiver_defined v :
  falsy_or_text v = returns (replace_receiver v).
Proof.
  unfold falsy_or_text, replace_receiver, or_else.
  destruct v as [[|[]|x|s| | |]|]; simpl; try done.
  - by destruct (num_falsy x).
  - by destruct (bool_decide (s = "")).
Qed.

Lemma amountRMB_field_defined v :
  falsy_or_number v = returns (amountRMB_field v).
Proof.
  unfold falsy_or_number, amountRMB_field.
  destruct v as [[|[]|x|s| | |]|]; simpl; try done.
  - by destruct (num_falsy x).
  - by destruct (bool_decide (s = "")).
Qed.

Lemma submittedAt_field_defined v :
  falsy_or_date v = returns (submittedAt_field v).
Proof.
  unfold falsy_or_date, submittedAt_field. destruct v as [w|]; [|done].
  destruct (truthy (Some w)); simpl; [|done].
  by destruct (toISOString w).
Qed.

(** Whether a row can be built depends on the record only, not on its place
    in the file. *)
Lemma row_defined index item : returns (row index item) = printable item.
Proof.
  unfold printable, row.
  rewrite !replace_receiver_defined, amountRMB_field_defined, submittedAt_field_defined.
  destruct (replace_receiver (item !! "method")); [|done].
  destruct (amountRMB_field _); [|done].
  destruct (replace_receiver (item !! "content")); [|done].
  by destruct (submittedAt_field _).
Qed.

Lemma forEach_row_defined items : ∀ index acc,
  returns (forEach_row index items acc) = forallb printable items.
Proof.
  induction items as [|item rest IH]; intros index acc; simpl; [done|].
  rewrite <- (row_defined index item).
  destruct (row index item) as [fields|e]; simpl; [apply IH | done].
Qed.

Lemma forallb_Permutation (p : doc → bool) l1 l2 :
  l1 ≡ₚ l2 → forallb p l1 = forallb p l2.
Proof.
  induction 1 as [|x l1 l2 _ IH|x y l|l1 l2 l3 _ IH1 _ IH2]; simpl.
  - done.
  - by rewrite IH.
  - by rewrite !andb_assoc, (andb_comm (p y)).
  - by rewrite IH1.
Qed.

(** What the export answers, by the records. *)
Lemma export_csv_defined s :
  match export_csv s with
  | CsvFile n _ => forallb printable (records s) = true ∧ n = length (records s)
  | Failure status (Thrown _) => forallb printable (records s) = false ∧ status = 500
  | _ => False
  end.
Proof.
  unfold export_csv, find_sorted. simpl. rewrite filter_all_docs. unfold csvContent.
  rewrite <- (forallb_Permutation printable _ _ (sort_docs_permutation "submittedAt" Descending (records s))).
  rewrite <- (forEach_row_defined _ 0 (BOM +:+ String.concat "," headers +:+ String newline "")).
  destruct (forEach_row _ _ _); simpl; [|done].
  by rewrite sort_docs_length.
Qed.

Lemma export_is_all_or_nothing_aux (s : state) :
  if forallb printable (records s)
  then ∃ text, export_csv s = CsvFile (length (records s)) text
  else ∃ e, export_csv s = Failure 500 (Thrown e).
Proof.
  pose proof (export_csv_defined s) as Hdef.
  destruct (export_csv s) as [status [|e]| | | |n text];
    try done; destruct Hdef as [-> ->]; eauto.
Qed.

(** The export is all or nothing: it sends a file of all records when the
    row of every record can be built, and otherwise answers 500 and sends
    no line at all, not even those of the records before the one that
    fails.  A row cannot be built when method or content is a truthy value
    that is not a text, when amountRMB is a truthy value that is not a
    number, or when submittedAt is a truthy value that prints as no date. *)
Theorem export_is_all_or_nothing (s : state) :
  if forallb printable (records s)
  then ∃ text, export_csv s = CsvFile (length (records s)) text
  else ∃ e, export_csv s = Failure 500 (Thrown e).
Proof. apply export_is_all_or_nothing_aux. Qed.

(** The fields ingestion passes on unchecked. *)
Lemma sent_passes_on h now r s data item f :
  item ∈ data → f ∉ stamped → f ≠ "amountTWD" → f ≠ "amountRMB" → f ≠ "_id" →
  ∃ d, d ∈ sent h now r s data ∧ d !! f = item !! f.
Proof.
  intros [i Hi]%list_elem_of_lookup Hst Htwd Hrmb Hid.
  destruct (lookup_lt_is_Some_2 (sent h now r s data) i) as [d Hd].
  { rewrite sent_length. by eapply lookup_lt_Some. }
  exists d. split; [by eapply list_elem_of_lookup_2|].
  apply sent_lookup in Hd as (item' & Hitem' & _ & Hf).
  rewrite Hi in Hitem'. injection Hitem' as <-.
  rewrite Hf by done. by apply with_metadata_other.
Qed.

Lemma forallb_false_elem (p : doc → bool) l d :
  d ∈ l → p d = false → forallb p l = false.
Proof.
  intros Hd Hp. apply not_true_is_false. rewrite forallb_forall.
  intros Hall. rewrite (Hall d) in Hp; [done | by apply list_elem_of_In].
Qed.

(** Ingestion does not look at the fields of an item, so one accepted item
    whose method or content is a truthy value that is not a text (a number,
    an object) takes the export away from everyone: from then on it answers
    500, until that record is deleted. *)
Theorem unchecked_item_blocks_export
    (h : submit_handler) (now : Z) (r : submit_request) (s : state)
    (data : list doc) (item : doc) (f : string) :
  body_data r = Some data →
  all_writable (localId_index s) (records s) (sent h now r s data) = true →
  item ∈ data → f = "method" ∨ f = "content" →
  falsy_or_text (item !! f) = false →
  ∃ e, export_csv (post_records h now r s).2 = Failure 500 (Thrown e).
Proof.
  intros Hdata Hw Hitem Hf Hbad.
  assert (data ≠ []) as Hne by (intros ->; by apply elem_of_nil in Hitem).
  destruct (sent_passes_on h now r s data item f Hitem) as (d & Hd & Hdf);
    try (by destruct Hf as [-> | ->]).
  { destruct Hf as [-> | ->]; apply (bool_decide_unpack _); vm_compute; exact I. }
  pose proof (export_is_all_or_nothing_aux (post_records h now r s).2) as Hexp.
  assert (forallb printable (records (post_records h now r s).2) = false) as Hall.
  { apply (forallb_false_elem _ _ d).
    - rewrite post_records_records, Hdata. destruct data; [done|].
      rewrite (bulk_write_all _ _ _ 0 Hw). simpl. apply elem_of_app. by right.
    - unfold printable. rewrite <- Hdf in Hbad.
      destruct Hf as [-> | ->]; rewrite Hbad; by rewrite ?andb_false_r. }
  rewrite Hall in Hexp. done.
Qed.

(** *** Items that leave the export working *)

(** What an item must be like for its record to be printable, by handler:
    the handler that coerces the amounts accepts any amountRMB, the one that
    parses texts accepts a text as well. *)
Definition item_printable (h : submit_handler) (item : doc) : bool :=
  falsy_or_text (item !! "method") && falsy_or_text (item !! "content")
  && match h with
     | Plain => falsy_or_number (item !! "amountRMB")
     | Coercing => true
     | Logging =>
         match item !! "amountRMB" with
         | Some (VStr _) => true
         | v => falsy_or_number v
         end
     end.

Lemma with_metadata_amountRMB h now r k item :
  item_printable h item = true →
  falsy_or_number (with_metadata h now r k item !! "amountRMB") = true.
Proof.
  assert ("amountRMB" ∉ stamped) as Hst
    by (apply (bool_decide_unpack _); vm_compute; exact I).
  unfold item_printable. intros [_ Hrmb]%andb_prop. destruct h; simpl.
  - by rewrite metadata_other.
  - rewrite metadata_other, lookup_insert_eq by done. unfold falsy_or_number.
    simpl. apply orb_true_r.
  - unfold string_amount at 1. rewrite string_amount_other, metadata_other by done.
    destruct (item !! "amountRMB") as [[]|] eqn:Hitem;
      rewrite ?lookup_insert_eq, ?string_amount_other, ?metadata_other, ?Hitem by done;
      try done.
    unfold falsy_or_number. simpl. apply orb_true_r.
Qed.

Lemma sent_printable h now r s data :
  is_Some (toISOString (VDate now)) →
  forallb (item_printable h) data = true →
  Forall (λ d, printable d = true) (sent h now r s data).
Proof.
  intros Hnow Hitems. apply Forall_lookup.
  intros i d (item & Hitem & _ & Hf)%sent_lookup.
  assert (item_printable h item = true) as Hp.
  { rewrite forallb_forall in Hitems. apply Hitems, list_elem_of_In.
    by eapply list_elem_of_lookup_2. }
  destruct (with_metadata_stamped h now r (oids s + i) item)
    as (_ & _ & Hsub & _).
  pose proof (with_metadata_amountRMB h now r (oids s + i) item Hp) as Hrmb.
  unfold item_printable in Hp. rewrite !andb_true_iff in Hp.
  destruct Hp as [[Hmethod Hcontent] _].
  unfold printable. rewrite !Hf by done. rewrite Hsub, Hrmb.
  rewrite !with_metadata_other by
    (done || (apply (bool_decide_unpack _); vm_compute; exact I)).
  rewrite Hmethod, Hcontent. simpl. by apply bool_decide_eq_true_2.
Qed.

(** If the export works and a request brings only items whose method and
    content are texts or falsy, and whose amountRMB the handler can store as
    a number, the export still works afterwards, whether the request was
    accepted, refused or stopped at a conflict. *)
Theorem checked_items_keep_export_working
    (h : submit_handler) (now : Z) (r : submit_request) (s : state) :
  is_Some (toISOString (VDate now)) →
  forallb printable (records s) = true →
  forallb (item_printable h) (default [] (body_data r)) = true →
  ∃ text,
    export_csv (post_records h now r s).2
    = CsvFile (length (records (post_records h now r s).2)) text.
Proof.
  intros Hnow Hold Hitems.
  pose proof (export_is_all_or_nothing_aux (post_records h now r s).2) as Hexp.
  assert (forallb printable (records (post_records h now r s).2) = true) as Hall.
  { destruct (post_records_appends h now r s) as [k ->].
    rewrite forallb_app, Hold. simpl. apply forallb_forall.
    intros d Hd%list_elem_of_In.
    pose proof (sent_printable h now r s _ Hnow Hitems) as Hsent.
    rewrite Forall_forall in Hsent. apply Hsent.
    by apply (subseteq_take k). }
  by rewrite Hall in Hexp.
Qed.

End ExportFailures.

(** * GET /api/stats *)

(** The two operations on dates of the handler and of its pipelines. *)
Class Calendar := {
  (* $dateToString with the format '%Y-%m-%d' *)
  dateToString : Z → string;
  (* d.setDate(d.getDate() - 30) for the instant d, in the zone of the server *)
  thirty_days_before : Z → Z;
}.

Section Stats.
Context `{Runtime} `{Calendar}.

(** What [$avg] yields. *)
Inductive average :=
  | NoValue                          (* null: no document holds a number there *)
  | Quotient (sum : num) (n : nat)   (* the sum of the numbers by how many they are *)
  | Literal0.                        (* the 0 of the object after [||] *)

(** The group of the first pipeline: the three accumulators of the listing,
    count being called totalRecords here, and the two averages. *)
Record overall_stats := {
  totals : group_stats;
  avgAmountTWD : average;
  avgAmountRMB : average;
}.

(** A group of the other pipelines: its [_id] and its accumulators. *)
Record keyed_stats := {
  group_id : jsval;
  group_acc : group_stats;
}.

Definition is_number (v : option jsval) : bool :=
  match v with Some (VNum _) => true | _ => false end.

(** [{ $avg: '$field' }] over the documents of a group: values that are not
    numbers are left out. *)
Definition avg (field : string) (ds : list doc) : average :=
  match List.filter (λ d, is_number (d !! field)) ds with
  | [] => NoValue
  | x :: xs =>
      Quotient (fold_left (λ acc d, sum_step acc (d !! field)) (x :: xs) (num_lit 0))
               (length (x :: xs))
  end.

(** One document into the groups: into the group of its key when there is
    one, into a new group otherwise.  The store does not say in which order
    [$group] emits its groups; here it is the order in which the keys come
    up, and no statement below depends on it. *)
Fixpoint add_to_group (k : jsval) (d : doc) (gs : list keyed_stats) : list keyed_stats :=
  match gs with
  | [] => [{| group_id := k; group_acc := group_step zero_stats d |}]
  | g :: rest =>
      if bool_decide (group_id g = k)
      then {| group_id := group_id g; group_acc := group_step (group_acc g) d |} :: rest
      else g :: add_to_group k d rest
  end.

(** [{ $group: { _id: key, count: { $sum: 1 }, totalAmountTWD: ..., totalAmountRMB: ... } }] *)
Definition group_by (key_of : doc → jsval) (ds : list doc) : list keyed_stats :=
  fold_left (λ gs d, add_to_group (key_of d) d gs) ds [].

(** [_id: '$field']: a document without the field goes with those whose
    field is null. *)
Definition key_of_field (field : string) (d : doc) : jsval :=
  default VNull (d !! field).

(** [_id: { $dateToString: { format: '%Y-%m-%d', date: '$submittedAt' } }],
    on the documents the [$match] before it lets through, whose submittedAt
    is a date. *)
Definition day_of (d : doc) : jsval :=
  match d !! "submittedAt" with
  | Some (VDate t) => VStr (dateToString t)
  | _ => VNull
  end.

Fixpoint insert_group (le : keyed_stats → keyed_stats → bool) (g : keyed_stats)
    (sorted : list keyed_stats) : list keyed_stats :=
  match sorted with
  | [] => [g]
  | x :: rest => if le g x then g :: sorted else x :: insert_group le g rest
  end.

(** A [$sort] stage. *)
Definition sort_groups (le : keyed_stats → keyed_stats → bool) (gs : list keyed_stats)
  : list keyed_stats :=
  fold_right (insert_group le) [] gs.

(** [{ $sort: { count: -1 } }] and [{ $sort: { _id: 1 } }] *)
Definition by_count_descending (a b : keyed_stats) : bool :=
  (count (group_acc b) <=? count (group_acc a))%nat.

Definition by_id_ascending (a b : keyed_stats) : bool :=
  bson_le (Some (group_id a)) (Some (group_id b)).

(** [{ $match: { submittedAt: { $gte: thirtyDaysAgo } } }] *)
Definition last_thirty_days (now : Z) : filter :=
  [Field "submittedAt" (Range (Some (thirty_days_before now)) None)].

(** The body of the answer, without lastUpdated. *)
Record stats_body := {
  overall : overall_stats;
  byProject : list keyed_stats;
  byPayment : list keyed_stats;
  daily : list keyed_stats;
}.

Definition get_stats (now : Z) (s : state) : stats_body :=
  let overallStats :=
    match records s with
    | [] => []
    | ds => [{| totals := fold_left group_step ds zero_stats;
                avgAmountTWD := avg "amountTWD" ds;
                avgAmountRMB := avg "amountRMB" ds |}]
    end in
  {| overall :=
       match overallStats with
       | g :: _ => g
       | [] => {| totals := zero_stats; avgAmountTWD := Literal0; avgAmountRMB := Literal0 |}
       end;
     byProject := sort_groups by_count_descending
                    (group_by (key_of_field "project") (records s));
     byPayment := group_by (key_of_field "payment") (records s);
     daily := sort_groups by_id_ascending
                (group_by day_of (List.filter (matches (last_thirty_days now)) (records s))) |}.

End Stats.

(** ** Properties of the statistics *)

Section Grouping.
Context `{Runtime}.
Variable key_of : doc → jsval.

(** The documents of a key. *)
Definition members (k : jsval) (ds : list doc) : list doc :=
  List.filter (λ d, bool_decide (key_of d = k)) ds.

(** The three accumulators over a list of documents. *)
Definition summary (ds : list doc) : group_stats :=
  {| totalAmountTWD := sum_of "amountTWD" ds;
     totalAmountRMB := sum_of "amountRMB" ds;
     count := length ds |}.

(** The counts of the groups, added up. *)
Definition total_count (gs : list keyed_stats) : nat :=
  foldr (λ g n, count (group_acc g) + n) 0 gs.

Lemma fold_group_step_summary ds : fold_left group_step ds zero_stats = summary ds.
Proof. by rewrite fold_group_step. Qed.

Lemma members_snoc k ds d :
  members k (ds ++ [d]) = members k ds ++ (if bool_decide (key_of d = k) then [d] else []).
Proof. unfold members. by rewrite List.filter_app. Qed.

Lemma members_elem k ds d : d ∈ members k ds ↔ d ∈ ds ∧ key_of d = k.
Proof.
  unfold members. rewrite filterb_elem. by rewrite bool_decide_eq_true.
Qed.

Lemma add_to_group_keys k d gs :
  group_id <$> add_to_group k d gs
  = if bool_decide (k ∈ group_id <$> gs) then group_id <$> gs
    else (group_id <$> gs) ++ [k].
Proof.
  induction gs as [|g rest IH]; [done|].
  change (add_to_group k d (g :: rest)) with
    (if bool_decide (group_id g = k)
     then {| group_id := group_id g; group_acc := group_step (group_acc g) d |} :: rest
     else g :: add_to_group k d rest).
  rewrite fmap_cons.
  destruct (bool_decide (group_id g = k)) eqn:Hg.
  - apply bool_decide_eq_true in Hg. rewrite bool_decide_eq_true_2; [done|].
    rewrite Hg. by left.
  - apply bool_decide_eq_false in Hg. rewrite fmap_cons, IH.
    destruct (bool_decide (k ∈ group_id <$> rest)) eqn:Hk.
    + apply bool_decide_eq_true in Hk. rewrite bool_decide_eq_true_2; [done|by right].
    + apply bool_decide_eq_false in Hk. rewrite bool_decide_eq_false_2; [done|].
      intros [->|?]%elem_of_cons; done.
Qed.

Lemma add_to_group_elem k d gs g' :
  NoDup (group_id <$> gs) →
  g' ∈ add_to_group k d gs →
  (g' ∈ gs ∧ group_id g' ≠ k) ∨
  (group_id g' = k ∧
   ((∃ g, g ∈ gs ∧ group_id g = k ∧ group_acc g' = group_step (group_acc g) d) ∨
    ((k ∉ group_id <$> gs) ∧ group_acc g' = group_step zero_stats d))).
Proof.
  induction gs as [|g rest IH].
  - intros _ ->%list_elem_of_singleton. right. split; [done|]. right.
    split; [|done]. apply not_elem_of_nil.
  - rewrite fmap_cons. intros [Hfresh Hnodup]%NoDup_cons.
    change (add_to_group k d (g :: rest)) with
      (if bool_decide (group_id g = k)
       then {| group_id := group_id g; group_acc := group_step (group_acc g) d |} :: rest
       else g :: add_to_group k d rest).
    destruct (bool_decide (group_id g = k)) eqn:Hg.
    + apply bool_decide_eq_true in Hg. intros [->|Hin]%elem_of_cons.
      * right. split; [done|]. left. exists g. split; [by left|done].
      * left. split; [by right|]. intros Hk. apply Hfresh.
        rewrite Hg, <- Hk. by apply list_elem_of_fmap_2.
    + apply bool_decide_eq_false in Hg. intros [->|Hin]%elem_of_cons.
      * left. split; [by left|done].
      * destruct (IH Hnodup Hin)
          as [[Hin' Hne]|[Hk [(g0 & Hg0 & Hid & Hacc)|[Hnot Hacc]]]].
        -- left. split; [by right|done].
        -- right. split; [done|]. left. exists g0. split; [by right|done].
        -- right. split; [done|]. right. split; [|done].
           intros [?|?]%elem_of_cons; done.
Qed.

Lemma add_to_group_count k d gs :
  total_count (add_to_group k d gs) = S (total_count gs).
Proof.
  induction gs as [|g rest IH]; simpl; [done|].
  destruct (bool_decide (group_id g = k)); simpl; [done|]. rewrite IH. lia.
Qed.

(** The groups [gs] are the groups of the documents [ds]: one group for
    every key that occurs, with the accumulators of its documents. *)
Definition grouped (ds : list doc) (gs : list keyed_stats) : Prop :=
  NoDup (group_id <$> gs) ∧
  (∀ g, g ∈ gs →
     group_acc g = summary (members (group_id g) ds) ∧ members (group_id g) ds ≠ []) ∧
  (∀ d, d ∈ ds → key_of d ∈ group_id <$> gs) ∧
  total_count gs = length ds.

Lemma group_step_summary ds d : group_step (summary ds) d = summary (ds ++ [d]).
Proof.
  rewrite <- !fold_group_step_summary. by rewrite fold_left_app.
Qed.

Lemma grouped_snoc ds gs d :
  grouped ds gs → grouped (ds ++ [d]) (add_to_group (key_of d) d gs).
Proof.
  intros (Hnodup & Hacc & Hcover & Hcount). split; [|split; [|split]].
  - rewrite add_to_group_keys. destruct (bool_decide _) eqn:Hk; [done|].
    apply bool_decide_eq_false in Hk. apply NoDup_app. split; [done|].
    split; [|apply NoDup_singleton]. by intros x Hx ->%list_elem_of_singleton.
  - intros g Hg.
    destruct (add_to_group_elem _ _ _ _ Hnodup Hg)
      as [[Hin Hne]|[Hk [(g0 & Hg0 & Hid & Hstep)|[Hnot Hstep]]]].
    + rewrite members_snoc, bool_decide_eq_false_2 by done.
      rewrite app_nil_r. by apply Hacc.
    + rewrite Hk, members_snoc, bool_decide_eq_true_2 by done.
      split; [|intros Hnil; by apply app_eq_nil in Hnil as [_ ?]].
      rewrite Hstep. destruct (Hacc g0 Hg0) as [-> _]. rewrite Hid.
      apply group_step_summary.
    + rewrite Hk, members_snoc, bool_decide_eq_true_2 by done.
      split; [|intros Hnil; by apply app_eq_nil in Hnil as [_ ?]].
      assert (members (key_of d) ds = []) as ->.
      { destruct (members (key_of d) ds) as [|x xs] eqn:Hm; [done|]. exfalso.
        assert (x ∈ members (key_of d) ds) as Hx by (rewrite Hm; by left).
        apply members_elem in Hx as [Hx Hkey]. apply Hnot. rewrite <- Hkey. auto. }
      by rewrite Hstep, <- fold_group_step_summary.
  - intros d' Hd'. rewrite add_to_group_keys.
    apply elem_of_app in Hd' as [Hd'| ->%list_elem_of_singleton].
    + destruct (bool_decide _); [auto|]. apply elem_of_app. left. auto.
    + destruct (bool_decide _) eqn:Hk.
      * by apply bool_decide_eq_true in Hk.
      * apply elem_of_app. right. by left.
  - rewrite add_to_group_count, Hcount, length_app. simpl. lia.
Qed.

Lemma group_by_snoc ds d :
  group_by key_of (ds ++ [d]) = add_to_group (key_of d) d (group_by key_of ds).
Proof. unfold group_by. by rewrite fold_left_app. Qed.

Lemma group_by_grouped ds : grouped ds (group_by key_of ds).
Proof.
  induction ds as [|d ds IH] using rev_ind.
  - split; [constructor|]. split; [by intros g ?%elem_of_nil|].
    split; [by intros d ?%elem_of_nil | done].
  - rewrite group_by_snoc. by apply grouped_snoc.
Qed.

Lemma total_count_Permutation gs1 gs2 :
  gs1 ≡ₚ gs2 → total_count gs1 = total_count gs2.
Proof.
  induction 1 as [|x l1 l2 _ IH|x y l|l1 l2 l3 _ IH1 _ IH2]; simpl; lia.
Qed.

Lemma grouped_Permutation ds gs1 gs2 :
  gs1 ≡ₚ gs2 → grouped ds gs1 → grouped ds gs2.
Proof.
  intros Hp (Hnodup & Hacc & Hcover & Hcount). split; [|split; [|split]].
  - by rewrite <- Hp.
  - intros g Hg. apply Hacc. by rewrite Hp.
  - intros d Hd. rewrite <- Hp. auto.
  - by rewrite <- (total_count_Permutation _ _ Hp).
Qed.

End Grouping.

Section SortedGroups.
Context `{Runtime}.
Variable le : keyed_stats → keyed_stats → bool.

Lemma insert_group_permutation g sorted : insert_group le g sorted ≡ₚ g :: sorted.
Proof.
  induction sorted as [|x rest IH]; simpl; [done|].
  destruct (le g x); [done|]. rewrite IH. apply Permutation_swap.
Qed.

Lemma sort_groups_permutation gs : sort_groups le gs ≡ₚ gs.
Proof.
  unfold sort_groups. induction gs as [|g gs IH]; simpl; [done|].
  by rewrite insert_group_permutation, IH.
Qed.

Hypothesis le_total : ∀ a b, le a b = false → le b a = true.

Lemma insert_group_sorted g sorted :
  Sorted (λ a b, le a b = true) sorted →
  Sorted (λ a b, le a b = true) (insert_group le g sorted).
Proof.
  induction 1 as [|x rest Hrest IH Hhd]; simpl.
  - by repeat constructor.
  - destruct (le g x) eqn:Hgx.
    + constructor; [by constructor|]. by constructor.
    + constructor; [done|].
      destruct rest as [|y rest']; simpl; [constructor; auto|].
      destruct (le g y); constructor; [auto|]. by inversion Hhd.
Qed.

Lemma sort_groups_sorted gs : Sorted (λ a b, le a b = true) (sort_groups le gs).
Proof.
  unfold sort_groups. induction gs as [|g gs IH]; simpl; [constructor|].
  by apply insert_group_sorted.
Qed.

End SortedGroups.

Lemma Sorted_weaken {A} (R1 R2 : A → A → Prop) (l : list A) :
  (∀ a b, R1 a b → R2 a b) → Sorted R1 l → Sorted R2 l.
Proof.
  intros Himpl. induction 1 as [|x l Hl IH Hhd]; constructor; [done|].
  destruct Hhd; constructor; auto.
Qed.

Section StatsProperties.
Context `{Runtime} `{Calendar}.

(** The overall group holds the accumulators over all records. *)
Lemma overall_totals now s : totals (overall (get_stats now s)) = summary (records s).
Proof.
  unfold get_stats. cbn [overall]. destruct (records s) as [|d ds]; [done|].
  cbn [totals]. apply fold_group_step_summary.
Qed.

Lemma byProject_grouped now s :
  grouped (key_of_field "project") (records s) (byProject (get_stats now s)).
Proof.
  eapply grouped_Permutation; [|apply group_by_grouped].
  symmetry. apply sort_groups_permutation.
Qed.

(** The statistics and the listing agree: the overall group of /api/stats
    holds the count and the two sums that a listing without filters reports
    in its stats, and totalRecords is the totalCount of that listing. *)
Theorem overall_stats_agree_with_listing
    (now : Z) (p : list_query) (s : state) (data : list doc) (pg : pagination)
    (st : group_stats) :
  unfiltered p = true →
  get_records p s = Listing data pg st →
  totals (overall (get_stats now s)) = st ∧
  count (totals (overall (get_stats now s))) = totalCount pg.
Proof.
  intros Hq%query_unfiltered. unfold get_records. rewrite Hq.
  destruct (find_sorted _ _ _ _ _) as [found|e]; [|done].
  destruct (countDocuments [] s) as [total|e] eqn:Hcount; [|done].
  destruct (aggregate [] s) as [gs|e] eqn:Hagg; [|done].
  apply aggregate_stats in Hagg. intros [= <- <- <-]. rewrite Hagg, overall_totals.
  unfold countDocuments in Hcount. simpl in Hcount. injection Hcount as <-.
  unfold matching, summary. by rewrite filter_all_docs.
Qed.

(** *** The averages *)

(** The records whose field holds a number. *)
Definition with_number (field : string) (ds : list doc) : list doc :=
  List.filter (λ d, is_number (d !! field)) ds.

Lemma numbers_of_with_number field ds :
  numbers_of field (with_number field ds) = numbers_of field ds.
Proof.
  induction ds as [|d ds IH]; [done|].
  unfold with_number, numbers_of in *. simpl.
  unfold is_number at 1. unfold number_in at 2.
  destruct (d !! field) as [[]|] eqn:Hd; simpl; try done.
  unfold number_in at 1. rewrite Hd. f_equal. exact IH.
Qed.

Lemma avg_quotient field ds :
  avg field ds
  = match length (with_number field ds) with
    | 0 => NoValue
    | S n => Quotient (sum_of field ds) (S n)
    end.
Proof.
  unfold avg, sum_of, sum. fold (with_number field ds).
  rewrite <- (numbers_of_with_number field ds).
  destruct (with_number field ds) as [|x xs]; [done|].
  by rewrite fold_sum_step.
Qed.

(** An average of the overall group is the total of the same group divided
    by the number of records whose amount is a number, not by totalRecords:
    records whose amount is a text or is absent count in totalRecords and
    leave the average as it is.  It is null when no record holds a number,
    and the literal 0 when there is no record at all. *)
Theorem average_is_total_by_numeric_records (now : Z) (s : state) :
  avgAmountTWD (overall (get_stats now s))
  = match records s with
    | [] => Literal0
    | _ =>
        match length (with_number "amountTWD" (records s)) with
        | 0 => NoValue
        | S n => Quotient (totalAmountTWD (totals (overall (get_stats now s)))) (S n)
        end
    end ∧
  avgAmountRMB (overall (get_stats now s))
  = match records s with
    | [] => Literal0
    | _ =>
        match length (with_number "amountRMB" (records s)) with
        | 0 => NoValue
        | S n => Quotient (totalAmountRMB (totals (overall (get_stats now s)))) (S n)
        end
    end.
Proof.
  rewrite overall_totals. unfold get_stats. cbn [overall].
  destruct (records s) as [|d ds]; [done|].
  cbn [avgAmountTWD avgAmountRMB summary totalAmountTWD totalAmountRMB].
  by rewrite !avg_quotient.
Qed.

(** The groups by project and the groups by payment each split the
    records: there is exactly one group for every value of the field that
    occurs (the records without the field go with those where it is null),
    no group is empty, a group holds the count and the two sums of its
    records, and the counts add up to the number of records.  The groups by
    project come in non-increasing order of count. *)
Theorem groups_split_the_records (now : Z) (s : state) :
  grouped (key_of_field "project") (records s) (byProject (get_stats now s)) ∧
  grouped (key_of_field "payment") (records s) (byPayment (get_stats now s)) ∧
  Sorted (λ a b, (count (group_acc b) ≤ count (group_acc a))%nat)
    (byProject (get_stats now s)).
Proof.
  split; [|split].
  - apply byProject_grouped.
  - apply group_by_grouped.
  - assert (∀ a b, by_count_descending a b = false → by_count_descending b a = true)
      as Htotal.
    { unfold by_count_descending. intros a b Hab.
      apply Nat.leb_le. apply Nat.leb_gt in Hab. lia. }
    pose proof (sort_groups_sorted by_count_descending Htotal
                  (group_by (key_of_field "project") (records s))) as Hsorted.
    eapply Sorted_weaken; [|exact Hsorted].
    intros a b Hab. by apply Nat.leb_le.
Qed.

(** *** A group by project and the listing of that project *)





(** *** The groups by day *)

(** The record was submitted within the window of the daily statistics. *)
Definition recent (now : Z) (d : doc) : bool :=
  match d !! "submittedAt" with
  | Some (VDate t) => (thirty_days_before now <=? t)%Z
  | _ => false
  end.

Lemma matches_last_thirty_days now d : matches (last_thirty_days now) d = recent now d.
Proof.
  unfold matches, recent. simpl. rewrite andb_true_r.
  destruct (d !! "submittedAt") as [[]|]; simpl; by rewrite ?andb_true_r.
Qed.

Lemma daily_grouped now s :
  grouped day_of (List.filter (recent now) (records s)) (daily (get_stats now s)).
Proof.
  unfold get_stats. cbn [daily].
  rewrite (filter_ext_docs (matches (last_thirty_days now)) (recent now))
    by apply matches_last_thirty_days.
  eapply grouped_Permutation; [|apply group_by_grouped].
  symmetry. apply sort_groups_permutation.
Qed.

(** The daily groups split the records submitted since the instant thirty
    days before the request, and no others: records submitted earlier, or
    whose submittedAt is not a date, are counted in no group; the counts add
    up to the number of the records in that window; and every group is the
    day of a stored record of the window. *)
Theorem daily_groups_cover_the_window (now : Z) (s : state) :
  grouped day_of (List.filter (recent now) (records s)) (daily (get_stats now s)) ∧
  total_count (daily (get_stats now s)) = length (List.filter (recent now) (records s)) ∧
  ∀ g, g ∈ daily (get_stats now s) →
    ∃ d t, d ∈ records s ∧ d !! "submittedAt" = Some (VDate t) ∧
           (thirty_days_before now ≤ t)%Z ∧ group_id g = VStr (dateToString t).
Proof.
  pose proof (daily_grouped now s) as Hg. split; [done|].
  destruct Hg as (Hnodup & Hacc & Hcover & Hcount). split; [done|].
  intros g Hg. destruct (Hacc g Hg) as [_ Hne].
  destruct (members day_of (group_id g) _) as [|d ds] eqn:Hm; [done|].
  assert (d ∈ members day_of (group_id g) (List.filter (recent now) (records s))) as Hd
    by (rewrite Hm; by left).
  apply members_elem in Hd as [Hd Hkey]. apply filterb_elem in Hd as [Hd Hrecent].
  unfold recent in Hrecent. unfold day_of in Hkey.
  destruct (d !! "submittedAt") as [[| | | |t| |]|] eqn:Hsub; try done.
  exists d, t. repeat split; try done. by apply Z.leb_le.
Qed.

(** When the order of the store on values is total, the daily groups come
    in non-decreasing order of their day. *)
Theorem daily_groups_in_order_of_day (now : Z) (s : state) :
  (∀ a b, bson_le a b = false → bson_le b a = true) →
  Sorted (λ a b, bson_le (Some (group_id a)) (Some (group_id b)) = true)
    (daily (get_stats now s)).
Proof.
  intros Htotal. unfold get_stats. cbn [daily].
  apply (sort_groups_sorted by_id_ascending). unfold by_id_ascending. auto.
Qed.

End StatsProperties.

(** * The connection object of src/database.js *)

(** The class Database and the singleton the routes share.  What the driver
    does in a call (whether the client can be built, whether it connects,
    which createIndex throws, whether close throws) is given with the
    call. *)
Module Database.

(** The object: a client and a database handle, named by the number of the
    client they come from, or null. *)
Record t := {
  client : option nat;
  db : option nat;
  isConnected : bool;
}.

(** constructor() *)
Definition new : t := {| client := None; db := None; isConnected := false |}.

(** The object together with what lies outside it: how many clients have
    been built, and the indexes of zhongyuan_records. *)
Record world := {
  this : t;
  clients : nat;
  indexes : list string;
}.

Definition start : world := {| this := new; clients := 0; indexes := [] |}.

(** The driver during one call. *)
Record driver := {
  constructs : bool;            (* new MongoClient(uri, options) returns *)
  connects : bool;              (* client.connect() resolves *)
  failing_index : option nat;   (* the createIndex call that throws, if any *)
  closes : bool;                (* client.close() resolves *)
}.

Inductive error :=
  | DriverError        (* what the driver threw *)
  | NotConnected.      (* Error('数据库未连接') *)

(** The fields of the eight createIndex calls, in order. *)
Definition index_fields : list string :=
  ["localId"; "createdAt"; "name"; "project"; "submittedAt"; "deviceId";
   "syncStatus"; "payment"].

(** An index that exists is not built again. *)
Definition createIndex (field : string) (existing : list string) : list string :=
  if bool_decide (field ∈ existing) then existing else existing ++ [field].

(** createIndexes(): the calls before the one that throws take effect; the
    exception ends the try block and is logged.  Without a database handle
    the first statement throws. *)
Definition createIndexes (o : driver) (w : world) : world :=
  match db (this w) with
  | None => w
  | Some _ =>
      let called :=
        match failing_index o with
        | Some k => take k index_fields
        | None => index_fields
        end in
      {| this := this w; clients := clients w;
         indexes := fold_left (λ existing field, createIndex field existing)
                      called (indexes w) |}
  end.

(** connect(): the world afterwards, and the handle it resolves with or the
    error it rejects with. *)
Definition connect (o : driver) (w : world) : world * (option nat + error) :=
  if isConnected (this w) then (w, inl (db (this w)))
  else if negb (constructs o) then (w, inr DriverError)
  else
    let k := clients w in
    let built :=
      {| this := {| client := Some k; db := db (this w); isConnected := false |};
         clients := S k; indexes := indexes w |} in
    if negb (connects o) then (built, inr DriverError)
    else
      let connected :=
        {| this := {| client := Some k; db := Some k; isConnected := true |};
           clients := S k; indexes := indexes w |} in
      (createIndexes o connected, inl (Some k)).

(** disconnect() *)
Definition disconnect (o : driver) (w : world) : world :=
  match client (this w) with
  | Some c =>
      if closes o
      then {| this := {| client := Some c; db := db (this w); isConnected := false |};
              clients := clients w; indexes := indexes w |}
      else w
  | None => w
  end.

(** records() and logs(): the collection, as the handle it belongs to and
    its name. *)
Definition records (w : world) : nat * string + error :=
  match db (this w) with
  | Some d => inl (d, "zhongyuan_records")
  | None => inr NotConnected
  end.

Definition logs (w : world) : nat * string + error :=
  match db (this w) with
  | Some d => inl (d, "logs")
  | None => inr NotConnected
  end.

(** A call of one of the asynchronous methods. *)
Inductive call :=
  | Connect (o : driver)
  | CreateIndexes (o : driver)
  | Disconnect (o : driver).

Definition step (w : world) (c : call) : world :=
  match c with
  | Connect o => (connect o w).1
  | CreateIndexes o => createIndexes o w
  | Disconnect o => disconnect o w
  end.

(** The world after a sequence of calls, one awaited after the other. *)
Definition run (calls : list call) (w : world) : world := fold_left step calls w.

End Database.

(** ** Properties of the connection object *)

Section Connection.

(** What holds of the object at any time. *)
Definition coherent (w : Database.world) : Prop :=
  (Database.isConnected (Database.this w) = true → is_Some (Database.db (Database.this w))) ∧
  (is_Some (Database.db (Database.this w)) → is_Some (Database.client (Database.this w))) ∧
  (∀ k, Database.client (Database.this w) = Some k → k < Database.clients w) ∧
  (∀ k, Database.db (Database.this w) = Some k → k < Database.clients w).

Lemma createIndexes_this o w :
  Database.this (Database.createIndexes o w) = Database.this w ∧
  Database.clients (Database.createIndexes o w) = Database.clients w.
Proof. unfold Database.createIndexes. by destruct (Database.db _). Qed.

Lemma step_coherent w c : coherent w → coherent (Database.step w c).
Proof.
  intros Hw. pose proof Hw as (Hconn & Hdb & Hclient & Hhandle).
  destruct c as [o|o|o]; simpl.
  - unfold Database.connect.
    destruct (Database.isConnected (Database.this w)) eqn:Hc; [exact Hw|].
    destruct (Database.constructs o); simpl; [|exact Hw].
    destruct (Database.connects o); simpl.
    + unfold coherent. destruct (createIndexes_this o
        {| Database.this := {| Database.client := Some (Database.clients w);
                               Database.db := Some (Database.clients w);
                               Database.isConnected := true |};
           Database.clients := S (Database.clients w);
           Database.indexes := Database.indexes w |}) as [-> ->]. simpl.
      repeat split; eauto; intros k [= <-]; lia.
    + unfold coherent. simpl.
      repeat split; eauto; try done; try (intros k [= <-]; lia).
      intros k Hk. apply Hhandle in Hk. lia.
  - unfold coherent. by destruct (createIndexes_this o w) as [-> ->].
  - unfold Database.disconnect.
    destruct (Database.client (Database.this w)) as [c|] eqn:Hc; [|exact Hw].
    destruct (Database.closes o); [|exact Hw].
    unfold coherent. simpl. repeat split; eauto; done.
Qed.

Lemma start_coherent : coherent Database.start.
Proof. unfold coherent. simpl. repeat split; try done; by intros [? ?]. Qed.

Lemma run_coherent calls : ∀ w, coherent w → coherent (Database.run calls w).
Proof.
  unfold Database.run. induction calls as [|c calls IH]; intros w Hw; simpl; [done|].
  by apply IH, step_coherent.
Qed.

(** Whatever methods are called on the singleton, in whatever order and
    whatever the driver does in them, the flags of the object stay
    coherent: isConnected is set only with a database handle, a database
    handle only with a client, and both come from clients that were built. *)
Theorem connection_object_stays_coherent (calls : list Database.call) :
  coherent (Database.run calls Database.start).
Proof. apply run_coherent, start_coherent. Qed.

(** The call is a connect() in which the driver builds a client and
    connects it. *)
Definition connects_now (c : Database.call) : bool :=
  match c with
  | Database.Connect o => Database.constructs o && Database.connects o
  | _ => false
  end.

Lemma step_db w c :
  coherent w →
  is_Some (Database.db (Database.this (Database.step w c)))
  ↔ is_Some (Database.db (Database.this w)) ∨ connects_now c = true.
Proof.
  intros (Hconn & _). destruct c as [o|o|o]; simpl.
  - unfold Database.connect.
    destruct (Database.isConnected (Database.this w)) eqn:Hc.
    { simpl. split; [by left|]. intros _. by apply Hconn. }
    destruct (Database.constructs o); simpl; [|by split; [left|intros [|]]].
    destruct (Database.connects o); simpl; [|by split; [left|intros [|]]].
    unfold Database.createIndexes. simpl. split; [by right | eauto].
  - destruct (createIndexes_this o w) as [-> _]. by split; [left|intros [|]].
  - unfold Database.disconnect.
    destruct (Database.client (Database.this w));
      [destruct (Database.closes o)|]; simpl; by split; [left|intros [|]].
Qed.

Lemma run_db calls : ∀ w,
  coherent w →
  is_Some (Database.db (Database.this (Database.run calls w)))
  ↔ is_Some (Database.db (Database.this w)) ∨ existsb connects_now calls = true.
Proof.
  unfold Database.run. induction calls as [|c calls IH]; intros w Hw; simpl.
  - split; [by left | by intros [|]].
  - rewrite IH by by apply step_coherent. rewrite step_db by done.
    rewrite orb_true_iff. tauto.
Qed.

(** records() and logs() throw until a connect() has succeeded, and never
    after that: no method resets the database handle, so after a
    disconnect() they still hand out collections, of a client that is
    closed.  After any sequence of calls on the new object they return a
    collection exactly when in one of the calls so far the driver built a
    client and connected it. *)
Theorem collections_once_connected (calls : list Database.call) :
  if existsb connects_now calls
  then ∃ d, Database.records (Database.run calls Database.start)
              = inl (d, "zhongyuan_records") ∧
            Database.logs (Database.run calls Database.start) = inl (d, "logs")
  else Database.records (Database.run calls Database.start) = inr Database.NotConnected ∧
       Database.logs (Database.run calls Database.start) = inr Database.NotConnected.
Proof.
  pose proof (run_db calls Database.start start_coherent) as Hdb.
  unfold Database.records, Database.logs.
  destruct (existsb connects_now calls).
  - destruct (proj2 Hdb) as [d ->]; [by right|]. eauto.
  - destruct (Database.db _) as [d|]; [|done].
    destruct (proj1 Hdb) as [[? ?]|?]; [eauto|done..].
Qed.

(** *** The indexes *)

Lemma createIndex_present called : ∀ existing,
  (∀ x, x ∈ called → x ∈ existing) →
  fold_left (λ existing field, Database.createIndex field existing) called existing
  = existing.
Proof.
  induction called as [|x called IH]; intros existing Hin; simpl; [done|].
  unfold Database.createIndex at 2.
  rewrite bool_decide_eq_true_2 by (apply Hin; by left).
  apply IH. intros y Hy. apply Hin. by right.
Qed.

Lemma createIndex_fresh called : ∀ existing,
  NoDup (existing ++ called) →
  fold_left (λ existing field, Database.createIndex field existing) called existing
  = existing ++ called.
Proof.
  induction called as [|x called IH]; intros existing Hnodup; simpl.
  - by rewrite app_nil_r.
  - unfold Database.createIndex at 2.
    rewrite bool_decide_eq_false_2.
    + rewrite IH; rewrite <- app_assoc; done.
    + apply NoDup_app in Hnodup as (_ & Hfresh & _). intros Hx.
      apply (Hfresh x Hx). by left.
Qed.

Lemma take_take_le (l : list string) a b :
  (a ≤ b)%nat → take a (take b l) = take a l.
Proof. intros Hab. by rewrite take_take, Nat.min_l. Qed.

Lemma createIndex_prefix (l : list string) j k :
  NoDup l →
  fold_left (λ existing field, Database.createIndex field existing) (take k l) (take j l)
  = take (Nat.max j k) l.
Proof.
  intros Hnodup. destruct (decide (k ≤ j)%nat) as [Hle|Hgt].
  - rewrite createIndex_present; [by rewrite Nat.max_l|].
    intros x Hx. rewrite <- (take_take_le l k j) in Hx by done.
    by apply (subseteq_take k (take j l)).
  - rewrite Nat.max_r by lia.
    rewrite <- (take_drop j (take k l)) at 1.
    rewrite fold_left_app, take_take_le by lia.
    rewrite (createIndex_present (take j l) (take j l)) by (intros x Hx; exact Hx).
    rewrite createIndex_fresh.
    + rewrite <- (take_take_le l j k) at 1 by lia. apply take_drop.
    + rewrite <- (take_take_le l j k) at 1 by lia. rewrite take_drop.
      apply (sublist_NoDup _ l); [exact Hnodup | apply sublist_take].
Qed.

Lemma index_fields_NoDup : NoDup Database.index_fields.
Proof. apply (bool_decide_unpack _). vm_compute. exact I. Qed.

Lemma step_indexes w c :
  (∃ j, Database.indexes w = take j Database.index_fields) →
  ∃ j, Database.indexes (Database.step w c) = take j Database.index_fields.
Proof.
  intros [j Hj].
  assert (∀ o w', Database.indexes w' = Database.indexes w →
            ∃ j', Database.indexes (Database.createIndexes o w')
                  = take j' Database.index_fields) as Hcreate.
  { intros o w' Hw'. unfold Database.createIndexes.
    destruct (Database.db (Database.this w')); [|rewrite Hw'; eauto].
    simpl. rewrite Hw', Hj. destruct (Database.failing_index o) as [k|].
    - rewrite createIndex_prefix by apply index_fields_NoDup. eauto.
    - pose proof (createIndex_prefix Database.index_fields j
                    (length Database.index_fields) index_fields_NoDup) as Hall.
      rewrite firstn_all in Hall. rewrite Hall. eauto. }
  destruct c as [o|o|o]; simpl.
  - unfold Database.connect.
    destruct (Database.isConnected (Database.this w)); [eauto|].
    destruct (Database.constructs o); [|simpl; eauto].
    destruct (Database.connects o); [|simpl; eauto].
    cbn -[Database.createIndexes]. by apply Hcreate.
  - by apply Hcreate.
  - unfold Database.disconnect.
    destruct (Database.client (Database.this w)); [|eauto].
    destruct (Database.closes o); simpl; eauto.
Qed.

(** Whatever is called and whatever fails, the indexes that exist are the
    first few of the eight the source asks for, in its order: createIndexes
    stops at the first call that throws and reports nothing, so when the
    unique index on localId cannot be built none of the others is, and when
    any index exists the one on localId does. *)
Theorem indexes_are_built_in_order (calls : list Database.call) :
  ∃ j, Database.indexes (Database.run calls Database.start)
       = take j Database.index_fields.
Proof.
  unfold Database.run.
  assert (∃ j, Database.indexes Database.start = take j Database.index_fields) as Hstart
    by (by exists 0).
  revert Hstart. generalize Database.start.
  induction calls as [|c calls IH]; intros w Hw; simpl; [done|].
  by apply IH, step_indexes.
Qed.

End Connection.

(** * Reading the export back *)

(** ** The reader on the cells of a line *)

Section ReadingCells.

(** A character that means nothing to the reader. *)
Definition plain_char (c : ascii) : bool :=
  negb (bool_decide (c = dquote)) && negb (bool_decide (c = ","%char))
  && negb (bool_decide (c = newline)).

(** A text that can stand in a file without quotes around it. *)
Definition bare (s : string) : bool := string_forall plain_char s.

(** A text without a double quote. *)
Definition quote_free (s : string) : bool :=
  string_forall (λ c, negb (bool_decide (c = dquote))) s.

Lemma append_cons c (a b : string) : String c a +:+ b = String c (a +:+ b).
Proof. reflexivity. Qed.

Lemma append_nil_l (a : string) : "" +:+ a = a.
Proof. reflexivity. Qed.

Lemma append_snoc (a : string) c (b : string) :
  (a +:+ String c "") +:+ b = a +:+ String c b.
Proof. by rewrite append_assoc. Qed.

Variables (fields : list string) (rows : list (list string)).

Lemma read_plain_chars b : ∀ acc rest,
  bare b = true →
  read_csv (b +:+ rest) Bare acc fields rows = read_csv rest Bare (acc +:+ b) fields rows.
Proof.
  induction b as [|c b IH]; intros acc rest Hb.
  - by rewrite append_nil_l, append_nil_r.
  - simpl in Hb. apply andb_prop in Hb as [Hc Hb].
    unfold plain_char in Hc. rewrite !andb_true_iff, !negb_true_iff in Hc.
    destruct Hc as [[Hq Hcomma] Hnl].
    rewrite append_cons. simpl read_csv.
    unfold dquote, newline in *. rewrite Hq, Hcomma, Hnl.
    rewrite IH by done. by rewrite append_snoc.
Qed.

(** A bare cell, from its first character to the comma or the newline
    after it. *)
Lemma read_bare_comma b rest :
  bare b = true →
  read_csv (b +:+ String "," rest) FieldStart "" fields rows
  = read_csv rest FieldStart "" (fields ++ [b]) rows.
Proof.
  destruct b as [|c b]; intros Hb; [done|].
  simpl in Hb. apply andb_prop in Hb as [Hc Hb].
  unfold plain_char in Hc. rewrite !andb_true_iff, !negb_true_iff in Hc.
  destruct Hc as [[Hq Hcomma] Hnl].
  rewrite append_cons. simpl read_csv.
  unfold dquote, newline in *. rewrite Hq, Hcomma, Hnl.
  by rewrite read_plain_chars.
Qed.

Lemma read_bare_newline b rest :
  bare b = true →
  read_csv (b +:+ String newline rest) FieldStart "" fields rows
  = read_csv rest FieldStart "" [] (rows ++ [fields ++ [b]]).
Proof.
  destruct b as [|c b]; intros Hb; [done|].
  simpl in Hb. apply andb_prop in Hb as [Hc Hb].
  unfold plain_char in Hc. rewrite !andb_true_iff, !negb_true_iff in Hc.
  destruct Hc as [[Hq Hcomma] Hnl].
  rewrite append_cons. simpl read_csv.
  unfold dquote, newline in *. rewrite Hq, Hcomma, Hnl.
  by rewrite read_plain_chars.
Qed.

(** The inside of a quoted cell whose double quotes were doubled. *)
Lemma read_doubled m : ∀ acc rest,
  read_csv (double_quotes m +:+ rest) InQuotes acc fields rows
  = read_csv rest InQuotes (acc +:+ m) fields rows.
Proof.
  unfold double_quotes.
  induction m as [|c m IH]; intros acc rest.
  - by rewrite append_nil_l, append_nil_r.
  - simpl replace_char. unfold dquote in *.
    destruct (bool_decide (c = "034"%char)) eqn:Hq.
    + apply bool_decide_eq_true in Hq. subst c.
      rewrite !append_cons, append_nil_l. simpl read_csv.
      rewrite IH. by rewrite append_snoc.
    + rewrite append_cons. simpl read_csv. rewrite Hq, IH. by rewrite append_snoc.
Qed.

(** The same when the newlines were replaced after that. *)
Lemma read_doubled_one_line m : ∀ acc rest,
  read_csv (replace_char newline "; " (double_quotes m) +:+ rest) InQuotes acc fields rows
  = read_csv rest InQuotes (acc +:+ replace_char newline "; " m) fields rows.
Proof.
  unfold double_quotes.
  induction m as [|c m IH]; intros acc rest.
  - by rewrite append_nil_l, append_nil_r.
  - simpl replace_char. unfold dquote, newline in *.
    destruct (bool_decide (c = "034"%char)) eqn:Hq.
    + apply bool_decide_eq_true in Hq. subst c.
      rewrite !append_cons, append_nil_l. simpl replace_char.
      rewrite !append_cons. simpl read_csv.
      rewrite IH. by rewrite append_snoc.
    + simpl replace_char.
      destruct (bool_decide (c = "010"%char)) eqn:Hnl.
      * rewrite !append_cons, !append_nil_l. simpl read_csv.
        rewrite IH. by rewrite !append_assoc.
      * rewrite append_cons. simpl read_csv. rewrite Hq, IH. by rewrite append_snoc.
Qed.

Lemma double_quotes_quote_free s : quote_free s = true → double_quotes s = s.
Proof.
  unfold double_quotes, quote_free.
  induction s as [|c s IH]; simpl; [done|].
  intros [Hc Hs]%andb_prop. apply negb_true_iff in Hc. rewrite Hc. by rewrite IH.
Qed.

(** A quoted cell, up to its closing quote. *)
Lemma read_quoted_doubled m rest :
  read_csv (quoted (double_quotes m) +:+ rest) FieldStart "" fields rows
  = read_csv rest AfterQuote m fields rows.
Proof.
  unfold quoted. rewrite append_cons, append_snoc. simpl read_csv.
  rewrite read_doubled, append_nil_l. reflexivity.
Qed.

Lemma read_quoted_one_line m rest :
  read_csv (quoted (replace_char newline "; " (double_quotes m)) +:+ rest)
    FieldStart "" fields rows
  = read_csv rest AfterQuote (replace_char newline "; " m) fields rows.
Proof.
  unfold quoted. rewrite append_cons, append_snoc. simpl read_csv.
  rewrite read_doubled_one_line, append_nil_l. reflexivity.
Qed.

Lemma read_quoted_plain s rest :
  quote_free s = true →
  read_csv (quoted s +:+ rest) FieldStart "" fields rows
  = read_csv rest AfterQuote s fields rows.
Proof.
  intros Hs. rewrite <- (double_quotes_quote_free s Hs) at 1.
  apply read_quoted_doubled.
Qed.

Lemma read_closed_comma m rest :
  read_csv (String "," rest) AfterQuote m fields rows
  = read_csv rest FieldStart "" (fields ++ [m]) rows.
Proof. reflexivity. Qed.

Lemma read_closed_newline m rest :
  read_csv (String newline rest) AfterQuote m fields rows
  = read_csv rest FieldStart "" [] (rows ++ [fields ++ [m]]).
Proof. reflexivity. Qed.

End ReadingCells.

(** ** The reader on the file of the export *)

Section ReadingTheExport.
Context `{Runtime}.

(** What a reader should find in the line of a record: the columns without
    their quotes, with the double quotes of method and content single again. *)
Definition cells (seq : nat) (item : doc) : list string :=
  [ num_to_string (num_lit (Z.of_nat seq));
    text_of item "name";
    text_of item "project";
    replace_char newline "; " (text_of item "method");
    amountTWD_column item;
    amountRMB_column item;
    text_of item "content";
    text_of item "payment";
    text_of item "contact";
    submittedAt_column item;
    text_of item "deviceId";
    text_of item "batchId";
    text_of item "localId" ].

Fixpoint all_cells (seq : nat) (items : list doc) : list (list string) :=
  match items with
  | [] => []
  | item :: rest => cells seq item :: all_cells (S seq) rest
  end.

(** The line of the record can be read: the texts that are written between
    quotes as they are hold no double quote, and the numbers and the date
    print without quote, comma or newline. *)
Definition readable (seq : nat) (item : doc) : bool :=
  bare (num_to_string (num_lit (Z.of_nat seq)))
  && forallb (λ f, quote_free (text_of item f))
       ["name"; "project"; "payment"; "contact"; "deviceId"; "batchId"; "localId"]
  && bare (amountTWD_column item) && bare (amountRMB_column item)
  && bare (submittedAt_column item).

Fixpoint all_readable (seq : nat) (items : list doc) : bool :=
  match items with
  | [] => true
  | item :: rest => readable seq item && all_readable (S seq) rest
  end.

Lemma read_line seq item rest rows :
  readable seq item = true →
  read_csv (line seq item +:+ rest) FieldStart "" [] rows
  = read_csv rest FieldStart "" [] (rows ++ [cells seq item]).
Proof.
  unfold readable. cbn [forallb]. rewrite !andb_true_iff.
  intros [[[[Hseq (Hname & Hproject & Hpayment & Hcontact & Hdevice & Hbatch & Hlocal & _)]
             Htwd] Hrmb] Hdate].
  unfold line, columns. cbn [String.concat].
  rewrite !append_assoc, !append_cons, !append_nil_l.
  rewrite read_bare_comma by done.
  rewrite read_quoted_plain, read_closed_comma by done.
  rewrite read_quoted_plain, read_closed_comma by done.
  rewrite read_quoted_one_line, read_closed_comma.
  rewrite read_bare_comma by done.
  rewrite read_bare_comma by done.
  rewrite read_quoted_doubled, read_closed_comma.
  rewrite read_quoted_plain, read_closed_comma by done.
  rewrite read_quoted_plain, read_closed_comma by done.
  rewrite read_bare_comma by done.
  rewrite read_quoted_plain, read_closed_comma by done.
  rewrite read_quoted_plain, read_closed_comma by done.
  rewrite read_quoted_plain, read_closed_newline by done.
  reflexivity.
Qed.

Lemma read_lines items : ∀ seq rows,
  all_readable seq items = true →
  read_csv (lines seq items) FieldStart "" [] rows = Some (rows ++ all_cells seq items).
Proof.
  induction items as [|item items IH]; intros seq rows Hall; simpl in *.
  - by rewrite app_nil_r.
  - apply andb_prop in Hall as [Hitem Hrest].
    rewrite read_line, IH by done. by rewrite <- app_assoc.
Qed.

Lemma read_header rest :
  read_csv (String.concat "," headers +:+ String newline rest) FieldStart "" [] []
  = read_csv rest FieldStart "" [] [headers].
Proof.
  reflexivity.
Qed.

Lemma read_document items :
  all_readable 1 items = true →
  parse_csv (document items) = Some (headers :: all_cells 1 items).
Proof.
  intros Hall. unfold document.
  change (parse_csv (BOM +:+ ?t)) with (read_csv t FieldStart "" [] []).
  rewrite append_cons, append_nil_l.
  rewrite read_header. by rewrite read_lines.
Qed.

(** The file of the export, on records that hold texts, numbers and a date. *)
Lemma export_csv_document s :
  forallb exportable (records s) = true →
  export_csv s
  = CsvFile (length (records s))
      (document (sort_docs "submittedAt" Descending (records s))).
Proof.
  intros Hall. unfold export_csv, find_sorted. simpl. rewrite filter_all_docs.
  unfold csvContent.
  rewrite forEach_row_exportable by by apply sort_docs_forallb.
  rewrite sort_docs_length. unfold document. by rewrite !append_assoc.
Qed.

(** The export can be read back.  On records that hold texts, numbers and a
    date, none of whose name, project, payment status, contact, deviceId,
    batchId and localId holds a double quote, a reader of comma separated
    values finds in the file the header and, for every record in descending
    order of submittedAt, thirteen cells: its number in the file and its
    fields.  The content is read back as it was stored, with its commas,
    double quotes and newlines; the method is read back with every newline
    replaced by a semicolon and a space. *)
Theorem export_reads_back_the_records (s : state) :
  forallb exportable (records s) = true →
  all_readable 1 (sort_docs "submittedAt" Descending (records s)) = true →
  ∃ text,
    export_csv s = CsvFile (length (records s)) text ∧
    parse_csv text
    = Some (headers :: all_cells 1 (sort_docs "submittedAt" Descending (records s))).
Proof.
  intros Hall Hread. eexists. split; [by apply export_csv_document|].
  by apply read_document.
Qed.

End ReadingTheExport.

(** * The further statements on sample requests *)

(** The calendar of a server that runs in UTC. *)
Definition int_dateToString (t : Z) : string :=
  match iso t with
  | Some text => substring 0 10 text
  | None => ""
  end.

#[export] Instance IntCalendar : Calendar := {|
  dateToString := int_dateToString;
  thirty_days_before := λ t, (t - 30 * 86400000)%Z;
|}.

(** Two records that carry the same 24 hexadecimal digits, the first as its
    localId and the second as its serverId. *)
Definition hex_a : string := "aaaaaaaaaaaaaaaaaaaaaaaa".

Definition alpha : doc :=
  object [("name", VStr "A"); ("localId", VStr hex_a); ("batchId", VStr "B1")].

Definition beta : doc :=
  object [("name", VStr "B"); ("serverId", VStr hex_a); ("batchId", VStr "B2")].

Definition two_records : state :=
  {| records := [alpha; beta]; logs := [];
     localId_index := createIndexes ServerLayout; oids := 2 |}.

(** A request to delete a batch, with the default secret. *)
Definition delete_batch (batchId : jsval) : delete_request :=
  {| param_id := "batch"; del_batchId := Some batchId;
     del_adminPassword := Some (VStr "admin123"); del_ip := "10.0.0.1" |}.

(** Only the first of the two records that carry the target is deleted. *)
Lemma delete_single_first_match_witness :
  delete_records None 3000 (delete_by hex_a (Some (VStr "admin123"))) two_records
  = (Deleted 1,
     insertOne_log (record_delete hex_a 1 3000 "10.0.0.1")
       (set_records ([] ++ [beta]) two_records)).
Proof.
  apply (delete_single_first_match None 3000
           (delete_by hex_a (Some (VStr "admin123"))) two_records hex_a [] alpha [beta]).
  - reflexivity.
  - split; [discriminate | left; discriminate].
  - by_evaluation.
  - reflexivity.
  - reflexivity.
  - by_evaluation.
Defined.


(** The record the first batch writes. *)
Lemma written_records_carry_metadata_witness :
  ∃ d item,
    sent Logging 1000 first_batch (new_state ServerLayout)
      (default [] (body_data first_batch)) !! 0 = Some d ∧
    default [] (body_data first_batch) !! 0 = Some item ∧
    d !! "batchId" = Some (VStr "B1") ∧
    d !! "syncStatus" = Some (VStr "synced") ∧
    d !! "submittedAt" = Some (VDate 1000).
Proof.
  destruct (lookup_lt_is_Some_2
              (sent Logging 1000 first_batch (new_state ServerLayout)
                 (default [] (body_data first_batch))) 0) as [d Hd].
  { rewrite sent_length. simpl. lia. }
  destruct (written_records_carry_metadata Logging 1000 first_batch
              (new_state ServerLayout) (default [] (body_data first_batch)) 0 d Hd)
    as (item & Hitem & Hbatch & _ & Hsub & _ & _ & Hsync & _).
  exists d, item. repeat split; try assumption.
Defined.

(** Two batches, a deletion of everything and an export, from the empty
    collection. *)
Lemma localIds_stay_distinct_witness :
  localId_unique
    (records
       (serve_all [Submit Logging 1000 first_batch; Submit Logging 2000 second_batch;
                   Remove None 3000 (delete_by "all" (Some (VStr "admin123"))); Export]
          (new_state ServerLayout))).
Proof.
  apply (localIds_stay_distinct
           [Submit Logging 1000 first_batch; Submit Logging 2000 second_batch;
            Remove None 3000 (delete_by "all" (Some (VStr "admin123"))); Export]
           (new_state ServerLayout)).
  - reflexivity.
  - intros i j d1 d2 v Hi. simpl in Hi. by rewrite lookup_nil in Hi.
Defined.


(** The first batch on the empty collection. *)
Lemma clean_batch_is_accepted_witness :
  (post_records Logging 1000 first_batch (new_state ServerLayout)).1
    = Submitted (length (default [] (body_data first_batch))) (body_batchId first_batch) ∧
  length (records (post_records Logging 1000 first_batch (new_state ServerLayout)).2)
    = length (records (new_state ServerLayout))
      + length (default [] (body_data first_batch)).
Proof.
  apply (clean_batch_is_accepted Logging 1000 first_batch (new_state ServerLayout)
           (default [] (body_data first_batch))).
  - reflexivity.
  - discriminate.
  - by_evaluation.
Defined.

(** The listing of the three records without a filter, in pages of one. *)
Lemma blank_filters_match_everything_witness :
  ∃ data pg st,
    get_records (list_by None (Some (VStr "1")) None) three_records
    = Listing data pg st ∧
    totalCount pg = length (records three_records) ∧
    count st = length (records three_records) ∧
    totalAmountTWD st = sum_of "amountTWD" (records three_records) ∧
    totalAmountRMB st = sum_of "amountRMB" (records three_records).
Proof.
  destruct (get_records_answers (list_by None (Some (VStr "1")) None) three_records)
    as (data & pg & st & Hget).
  - reflexivity.
  - vm_compute. eauto.
  - exists data, pg, st. split; [exact Hget|].
    apply (blank_filters_match_everything (list_by None (Some (VStr "1")) None)
             three_records data pg st); [reflexivity | exact Hget].
Defined.

(** The first page of the listing of project X. *)
Lemma page_is_part_of_filtered_set_witness :
  ∃ data pg st,
    get_records (list_by (Some (VStr "X")) (Some (VStr "1")) None) three_records
    = Listing data pg st ∧
    data ⊆+ matching (query (list_by (Some (VStr "X")) (Some (VStr "1")) None))
              three_records ∧
    (length data ≤ totalCount pg)%nat.
Proof.
  destruct (get_records_answers (list_by (Some (VStr "X")) (Some (VStr "1")) None)
              three_records) as (data & pg & st & Hget).
  - vm_compute. reflexivity.
  - vm_compute. eauto.
  - exists data, pg, st. split; [exact Hget|].
    apply (page_is_part_of_filtered_set _ _ _ _ _ Hget).
Defined.

(** An item whose method is a number, and the request that brings it. *)
Definition numbered_method : doc :=
  object [("name", VStr "A"); ("method", VNum (num_lit 5))].

Definition unchecked_batch : submit_request :=
  submit [numbered_method] (Some (VStr "B1")) (Some (VStr "D1")).

Lemma unchecked_item_blocks_export_witness :
  ∃ e, export_csv (post_records Coercing 1000 unchecked_batch (new_state ServerLayout)).2
       = Failure 500 (Thrown e).
Proof.
  apply (unchecked_item_blocks_export Coercing 1000 unchecked_batch
           (new_state ServerLayout) [numbered_method] numbered_method "method").
  - reflexivity.
  - by_evaluation.
  - by left.
  - by left.
  - by_evaluation.
Defined.

(** The three records leave the export working. *)
Lemma checked_items_keep_export_working_witness :
  ∃ text,
    export_csv (post_records Coercing 1000 three_items (new_state ServerLayout)).2
    = CsvFile
        (length (records (post_records Coercing 1000 three_items
                            (new_state ServerLayout)).2)) text.
Proof.
  apply (checked_items_keep_export_working Coercing 1000 three_items
           (new_state ServerLayout)).
  - eexists. reflexivity.
  - reflexivity.
  - by_evaluation.
Defined.

(** The statistics of the three records against their listing. *)
Lemma overall_stats_agree_with_listing_witness :
  ∃ data pg st,
    get_records (list_by None (Some (VStr "1")) None) three_records
    = Listing data pg st ∧
    totals (overall (get_stats 5000 three_records)) = st ∧
    count (totals (overall (get_stats 5000 three_records))) = totalCount pg.
Proof.
  destruct (get_records_answers (list_by None (Some (VStr "1")) None) three_records)
    as (data & pg & st & Hget).
  - reflexivity.
  - vm_compute. eauto.
  - exists data, pg, st. split; [exact Hget|].
    apply (overall_stats_agree_with_listing 5000 (list_by None (Some (VStr "1")) None)
             three_records data pg st); [reflexivity | exact Hget].
Defined.


(** The daily groups of the three records, under the order of the model. *)
Lemma daily_groups_in_order_of_day_witness :
  Sorted (λ a b, bson_le (Some (group_id a)) (Some (group_id b)) = true)
    (daily (get_stats 5000 three_records)).
Proof.
  apply (daily_groups_in_order_of_day 5000 three_records).
  exact int_bson_le_total.
Defined.

(** A record whose content holds a comma, double quotes and a newline, and
    whose method holds a newline. *)
Definition intricate_item : doc :=
  object [("name", VStr "A"); ("project", VStr "P");
          ("method", VStr ("M" +:+ String newline "N"));
          ("content", VStr ("a," +:+ String dquote ("b" +:+ String dquote (String newline "c"))));
          ("payment", VStr "paid"); ("contact", VStr "K");
          ("amountTWD", VNum (num_lit 100)); ("amountRMB", VNum (num_lit 25));
          ("localId", VStr "l1")].

Definition one_intricate_record : state :=
  (post_records Coercing 0 (submit [intricate_item] (Some (VStr "B1")) (Some (VStr "D1")))
     (new_state ServerLayout)).2.

Lemma export_reads_back_the_records_witness :
  ∃ text,
    export_csv one_intricate_record
    = CsvFile (length (records one_intricate_record)) text ∧
    parse_csv text
    = Some (headers :: all_cells 1 (sort_docs "submittedAt" Descending
                                      (records one_intricate_record))).
Proof.
  apply (export_reads_back_the_records one_intricate_record).
  - by_evaluation.
  - by_evaluation.
Defined.

(** What is read back from that file. *)
Example intricate_record_reads_back :
  all_cells 1 (sort_docs "submittedAt" Descending (records one_intricate_record))
  = [["1"; "A"; "P"; "M; N"; "100"; "25.00";
      "a," +:+ String dquote ("b" +:+ String dquote (String newline "c"));
      "paid"; "K"; "1970-01-01T00:00:00.000Z"; "D1"; "B1"; "l1"]].
Proof. by_evaluation. Qed.

(** A collection of two records, and a batch whose second item repeats the
    localId of the first of them: after the partial write the localIds are
    still distinct. *)
Definition two_localIds : state :=
  {| records := [object [("name", VStr "A"); ("localId", VStr "a")];
                 object [("name", VStr "B"); ("localId", VStr "b")]];
     logs := []; localId_index := createIndexes ServerLayout; oids := 2 |}.

Definition conflicting_batch : submit_request :=
  submit [object [("name", VStr "C"); ("localId", VStr "c")];
          object [("name", VStr "A2"); ("localId", VStr "a")];
          object [("name", VStr "D"); ("localId", VStr "d")]]
    (Some (VStr "B3")) (Some (VStr "D1")).

Lemma post_records_keeps_unique_witness :
  localId_unique (records (post_records Logging 2000 conflicting_batch two_localIds).2).
Proof.
  apply (post_records_keeps_unique Logging 2000 conflicting_batch two_localIds).
  - reflexivity.
  - apply localIds_NoDup. apply (bool_decide_unpack _). vm_compute. exact I.
Defined.

(** What that request does: it stops at the second item with one record
    written. *)
Example conflicting_batch_stops :
  (post_records Logging 2000 conflicting_batch two_localIds).1
    = Failure 500 (Thrown (E11000 "localId_1" 1)) ∧
  localIds (records (post_records Logging 2000 conflicting_batch two_localIds).2)
    = [VStr "a"; VStr "b"; VStr "c"].
Proof. by_evaluation. Qed.

(** Submissions with text amounts and without amounts into the three
    records, and a deletion in between. *)
Lemma Coercing_keeps_amounts_numeric_witness :
  forallb numeric_amounts
    (records (serve_all [Submit Coercing 2000 anonymous_batch;
                         Remove None 3000 (delete_batch (VStr "B1"));
                         Submit Coercing 4000 bare_batch; Export]
                three_records)) = true ∧
  all_numbers "amountTWD"
    (records (serve_all [Submit Coercing 2000 anonymous_batch;
                         Remove None 3000 (delete_batch (VStr "B1"));
                         Submit Coercing 4000 bare_batch; Export]
                three_records)) = true ∧
  all_numbers "amountRMB"
    (records (serve_all [Submit Coercing 2000 anonymous_batch;
                         Remove None 3000 (delete_batch (VStr "B1"));
                         Submit Coercing 4000 bare_batch; Export]
                three_records)) = true.
Proof.
  apply (Coercing_keeps_amounts_numeric
           [Submit Coercing 2000 anonymous_batch;
            Remove None 3000 (delete_batch (VStr "B1"));
            Submit Coercing 4000 bare_batch; Export] three_records).
  - reflexivity.
  - by_evaluation.
Defined.

(** A deletion of everything whose log entry is rejected: the answer is 500
    and the two records are gone. *)
Example rejected_log_entry_after_deletion :
  (delete_records_logging false None 3000 (delete_by "all" (Some (VStr "admin123")))
     two_records).1
    = Failure 500 (Thrown StoreRejected) ∧
  length (records (delete_records_logging false None 3000
                     (delete_by "all" (Some (VStr "admin123"))) two_records).2)
    = 0%nat.
Proof. by_evaluation. Qed.
